(** * Dataset helper scripts: splitter, split validator, classification
      merger, age extractor and classification statistics

    A shallow embedding of the five command-line helpers under
    [dataset_helper_files/] and the properties their specification states
    about them, followed by further properties of the same code.

    Conventions of the embedding.
    - A JSONL file is the list of its text lines, in file order; a directory
      is the list of its files, each a name and its lines, in the order
      [os.listdir] happens to yield them.  Text is ASCII: a character is one
      byte, so [len] is the length of the string and the order of strings is
      the order [sorted] uses.
    - A parsed line is a [json] value; Python's [None] and JSON [null] are
      the same value, as they are after [json.loads].  Number literals with a
      fraction or an exponent are not represented: the scripts never compute
      with the numbers they read.
    - The library entry points the scripts call, [json.loads],
      [re.compile(p, re.IGNORECASE).findall], [datetime.strptime] and
      [sorted] on composite keys, are interfaces ([JsonLib], [ReLib],
      [DateLib], [SortLib]); every theorem holds for any implementation of
      them, and small reference implementations are given to evaluate the
      scripts on concrete files.
    - An exception is a value of [exn]; a loop body is a computation in a
      state-and-exception monad in which mutations made before a [raise]
      persist, as they do in Python.
    - Informational [print] calls (banners, progress, per-file totals) are
      left out; warnings and errors are kept as log events.  A line of a
      report is a constructor holding the values the line is formatted
      from, and a quotient is the pair of its operands.
    - The file has three parts: the scripts ([Py], [Eff], [Merger],
      [AgeExtractor], [Splitter], [Validator], [Report], [MergerMain],
      [ExtractorMain], [Analyzer]), the vocabulary of the statements ([Ref],
      [RefSort], [Spec], [Samples], [Words]), and the theorems. *)

From Stdlib Require Import String Ascii List ZArith Lia Bool Arith.
From Stdlib Require Import DecimalString.
From Stdlib Require Import Sorting.Sorted Sorting.Permutation.
Import ListNotations.
Set Warnings "-register-all".
Open Scope string_scope.
Open Scope list_scope.

(* ================================================================== *)
(** ** Python values and the operations the scripts apply to them *)

Module Py.

Inductive json : Type :=
| JNull
| JBool (b : bool)
| JInt (z : Z)
| JStr (s : string)
| JArr (items : list json)
| JObj (fields : list (string * json)).

(** The exceptions the four scripts can meet.  All of them are subclasses of
    [Exception]. *)
Inductive exn : Type :=
| JSONDecodeError
| AttributeError
| TypeError
| KeyError
| IndexError
| ValueError
| ZeroDivisionError.

Inductive result (A : Type) : Type :=
| Ok (a : A)
| Raise (e : exn).
Arguments Ok {A} a.
Arguments Raise {A} e.

(** [bool(v)], which is what [not v], [v or d] and [if v] test. *)
Definition truthy (v : json) : bool :=
  match v with
  | JNull => false
  | JBool b => b
  | JInt z => negb (z =? 0)%Z
  | JStr s => negb (s =? "")
  | JArr items => match items with [] => false | _ => true end
  | JObj fields => match fields with [] => false | _ => true end
  end.

(** [hash(v)] succeeds; lists and dicts raise [TypeError]. *)
Definition hashable (v : json) : bool :=
  match v with
  | JArr _ | JObj _ => false
  | _ => true
  end.

(** [a == b] on hashable values: [True == 1] and [False == 0] hold in
    Python, strings equal strings only, [None] equals [None] only.  Only
    hashable values are ever compared by the scripts as keys or identifiers
    (an unhashable one raises before), so the other cases are never
    reached. *)
Definition key_eqb (a b : json) : bool :=
  match a, b with
  | JNull, JNull => true
  | JBool x, JBool y => Bool.eqb x y
  | JInt x, JInt y => (x =? y)%Z
  | JBool x, JInt y | JInt y, JBool x => ((if x then 1 else 0) =? y)%Z
  | JStr x, JStr y => (x =? y)
  | _, _ => false
  end.

(** [v == "literal"]. *)
Definition is_str (v : json) (s : string) : bool :=
  match v with
  | JStr x => (x =? s)
  | _ => false
  end.

(** [v in [s1, s2, ...]] for a list of string literals. *)
Definition in_strs (v : json) (l : list string) : bool :=
  existsb (is_str v) l.

(** Lookup in the fields of an object. *)
Fixpoint lookup (k : string) (fields : list (string * json)) : option json :=
  match fields with
  | [] => None
  | (k', v) :: rest => if (k' =? k) then Some v else lookup k rest
  end.

(** [d[k] = v] on a [dict]: an existing key keeps its place, a new one goes
    last. *)
Fixpoint store (k : string) (v : json) (fields : list (string * json))
  : list (string * json) :=
  match fields with
  | [] => [(k, v)]
  | (k', v') :: rest =>
      if (k' =? k) then (k', v) :: rest else (k', v') :: store k v rest
  end.

(** [obj.get(k)]: [None] when the key is absent; [AttributeError] when
    [obj] is not a dict. *)
Definition get (obj : json) (k : string) : result json :=
  match obj with
  | JObj fields =>
      Ok (match lookup k fields with Some v => v | None => JNull end)
  | _ => Raise AttributeError
  end.

(** [obj.get(k, d)]. *)
Definition get_default (obj : json) (k : string) (d : json) : result json :=
  match obj with
  | JObj fields =>
      Ok (match lookup k fields with Some v => v | None => d end)
  | _ => Raise AttributeError
  end.

(** [obj[k]] with a string key: [KeyError] when a dict lacks it,
    [TypeError] on every other JSON value (lists and strings want integer
    indices, the rest is not subscriptable). *)
Definition getitem (obj : json) (k : string) : result json :=
  match obj with
  | JObj fields =>
      match lookup k fields with Some v => Ok v | None => Raise KeyError end
  | _ => Raise TypeError
  end.

(** [obj[k] = v] where [obj] came out of [json.loads]. *)
Definition setitem (obj : json) (k : string) (v : json) : result json :=
  match obj with
  | JObj fields => Ok (JObj (store k v fields))
  | _ => Raise TypeError
  end.

(** [a or b]. *)
Definition por (a b : json) : json := if truthy a then a else b.

(** [l[start:end]] for integer bounds: a negative bound counts from the end,
    and both are clamped to the list. *)
Definition slice {A : Type} (l : list A) (start stop : Z) : list A :=
  let len := Z.of_nat (length l) in
  let norm i := if (i <? 0)%Z then Z.max 0 (len + i) else Z.min i len in
  let s := norm start in
  let e := norm stop in
  firstn (Z.to_nat (e - s)) (skipn (Z.to_nat s) l).

(** [s.endswith(suffix)]. *)
Definition endswith (s suffix : string) : bool :=
  let n := String.length s in
  let m := String.length suffix in
  (m <=? n)%nat && (substring (n - m) m s =? suffix).

(** [s.startswith(p)]. *)
Definition startswith (s p : string) : bool := prefix p s.

(** [sorted(names)] on strings: insertion into an ascending list, by the
    character-code order Python compares strings with.  Equal strings are
    indistinguishable, so every sorting algorithm returns this list. *)
Fixpoint insert_by {A : Type} (name : A -> string) (x : A) (l : list A)
  : list A :=
  match l with
  | [] => [x]
  | y :: rest =>
      if String.leb (name x) (name y) then x :: l
      else y :: insert_by name x rest
  end.

Fixpoint sorted_by {A : Type} (name : A -> string) (l : list A) : list A :=
  match l with
  | [] => []
  | x :: rest => insert_by name x (sorted_by name rest)
  end.

End Py.
Import Py.

(* ================================================================== *)
(** ** A state-and-exception monad for loop bodies *)

Module Eff.

(** A computation over a state [St]: it ends normally with a value or raises,
    and in both cases leaves a state behind. *)
Definition M (St A : Type) : Type := St -> result A * St.

Definition ret {St A} (a : A) : M St A := fun s => (Ok a, s).

Definition bind {St A B} (m : M St A) (k : A -> M St B) : M St B :=
  fun s =>
    match m s with
    | (Ok a, s') => k a s'
    | (Raise e, s') => (Raise e, s')
    end.

Definition raise {St A} (e : exn) : M St A := fun s => (Raise e, s).

Definition lift {St A} (r : result A) : M St A := fun s => (r, s).

Definition modify {St} (f : St -> St) : M St unit := fun s => (Ok tt, f s).

Definition gets {St A} (f : St -> A) : M St A := fun s => (Ok (f s), s).

(** [try: m  except Exception as e: h e]: every exception of [exn] is an
    [Exception], so the handler always applies. *)
Definition try_except {St A} (m : M St A) (h : exn -> M St A) : M St A :=
  fun s =>
    match m s with
    | (Ok a, s') => (Ok a, s')
    | (Raise e, s') => h e s'
    end.

(** [for line_num, line in enumerate(f, n): body line_num line], stopping at
    the first exception that escapes [body]. *)
Fixpoint for_lines {St} (n : nat) (lines : list string)
    (body : nat -> string -> M St unit) : M St unit :=
  match lines with
  | [] => ret tt
  | line :: rest => bind (body n line) (fun _ => for_lines (S n) rest body)
  end.

(** [for x in items: body x]. *)
Fixpoint for_each {St A} (items : list A) (body : A -> M St unit)
  : M St unit :=
  match items with
  | [] => ret tt
  | x :: rest => bind (body x) (fun _ => for_each rest body)
  end.

End Eff.
Import Eff.

Declare Scope eff_scope.
Delimit Scope eff_scope with eff.
Notation "x <- m ;; k" := (bind m (fun x => k))
  (at level 61, m at next level, right associativity) : eff_scope.
Notation "m ;;; k" := (bind m (fun _ => k))
  (at level 61, right associativity) : eff_scope.

(* ================================================================== *)
(** ** The library calls the scripts depend on *)

(** [json.loads(line)]: [None] stands for [json.JSONDecodeError]. *)
Class JsonLib : Type := { json_loads : string -> option json }.

(** [re.compile(pattern, re.IGNORECASE).findall(text)] for a pattern with
    one capture group: the text of the group in each match, left to right. *)
Class ReLib : Type := { re_findall : string -> string -> list string }.

(** [datetime.strptime(text, '%Y-%m-%d').year]: [None] stands for
    [ValueError]. *)
Class DateLib : Type := { strptime_ymd_year : string -> option Z }.

Definition loads `{JsonLib} (line : string) : result json :=
  match json_loads line with
  | Some v => Ok v
  | None => Raise JSONDecodeError
  end.

(* ================================================================== *)
(** ** Classification Merger ([merge_classifications.py]) *)

Module Merger.

(** The composite key [(case_id, case_no)]. *)
Definition key : Type := (json * json)%type.

(** Tuple equality, component by component. *)
Definition key_eq (a b : key) : bool :=
  key_eqb (fst a) (fst b) && key_eqb (snd a) (snd b).

(** [hash((case_id, case_no))] succeeds. *)
Definition key_hashable (k : key) : bool :=
  hashable (fst k) && hashable (snd k).

(** The [classifications] dict, in insertion order. *)
Definition cdict : Type := list (key * json).

Fixpoint cdict_get (k : key) (d : cdict) : option json :=
  match d with
  | [] => None
  | (k', v) :: rest => if key_eq k' k then Some v else cdict_get k rest
  end.

(** [classifications[key] = value]. *)
Fixpoint cdict_set (k : key) (v : json) (d : cdict) : cdict :=
  match d with
  | [] => [(k, v)]
  | (k', v') :: rest =>
      if key_eq k' k then (k', v) :: rest else (k', v') :: cdict_set k v rest
  end.

Definition cdict_mem (k : key) (d : cdict) : bool :=
  match cdict_get k d with Some _ => true | None => false end.

(** One entry of [duplicates]. *)
Record duplicate : Type := {
  dup_case_id : json;
  dup_case_no : json;
  dup_file : string;
  dup_line : nat
}.

(** Warnings and errors printed while loading. *)
Inductive load_event : Type :=
| LoadMissingKey (file : string) (line_num : nat)
| LoadJsonError (file : string) (line_num : nat)
| LoadError (file : string) (line_num : nat).

Record load_state : Type := {
  classifications : cdict;
  duplicates : list duplicate;
  total_loaded : nat;
  load_log : list load_event
}.

Definition load_init : load_state :=
  {| classifications := []; duplicates := []; total_loaded := 0;
     load_log := [] |}.

Definition load_print (ev : load_event) : M load_state unit :=
  modify (fun st =>
    {| classifications := classifications st; duplicates := duplicates st;
       total_loaded := total_loaded st; load_log := load_log st ++ [ev] |}).

(** [key in classifications]: hashes the key first. *)
Definition load_key_in (k : key) : M load_state bool :=
  if key_hashable k then gets (fun st => cdict_mem k (classifications st))
  else raise TypeError.

Definition load_add_duplicate (d : duplicate) : M load_state unit :=
  modify (fun st =>
    {| classifications := classifications st;
       duplicates := duplicates st ++ [d];
       total_loaded := total_loaded st; load_log := load_log st |}).

Definition load_store (k : key) (v : json) : M load_state unit :=
  modify (fun st =>
    {| classifications := cdict_set k v (classifications st);
       duplicates := duplicates st;
       total_loaded := S (total_loaded st); load_log := load_log st |}).

Section WithJson.
Context `{JsonLib}.

(** The body of the [try] in [load_classifications] (lines 27-51). *)
Definition load_line (result_file : string) (line_num : nat) (line : string)
  : M load_state unit :=
  (result <- lift (loads line) ;;
   case_id <- lift (get result "case_id") ;;
   case_no <- lift (get result "case_no") ;;
   classification <- lift (get_default result "classification" (JObj [])) ;;
   if negb (truthy case_id) || negb (truthy case_no) then
     load_print (LoadMissingKey result_file line_num)
   else
     let k := (case_id, case_no) in
     present <- load_key_in k ;;
     (if present : bool then
        load_add_duplicate
          {| dup_case_id := case_id; dup_case_no := case_no;
             dup_file := result_file; dup_line := line_num |}
      else ret tt) ;;;
     load_store k classification)%eff.

(** The two [except] clauses (lines 53-56). *)
Definition load_handler (result_file : string) (line_num : nat) (e : exn)
  : M load_state unit :=
  match e with
  | JSONDecodeError => load_print (LoadJsonError result_file line_num)
  | _ => load_print (LoadError result_file line_num)
  end.

Definition load_file (f : string * list string) : M load_state unit :=
  for_lines 1 (snd f)
    (fun line_num line =>
       try_except (load_line (fst f) line_num line)
                  (load_handler (fst f) line_num)).

(** The files [os.listdir] yields that carry the result-file name. *)
Definition is_result_file (name : string) : bool :=
  startswith name "gender_classifications_results_" && endswith name ".jsonl".

Definition result_files (dir : list (string * list string))
  : list (string * list string) :=
  sorted_by fst (filter (fun f => is_result_file (fst f)) dir).

Fixpoint load_files (files : list (string * list string))
  : M load_state unit :=
  match files with
  | [] => ret tt
  | f :: rest => (load_file f ;;; load_files rest)%eff
  end.

(** [load_classifications(results_dir)]: the directory is the list of its
    files, each a name and its lines. *)
Definition load_classifications (dir : list (string * list string))
  : result unit * load_state :=
  load_files (result_files dir) load_init.

(** One entry of [no_classification_found]. *)
Record unmatched : Type := {
  um_case_id : json;
  um_case_no : json;
  um_line : nat;
  um_reason : string
}.

Inductive merge_event : Type :=
| MergeMissingKey (line_num : nat)
| MergeNoClassification (case_id case_no : json) (line_num : nat)
| MergeJsonError (line_num : nat)
| MergeError (line_num : nat).

(** [outfile] holds the values written, one per output line: each stands
    for the line [json.dumps(case, ensure_ascii=False) + '\n']. *)
Record merge_state : Type := {
  outfile : list json;
  merged_count : nat;
  no_classification_found : list unmatched;
  total_cases : nat;
  merge_log : list merge_event
}.

Definition merge_init : merge_state :=
  {| outfile := []; merged_count := 0; no_classification_found := [];
     total_cases := 0; merge_log := [] |}.

Definition merge_print (ev : merge_event) : M merge_state unit :=
  modify (fun st =>
    {| outfile := outfile st; merged_count := merged_count st;
       no_classification_found := no_classification_found st;
       total_cases := total_cases st; merge_log := merge_log st ++ [ev] |}).

Definition merge_count_case : M merge_state unit :=
  modify (fun st =>
    {| outfile := outfile st; merged_count := merged_count st;
       no_classification_found := no_classification_found st;
       total_cases := S (total_cases st); merge_log := merge_log st |}).

Definition merge_count_merged : M merge_state unit :=
  modify (fun st =>
    {| outfile := outfile st; merged_count := S (merged_count st);
       no_classification_found := no_classification_found st;
       total_cases := total_cases st; merge_log := merge_log st |}).

Definition merge_add_unmatched (u : unmatched) : M merge_state unit :=
  modify (fun st =>
    {| outfile := outfile st; merged_count := merged_count st;
       no_classification_found := no_classification_found st ++ [u];
       total_cases := total_cases st; merge_log := merge_log st |}).

Definition merge_write (case : json) : M merge_state unit :=
  modify (fun st =>
    {| outfile := outfile st ++ [case]; merged_count := merged_count st;
       no_classification_found := no_classification_found st;
       total_cases := total_cases st; merge_log := merge_log st |}).

Definition reason_missing : string :=
  "Missing case_id or case_no in original file".
Definition reason_no_match : string := "No matching classification found".

(** The body of the [try] in [merge_with_train] (lines 83-120). *)
Definition merge_line (cls : cdict) (line_num : nat) (line : string)
  : M merge_state unit :=
  (case <- lift (loads line) ;;
   merge_count_case ;;;
   case_id <- lift (get case "case_id") ;;
   case_no <- lift (get case "case_no") ;;
   if negb (truthy case_id) || negb (truthy case_no) then
     merge_print (MergeMissingKey line_num) ;;;
     merge_add_unmatched
       {| um_case_id := por case_id (JStr "MISSING");
          um_case_no := por case_no (JStr "MISSING");
          um_line := line_num; um_reason := reason_missing |}
   else
     let k := (case_id, case_no) in
     if key_hashable k then
       case' <-
         match cdict_get k cls with
         | Some c =>
             case' <- lift (setitem case "classification" c) ;;
             merge_count_merged ;;; ret case'
         | None =>
             merge_add_unmatched
               {| um_case_id := case_id; um_case_no := case_no;
                  um_line := line_num; um_reason := reason_no_match |} ;;;
             merge_print (MergeNoClassification case_id case_no line_num) ;;;
             ret case
         end ;;
       merge_write case'
     else raise TypeError)%eff.

Definition merge_handler (line_num : nat) (e : exn) : M merge_state unit :=
  match e with
  | JSONDecodeError => merge_print (MergeJsonError line_num)
  | _ => merge_print (MergeError line_num)
  end.

Definition merge_loop (cls : cdict) (n : nat) (lines : list string)
  : M merge_state unit :=
  for_lines n lines
    (fun line_num line =>
       try_except (merge_line cls line_num line) (merge_handler line_num)).

(** [merge_with_train(train_file, classifications, output_file)]: the train
    file is the list of its lines, and the state returned holds the output
    file together with the three values the function returns. *)
Definition merge_with_train (train : list string) (cls : cdict)
  : result unit * merge_state :=
  merge_loop cls 1 train merge_init.

(** [check_classifications_not_in_train]: the keys of the mapping that no
    line of the train file carries.  The bare [except] skips every line
    that raises. *)
Definition train_key (line : string) : option key :=
  match loads line with
  | Ok case =>
      match get case "case_id", get case "case_no" with
      | Ok case_id, Ok case_no =>
          if truthy case_id && truthy case_no
             && key_hashable (case_id, case_no)
          then Some (case_id, case_no) else None
      | _, _ => None
      end
  | Raise _ => None
  end.

Fixpoint train_keys (train : list string) : list key :=
  match train with
  | [] => []
  | line :: rest =>
      match train_key line with
      | Some k => k :: train_keys rest
      | None => train_keys rest
      end
  end.

Definition check_classifications_not_in_train (train : list string)
    (cls : cdict) : list key :=
  filter (fun k => negb (existsb (key_eq k) (train_keys train)))
         (map fst cls).

End WithJson.

End Merger.

(* ================================================================== *)
(** ** Age Extractor ([extract_age_only.py]) *)

Module AgeExtractor.

(** [self.birth_year_patterns] and [self.age_patterns], as written in the
    source; each has one capture group made of digits. *)
Definition birth_year_patterns : list string :=
  [ "(?:applicant|he|she).*?born\s+(?:in|on)\s+.*?(\d{4})";
    "born\s+(?:in|on)\s+.*?(\d{4})";
    "(?:applicant|he|she).*?birth.*?(\d{4})" ].

Definition age_patterns : list string :=
  [ "(?:applicant|he|she).*?aged?\s+(\d+)";
    "at\s+the\s+age\s+of\s+(\d+)";
    "(?:applicant|he|she)\s+(?:is|was)\s+(\d+)\s+years\s+old" ].

Definition digit_value (c : ascii) : option Z :=
  let n := nat_of_ascii c in
  if (48 <=? n)%nat && (n <=? 57)%nat then Some (Z.of_nat (n - 48)) else None.

Fixpoint int_digits (acc : Z) (s : string) : option Z :=
  match s with
  | EmptyString => Some acc
  | String c rest =>
      match digit_value c with
      | Some d => int_digits (10 * acc + d)%Z rest
      | None => None
      end
  end.

(** [int(match)] on the text of a capture group: the decimal value of a
    non-empty run of digits, [None] where Python raises [ValueError].  The
    groups are [\d{4}] and [\d+], so the text is always a run of digits. *)
Definition py_int (s : string) : option Z :=
  match s with
  | EmptyString => None
  | _ => int_digits 0 s
  end.

(** [facts[:10]] and the items the [for] loop then visits: a list yields its
    first ten items, a string its first ten characters; every other value
    raises ([None], numbers and booleans cannot be subscripted, and a dict
    has no slice among its keys). *)
Definition first_facts (facts : json) : result (list json) :=
  match facts with
  | JArr items => Ok (firstn 10 items)
  | JStr s =>
      Ok (map (fun c => JStr (String c EmptyString))
              (firstn 10 (list_ascii_of_string s)))
  | _ => Raise TypeError
  end.

(** [len(fact)]. *)
Definition py_len (v : json) : result nat :=
  match v with
  | JStr s => Ok (String.length s)
  | JArr items => Ok (length items)
  | JObj fields => Ok (length fields)
  | _ => Raise TypeError
  end.

Section WithLibs.
Context `{JsonLib} `{ReLib} `{DateLib}.

(** [pattern.findall(fact)]: a string is searched, anything else raises. *)
Definition findall (pattern : string) (fact : json) : result (list string) :=
  match fact with
  | JStr s => Ok (re_findall pattern s)
  | _ => Raise TypeError
  end.

(** [for match in matches]: the first match whose integer lies in
    [lo, hi]. *)
Fixpoint scan_matches (lo hi : Z) (matches : list string) : option Z :=
  match matches with
  | [] => None
  | m :: rest =>
      match py_int m with
      | Some v =>
          if (lo <=? v)%Z && (v <=? hi)%Z then Some v
          else scan_matches lo hi rest
      | None => scan_matches lo hi rest
      end
  end.

(** [for pattern in patterns]. *)
Fixpoint scan_patterns (lo hi : Z) (patterns : list string) (fact : json)
  : result (option Z) :=
  match patterns with
  | [] => Ok None
  | p :: rest =>
      match findall p fact with
      | Raise e => Raise e
      | Ok matches =>
          match scan_matches lo hi matches with
          | Some v => Ok (Some v)
          | None => scan_patterns lo hi rest fact
          end
      end
  end.

(** [for fact in facts[:10]], over the items already sliced. *)
Fixpoint scan_facts (lo hi : Z) (patterns : list string) (facts : list json)
  : result (option Z) :=
  match facts with
  | [] => Ok None
  | fact :: rest =>
      match py_len fact with
      | Raise e => Raise e
      | Ok n =>
          if (2000 <? n)%nat then scan_facts lo hi patterns rest
          else
            match scan_patterns lo hi patterns fact with
            | Raise e => Raise e
            | Ok (Some v) => Ok (Some v)
            | Ok None => scan_facts lo hi patterns rest
            end
      end
  end.

Definition extract (lo hi : Z) (patterns : list string) (facts : json)
  : result (option Z) :=
  match first_facts facts with
  | Raise e => Raise e
  | Ok items => scan_facts lo hi patterns items
  end.

(** [AgeExtractor.extract_birth_year(facts, case_id)]. *)
Definition extract_birth_year (facts : json) : result (option Z) :=
  extract 1850 2020 birth_year_patterns facts.

(** [AgeExtractor.extract_direct_age(facts, case_id)]. *)
Definition extract_direct_age (facts : json) : result (option Z) :=
  extract 0 120 age_patterns facts.

(** [AgeExtractor.calculate_age_at_judgment(birth_year, judgment_date)]:
    [strptime] raises [TypeError] on a value that is not a string and
    [ValueError] on a string that does not parse; both are caught. *)
Definition calculate_age_at_judgment (birth_year : option Z)
    (judgment_date : json) : option Z :=
  match birth_year, judgment_date with
  | None, _ => None
  | _, JNull => None
  | Some by_, JStr s =>
      match strptime_ymd_year s with
      | Some judgment_year =>
          let age := (judgment_year - by_)%Z in
          if (0 <=? age)%Z && (age <=? 120)%Z then Some age else None
      | None => None
      end
  | Some _, _ => None
  end.

(** [if x:] on an [int] or [None]. *)
Definition truthy_int (x : option Z) : bool :=
  match x with
  | Some z => negb (z =? 0)%Z
  | None => false
  end.

Record age_info : Type := {
  birth_year : option Z;
  age_at_judgment : option Z;
  age_source : option string
}.

Record entry : Type := {
  entry_case_id : json;
  entry_case_no : json;
  entry_age_info : age_info
}.

(** Lines 146-172: the final age and its source, from the two extracted
    values and the judgment date. *)
Definition final_age_of (calculated_age direct_age : option Z) : option Z :=
  match calculated_age with
  | Some a => Some a
  | None => direct_age
  end.

Definition age_source_of (calculated_age direct_age : option Z)
  : option string :=
  if truthy_int calculated_age then Some "calculated"
  else if truthy_int direct_age then Some "direct"
  else None.

Definition make_age_info (birth_year_ direct_age : option Z)
    (judgment_date : json) : age_info :=
  let calculated_age := calculate_age_at_judgment birth_year_ judgment_date in
  {| birth_year := birth_year_;
     age_at_judgment := final_age_of calculated_age direct_age;
     age_source := age_source_of calculated_age direct_age |}.

Inductive extract_event : Type :=
| ExtractJsonError (line_num : nat)
| ExtractError (line_num : nat).

(** [stats] is a dict of counters, [age_distribution] a [Counter] whose key
    f"{decade}s" is kept as the number [decade]. *)
Record extract_state : Type := {
  stats : list (string * nat);
  age_distribution : list (Z * nat);
  results : list entry;
  extract_log : list extract_event
}.

Definition stats_init : list (string * nat) :=
  [ ("total_processed", 0); ("male_cases", 0); ("female_cases", 0);
    ("high_confidence", 0); ("medium_confidence", 0);
    ("birth_years_found", 0); ("direct_ages_found", 0);
    ("calculated_ages", 0); ("total_with_age", 0) ].

Definition extract_init : extract_state :=
  {| stats := stats_init; age_distribution := []; results := [];
     extract_log := [] |}.

Fixpoint bump_str (k : string) (d : list (string * nat))
  : list (string * nat) :=
  match d with
  | [] => [(k, 1)]
  | (k', n) :: rest =>
      if (k' =? k) then (k', S n) :: rest else (k', n) :: bump_str k rest
  end.

Fixpoint bump_decade (k : Z) (d : list (Z * nat)) : list (Z * nat) :=
  match d with
  | [] => [(k, 1)]
  | (k', n) :: rest =>
      if (k' =? k)%Z then (k', S n) :: rest else (k', n) :: bump_decade k rest
  end.

(** [stats[name] += 1]. *)
Definition bump (name : string) : M extract_state unit :=
  modify (fun st =>
    {| stats := bump_str name (stats st);
       age_distribution := age_distribution st;
       results := results st; extract_log := extract_log st |}).

Definition bump_if (c : bool) (name : string) : M extract_state unit :=
  if c then bump name else ret tt.

Definition count_decade (final_age : option Z) : M extract_state unit :=
  match final_age with
  | Some a =>
      if negb (a =? 0)%Z then
        modify (fun st =>
          {| stats := bump_str "total_with_age" (stats st);
             age_distribution :=
               bump_decade ((a / 10) * 10)%Z (age_distribution st);
             results := results st; extract_log := extract_log st |})
      else ret tt
  | None => ret tt
  end.

Definition append_result (r : entry) : M extract_state unit :=
  modify (fun st =>
    {| stats := stats st; age_distribution := age_distribution st;
       results := results st ++ [r]; extract_log := extract_log st |}).

Definition extract_print (ev : extract_event) : M extract_state unit :=
  modify (fun st =>
    {| stats := stats st; age_distribution := age_distribution st;
       results := results st; extract_log := extract_log st ++ [ev] |}).

(** The body of the [try] in [process_dataset] (lines 111-179). *)
Definition process_line (line_num : nat) (line : string)
  : M extract_state unit :=
  (case <- lift (loads line) ;;
   case_id <- lift (get case "case_id") ;;
   case_no <- lift (get case "case_no") ;;
   classification <- lift (get_default case "classification" (JObj [])) ;;
   gender <- lift (get classification "gender") ;;
   confidence <- lift (get classification "confidence") ;;
   facts <- lift (get_default case "facts" (JArr [])) ;;
   judgment_date <- lift (get case "judgment_date") ;;
   if negb (in_strs gender ["Male"; "Female"]) then ret tt
   else if negb (in_strs confidence ["High"; "Medium"]) then ret tt
   else
     bump "total_processed" ;;;
     bump (if is_str gender "Male" then "male_cases" else "female_cases") ;;;
     bump (if is_str confidence "High" then "high_confidence"
           else "medium_confidence") ;;;
     birth_year_ <- lift (extract_birth_year facts) ;;
     direct_age <- lift (extract_direct_age facts) ;;
     let calculated_age :=
       calculate_age_at_judgment birth_year_ judgment_date in
     let final_age := final_age_of calculated_age direct_age in
     bump_if (truthy_int birth_year_) "birth_years_found" ;;;
     bump_if (truthy_int direct_age) "direct_ages_found" ;;;
     bump_if (truthy_int calculated_age) "calculated_ages" ;;;
     count_decade final_age ;;;
     append_result
       {| entry_case_id := case_id; entry_case_no := case_no;
          entry_age_info :=
            make_age_info birth_year_ direct_age judgment_date |})%eff.

Definition process_handler (line_num : nat) (e : exn)
  : M extract_state unit :=
  match e with
  | JSONDecodeError => extract_print (ExtractJsonError line_num)
  | _ => extract_print (ExtractError line_num)
  end.

Definition process_loop (n : nat) (lines : list string)
  : M extract_state unit :=
  for_lines n lines
    (fun line_num line =>
       try_except (process_line line_num line) (process_handler line_num)).

(** [process_dataset(input_file, output_file)]: [results st] is both the
    list returned and, entry by entry, the content of the output file. *)
Definition process_dataset (input : list string)
  : result unit * extract_state :=
  process_loop 1 input extract_init.

End WithLibs.

End AgeExtractor.

(* ================================================================== *)
(** ** Splitter ([split_dataset.py]) *)

Module Splitter.

(** [str(n)] for [n >= 0]. *)
Definition decimal (n : Z) : string :=
  NilZero.string_of_uint (N.to_uint (Z.to_N n)).

(** f"{n:02d}": at least two characters, zero-padded; the sign of a
    negative number counts as one of them. *)
Definition fmt_02d (n : Z) : string :=
  if (n <? 0)%Z then "-" ++ decimal (- n)
  else
    let s := decimal n in
    if (String.length s <? 2)%nat then "0" ++ s else s.

(** f"train_split_{i+1:02d}.jsonl", inside [output_dir]. *)
Definition chunk_name (i : Z) : string :=
  "train_split_" ++ fmt_02d (i + 1) ++ ".jsonl".

(** [range(n)]. *)
Definition range (n : Z) : list Z := map Z.of_nat (seq 0 (Z.to_nat n)).

Inductive split_event : Type :=
| Created (file : string) (cases : nat) (first_case_id : json).

(** [written] lists the files opened for writing with what was written to
    each, in the order of the writes. *)
Record split_state : Type := {
  written : list (string * list string);
  split_log : list split_event
}.

Definition split_init : split_state := {| written := []; split_log := [] |}.

Definition write_file (name : string) (content : list string)
  : M split_state unit :=
  modify (fun st =>
    {| written := written st ++ [(name, content)];
       split_log := split_log st |}).

Definition split_print (ev : split_event) : M split_state unit :=
  modify (fun st =>
    {| written := written st; split_log := split_log st ++ [ev] |}).

Section WithJson.
Context `{JsonLib}.

(** The body of the [for] loop (lines 36-53). *)
Definition split_chunk (lines : list string) (num_splits : Z)
    (lines_per_file : Z) (i : Z) : M split_state unit :=
  let total_lines := Z.of_nat (length lines) in
  let start_idx := (i * lines_per_file)%Z in
  let end_idx :=
    if (i =? num_splits - 1)%Z then total_lines
    else ((i + 1) * lines_per_file)%Z in
  let chunk_lines := slice lines start_idx end_idx in
  let output_file := chunk_name i in
  (write_file output_file chunk_lines ;;;
   match chunk_lines with
   | [] => raise IndexError
   | first :: _ =>
       first_case <- lift (loads first) ;;
       case_id <- lift (getitem first_case "case_id") ;;
       split_print (Created output_file (length chunk_lines) case_id)
   end)%eff.

(** [split_jsonl(input_file, output_dir, num_splits)]: the input file is the
    list [readlines()] returns. *)
Definition split_jsonl (lines : list string) (num_splits : Z)
  : result unit * split_state :=
  if (num_splits =? 0)%Z then (Raise ZeroDivisionError, split_init)
  else
    let lines_per_file := (Z.of_nat (length lines) / num_splits)%Z in
    for_each (range num_splits)
      (split_chunk lines num_splits lines_per_file) split_init.

End WithJson.

(** The directory after a sequence of writes into an empty one: opening a
    file again with mode 'w' replaces its content. *)
Fixpoint put_file (name : string) (content : list string)
    (dir : list (string * list string)) : list (string * list string) :=
  match dir with
  | [] => [(name, content)]
  | (n, c) :: rest =>
      if (n =? name) then (n, content) :: rest
      else (n, c) :: put_file name content rest
  end.

Definition directory_of (writes : list (string * list string))
  : list (string * list string) :=
  fold_left (fun dir w => put_file (fst w) (snd w) dir) writes [].

(** The lines of the files of a directory, read in the order of their
    sorted names. *)
Definition concat_sorted (dir : list (string * list string)) : list string :=
  flat_map snd (sorted_by fst dir).

End Splitter.

(* ================================================================== *)
(** ** Split Validator ([validate_split.py]) *)

Module Validator.

(** What the validator prints for each check, and the closing verdict. *)
Inductive report_line : Type :=
| CountPass
| CountFail (original split : nat)
| DuplicatesPass
| DuplicatesFail (n : nat) (sample : list (json * nat))
| MissingPass
| MissingFail (n : nat)
| ExtraPass
| ExtraFail (n : nat)
| FirstPass
| FirstWarning (original split : json)
| LastPass
| LastWarning (original split : json)
| AllPassed
| ValidationFailed.

Definition say (r : report_line) : M (list report_line) unit :=
  modify (fun log => log ++ [r]).

(** [Counter(ids)]: the count of each identifier, in order of first
    occurrence; [TypeError] on an identifier that cannot be hashed. *)
Fixpoint counter_add (x : json) (c : list (json * nat)) : list (json * nat) :=
  match c with
  | [] => [(x, 1)]
  | (y, n) :: rest =>
      if key_eqb y x then (y, S n) :: rest else (y, n) :: counter_add x rest
  end.

Definition counter_of (ids : list json) : list (json * nat) :=
  fold_left (fun c x => counter_add x c) ids [].

Definition Counter (ids : list json) : result (list (json * nat)) :=
  if forallb hashable ids then Ok (counter_of ids) else Raise TypeError.

(** [set(ids)]: the distinct identifiers; [TypeError] as for [Counter]. *)
Definition mem (x : json) (s : list json) : bool := existsb (key_eqb x) s.

Definition set_add (x : json) (s : list json) : list json :=
  if mem x s then s else s ++ [x].

Definition set_of (ids : list json) : result (list json) :=
  if forallb hashable ids then Ok (fold_left (fun s x => set_add x s) ids [])
  else Raise TypeError.

(** [a - b] on sets. *)
Definition set_diff (a b : list json) : list json :=
  filter (fun x => negb (mem x b)) a.

(** [ids[0]] and [ids[-1]]. *)
Definition first_of (ids : list json) : result json :=
  match ids with
  | [] => Raise IndexError
  | x :: _ => Ok x
  end.

Definition last_of (ids : list json) : result json :=
  match ids with
  | [] => Raise IndexError
  | x :: rest => Ok (last rest x)
  end.

Definition is_empty {A} (l : list A) : bool :=
  match l with [] => true | _ => false end.

(** Lines 50-122: the checks, the verdict and the value returned. *)
Definition run_checks (original_case_ids split_case_ids : list json)
  : M (list report_line) bool :=
  (let count_ok := (length original_case_ids =? length split_case_ids)%nat in
   say (if count_ok then CountPass
        else CountFail (length original_case_ids) (length split_case_ids)) ;;;
   split_counter <- lift (Counter split_case_ids) ;;
   let duplicates := filter (fun p => (1 <? snd p)%nat) split_counter in
   say (if is_empty duplicates then DuplicatesPass
        else DuplicatesFail (length duplicates) (firstn 5 duplicates)) ;;;
   original_set <- lift (set_of original_case_ids) ;;
   split_set <- lift (set_of split_case_ids) ;;
   let missing_cases := set_diff original_set split_set in
   say (if is_empty missing_cases then MissingPass
        else MissingFail (length missing_cases)) ;;;
   let extra_cases := set_diff split_set original_set in
   say (if is_empty extra_cases then ExtraPass
        else ExtraFail (length extra_cases)) ;;;
   o_first <- lift (first_of original_case_ids) ;;
   s_first <- lift (first_of split_case_ids) ;;
   say (if key_eqb o_first s_first then FirstPass
        else FirstWarning o_first s_first) ;;;
   o_last <- lift (last_of original_case_ids) ;;
   s_last <- lift (last_of split_case_ids) ;;
   say (if key_eqb o_last s_last then LastPass
        else LastWarning o_last s_last) ;;;
   let all_passed :=
     count_ok && is_empty duplicates && is_empty missing_cases
     && is_empty extra_cases in
   say (if all_passed then AllPassed else ValidationFailed) ;;;
   ret all_passed)%eff.

Section WithJson.
Context `{JsonLib}.

(** [for line in f: case = json.loads(line); ids.append(case['case_id'])],
    with no handler around it. *)
Fixpoint read_case_ids (lines : list string) : result (list json) :=
  match lines with
  | [] => Ok []
  | line :: rest =>
      match loads line with
      | Raise e => Raise e
      | Ok case =>
          match getitem case "case_id" with
          | Raise e => Raise e
          | Ok case_id =>
              match read_case_ids rest with
              | Raise e => Raise e
              | Ok ids => Ok (case_id :: ids)
              end
          end
      end
  end.

Definition split_files (dir : list (string * list string))
  : list (string * list string) :=
  sorted_by fst (filter (fun f => endswith (fst f) ".jsonl") dir).

Fixpoint read_split_ids (files : list (string * list string))
  : result (list json) :=
  match files with
  | [] => Ok []
  | f :: rest =>
      match read_case_ids (snd f) with
      | Raise e => Raise e
      | Ok ids =>
          match read_split_ids rest with
          | Raise e => Raise e
          | Ok more => Ok (ids ++ more)
          end
      end
  end.

(** [validate_split(original_file, split_dir)]: the value returned, or the
    exception that ended the run, with the report printed until then. *)
Definition validate_split (original : list string)
    (split_dir : list (string * list string))
  : result bool * list report_line :=
  match read_case_ids original with
  | Raise e => (Raise e, [])
  | Ok original_case_ids =>
      match read_split_ids (split_files split_dir) with
      | Raise e => (Raise e, [])
      | Ok split_case_ids => run_checks original_case_ids split_case_ids []
      end
  end.

End WithJson.

End Validator.

(* ================================================================== *)
(** ** Reference implementations of the library calls

    Used to run the scripts on concrete files.  Each covers the ASCII
    fragment the examples need and returns [None] (or no match) outside
    it. *)

Module Ref.

Definition dquote : ascii := ascii_of_nat 34.
Definition squote : ascii := ascii_of_nat 39.
Definition backslash : ascii := ascii_of_nat 92.

(** JSON text is written with single quotes in this file and read with
    double quotes: [js "{'a': 1}"] is the line [{"a": 1}]. *)
Fixpoint js (s : string) : string :=
  match s with
  | EmptyString => EmptyString
  | String c rest =>
      String (if Ascii.eqb c squote then dquote else c) (js rest)
  end.

Definition is_digit (c : ascii) : bool :=
  let n := nat_of_ascii c in (48 <=? n)%nat && (n <=? 57)%nat.

Definition is_ws (c : ascii) : bool :=
  let n := nat_of_ascii c in
  (n =? 32)%nat || (n =? 9)%nat || (n =? 10)%nat || (n =? 13)%nat.

Fixpoint skip_ws (cs : list ascii) : list ascii :=
  match cs with
  | c :: rest => if is_ws c then skip_ws rest else cs
  | [] => []
  end.

(** The characters of a string literal up to its closing quote; escapes and
    control characters are outside the fragment. *)
Fixpoint scan_string (cs : list ascii) : option (string * list ascii) :=
  match cs with
  | [] => None
  | c :: rest =>
      if Ascii.eqb c dquote then Some (EmptyString, rest)
      else if Ascii.eqb c backslash || (nat_of_ascii c <? 32)%nat then None
      else
        match scan_string rest with
        | Some (s, r) => Some (String c s, r)
        | None => None
        end
  end.

Fixpoint scan_digits (cs : list ascii) : list ascii * list ascii :=
  match cs with
  | c :: rest =>
      if is_digit c then
        let (ds, r) := scan_digits rest in (c :: ds, r)
      else ([], cs)
  | [] => ([], [])
  end.

Definition digits_value (ds : list ascii) : Z :=
  fold_left (fun acc c => (10 * acc + Z.of_nat (nat_of_ascii c - 48))%Z) ds 0%Z.

(** An integer literal: no leading zero, and no fraction or exponent after
    it. *)
Definition scan_int (cs : list ascii) : option (Z * list ascii) :=
  let (ds, r) := scan_digits cs in
  match ds with
  | [] => None
  | d :: more =>
      if Ascii.eqb d "0" && negb (match more with [] => true | _ => false end)
      then None
      else
        match r with
        | c :: _ =>
            if Ascii.eqb c "." || Ascii.eqb c "e" || Ascii.eqb c "E"
            then None else Some (digits_value ds, r)
        | [] => Some (digits_value ds, r)
        end
  end.

Fixpoint parse_value (fuel : nat) (cs : list ascii) {struct fuel}
  : option (json * list ascii) :=
  match fuel with
  | O => None
  | S f =>
      match skip_ws cs with
      | "n"%char :: "u"%char :: "l"%char :: "l"%char :: r => Some (JNull, r)
      | "t"%char :: "r"%char :: "u"%char :: "e"%char :: r =>
          Some (JBool true, r)
      | "f"%char :: "a"%char :: "l"%char :: "s"%char :: "e"%char :: r =>
          Some (JBool false, r)
      | "["%char :: r =>
          match skip_ws r with
          | "]"%char :: r' => Some (JArr [], r')
          | _ =>
              match parse_items f r [] with
              | Some (items, r') => Some (JArr items, r')
              | None => None
              end
          end
      | "{"%char :: r =>
          match skip_ws r with
          | "}"%char :: r' => Some (JObj [], r')
          | _ =>
              match parse_members f r [] with
              | Some (fields, r') => Some (JObj fields, r')
              | None => None
              end
          end
      | "-"%char :: r =>
          match scan_int r with
          | Some (z, r') => Some (JInt (- z), r')
          | None => None
          end
      | c :: r =>
          if Ascii.eqb c dquote then
            match scan_string r with
            | Some (s, r') => Some (JStr s, r')
            | None => None
            end
          else
            match scan_int (c :: r) with
            | Some (z, r') => Some (JInt z, r')
            | None => None
            end
      | [] => None
      end
  end
with parse_items (fuel : nat) (cs : list ascii) (acc : list json)
    {struct fuel} : option (list json * list ascii) :=
  match fuel with
  | O => None
  | S f =>
      match parse_value f cs with
      | Some (v, r) =>
          match skip_ws r with
          | ","%char :: r' => parse_items f r' (acc ++ [v])
          | "]"%char :: r' => Some (acc ++ [v], r')
          | _ => None
          end
      | None => None
      end
  end
with parse_members (fuel : nat) (cs : list ascii)
    (acc : list (string * json)) {struct fuel}
  : option (list (string * json) * list ascii) :=
  match fuel with
  | O => None
  | S f =>
      match skip_ws cs with
      | c :: r =>
          if Ascii.eqb c dquote then
            match scan_string r with
            | Some (k, r1) =>
                match skip_ws r1 with
                | ":"%char :: r2 =>
                    match parse_value f r2 with
                    | Some (v, r3) =>
                        match skip_ws r3 with
                        | ","%char :: r4 => parse_members f r4 (store k v acc)
                        | "}"%char :: r4 => Some (store k v acc, r4)
                        | _ => None
                        end
                    | None => None
                    end
                | _ => None
                end
            | None => None
            end
          else None
      | [] => None
      end
  end.

(** [json.loads] on the fragment: one value, blanks around it, nothing
    else. *)
Definition ref_loads (line : string) : option json :=
  let cs := list_ascii_of_string line in
  match parse_value (2 * length cs + 2) cs with
  | Some (v, r) => match skip_ws r with [] => Some v | _ => None end
  | None => None
  end.

Definition ref_json : JsonLib := {| json_loads := ref_loads |}.

(** *** Regular expressions

    The constructs the six patterns are made of, matched with backtracking
    in the order Python's [re] tries them. *)
Inductive re_item : Type :=
| Chars (s : string)          (* a literal, letters in either case *)
| OneOf (alts : list string)  (* (?:a|b|c), alternatives tried in order *)
| LazyAny                     (* .*?  any characters but a newline *)
| Spaces                      (* \s+ *)
| OptChar (c : ascii)         (* c? *)
| Cap4                        (* (\d{4}) *)
| CapDigits.                  (* (\d+) *)

Definition lower (c : ascii) : ascii :=
  let n := nat_of_ascii c in
  if (65 <=? n)%nat && (n <=? 90)%nat then ascii_of_nat (n + 32) else c.

Definition ieq (a b : ascii) : bool := Ascii.eqb (lower a) (lower b).

(** [\s] on text: blank, tab to carriage return, and the four separator
    controls. *)
Definition is_space (c : ascii) : bool :=
  let n := nat_of_ascii c in
  (n =? 32)%nat || ((9 <=? n)%nat && (n <=? 13)%nat)
  || ((28 <=? n)%nat && (n <=? 31)%nat).

Definition is_newline (c : ascii) : bool := (nat_of_ascii c =? 10)%nat.

(** The text left after a literal, when the text starts with it. *)
Fixpoint strip_chars (lit : list ascii) (t : list ascii)
  : option (list ascii) :=
  match lit, t with
  | [], _ => Some t
  | a :: lit', b :: t' => if ieq a b then strip_chars lit' t' else None
  | _ :: _, [] => None
  end.

(** [rmatch p t cap]: the first way, in backtracking order, of matching the
    sequence [p] at the start of [t]: the text of the group and the text
    left after the match. *)
Fixpoint rmatch (p : list re_item) (t : list ascii) (cap : list ascii)
  : option (list ascii * list ascii) :=
  match p with
  | [] => Some (cap, t)
  | Chars s :: p' =>
      match strip_chars (list_ascii_of_string s) t with
      | Some t' => rmatch p' t' cap
      | None => None
      end
  | OneOf alts :: p' =>
      (fix try_alts (alts : list string) :=
         match alts with
         | [] => None
         | a :: more =>
             match strip_chars (list_ascii_of_string a) t with
             | Some t' =>
                 match rmatch p' t' cap with
                 | Some r => Some r
                 | None => try_alts more
                 end
             | None => try_alts more
             end
         end) alts
  | LazyAny :: p' =>
      (fix lazy (t : list ascii) :=
         match rmatch p' t cap with
         | Some r => Some r
         | None =>
             match t with
             | c :: t' => if is_newline c then None else lazy t'
             | [] => None
             end
         end) t
  | Spaces :: p' =>
      (fix greedy (t : list ascii) :=
         match t with
         | c :: t' =>
             if is_space c then
               match greedy t' with
               | Some r => Some r
               | None => rmatch p' t' cap
               end
             else None
         | [] => None
         end) t
  | OptChar c :: p' =>
      match t with
      | b :: t' =>
          if ieq c b then
            match rmatch p' t' cap with
            | Some r => Some r
            | None => rmatch p' t cap
            end
          else rmatch p' t cap
      | [] => rmatch p' t cap
      end
  | Cap4 :: p' =>
      match t with
      | a :: b :: c :: d :: t' =>
          if is_digit a && is_digit b && is_digit c && is_digit d
          then rmatch p' t' [a; b; c; d] else None
      | _ => None
      end
  | CapDigits :: p' =>
      (fix greedy (acc : list ascii) (t : list ascii) :=
         match t with
         | c :: t' =>
             if is_digit c then
               match greedy (acc ++ [c]) t' with
               | Some r => Some r
               | None => rmatch p' t' (acc ++ [c])
               end
             else None
         | [] => None
         end) [] t
  end.

(** [findall]: matches are searched from left to right and do not overlap;
    none of the six patterns matches the empty text. *)
Fixpoint findall_from (fuel : nat) (p : list re_item) (t : list ascii)
  : list string :=
  match fuel with
  | O => []
  | S f =>
      match rmatch p t [] with
      | Some (cap, rest) =>
          string_of_list_ascii cap :: findall_from f p rest
      | None =>
          match t with
          | [] => []
          | _ :: t' => findall_from f p t'
          end
      end
  end.

Definition subject : re_item := OneOf ["applicant"; "he"; "she"].
Definition in_or_on : re_item := OneOf ["in"; "on"].

(** The six patterns of the extractor, by their source text. *)
Definition compile (pattern : string) : option (list re_item) :=
  if pattern =? "(?:applicant|he|she).*?born\s+(?:in|on)\s+.*?(\d{4})" then
    Some [subject; LazyAny; Chars "born"; Spaces; in_or_on; Spaces; LazyAny;
          Cap4]
  else if pattern =? "born\s+(?:in|on)\s+.*?(\d{4})" then
    Some [Chars "born"; Spaces; in_or_on; Spaces; LazyAny; Cap4]
  else if pattern =? "(?:applicant|he|she).*?birth.*?(\d{4})" then
    Some [subject; LazyAny; Chars "birth"; LazyAny; Cap4]
  else if pattern =? "(?:applicant|he|she).*?aged?\s+(\d+)" then
    Some [subject; LazyAny; Chars "age"; OptChar "d"; Spaces; CapDigits]
  else if pattern =? "at\s+the\s+age\s+of\s+(\d+)" then
    Some [Chars "at"; Spaces; Chars "the"; Spaces; Chars "age"; Spaces;
          Chars "of"; Spaces; CapDigits]
  else if pattern
          =? "(?:applicant|he|she)\s+(?:is|was)\s+(\d+)\s+years\s+old" then
    Some [subject; Spaces; OneOf ["is"; "was"]; Spaces; CapDigits; Spaces;
          Chars "years"; Spaces; Chars "old"]
  else None.

Definition ref_findall (pattern text : string) : list string :=
  match compile pattern with
  | Some p =>
      let t := list_ascii_of_string text in
      findall_from (S (length t)) p t
  | None => []
  end.

Definition ref_re : ReLib := {| re_findall := ref_findall |}.

(** *** [strptime(text, '%Y-%m-%d')]

    [%Y] is four digits; [%m] is [1[0-2]|0[1-9]|[1-9]]; [%d] is
    [3[0-1]|[1-2]\d|0[1-9]|[1-9]| [1-9]]; the whole text must be consumed
    and the date must exist. *)
Definition dval (c : ascii) : Z := Z.of_nat (nat_of_ascii c - 48).

Definition in_range (c : ascii) (lo hi : nat) : bool :=
  let n := nat_of_ascii c - 48 in
  is_digit c && (lo <=? n)%nat && (n <=? hi)%nat.

Definition scan_month (cs : list ascii) : option (Z * list ascii) :=
  match cs with
  | a :: b :: r =>
      if Ascii.eqb a "1" && in_range b 0 2 then Some (10 + dval b, r)%Z
      else if Ascii.eqb a "0" && in_range b 1 9 then Some (dval b, r)
      else if in_range a 1 9 then Some (dval a, b :: r)
      else None
  | [a] => if in_range a 1 9 then Some (dval a, []) else None
  | [] => None
  end.

Definition scan_day (cs : list ascii) : option (Z * list ascii) :=
  match cs with
  | a :: b :: r =>
      if Ascii.eqb a "3" && in_range b 0 1 then Some (30 + dval b, r)%Z
      else if in_range a 1 2 && is_digit b then
        Some (10 * dval a + dval b, r)%Z
      else if Ascii.eqb a "0" && in_range b 1 9 then Some (dval b, r)
      else if in_range a 1 9 then Some (dval a, b :: r)
      else if Ascii.eqb a " " && in_range b 1 9 then Some (dval b, r)
      else None
  | [a] => if in_range a 1 9 then Some (dval a, []) else None
  | [] => None
  end.

Definition is_leap (y : Z) : bool :=
  ((y mod 4 =? 0) && (negb (y mod 100 =? 0) || (y mod 400 =? 0)))%Z.

Definition days_in_month (y m : Z) : Z :=
  if (m =? 2)%Z then (if is_leap y then 29 else 28)%Z
  else if ((m =? 4) || (m =? 6) || (m =? 9) || (m =? 11))%Z then 30%Z
  else 31%Z.

Definition ref_strptime_year (text : string) : option Z :=
  match list_ascii_of_string text with
  | a :: b :: c :: d :: dash :: r =>
      if is_digit a && is_digit b && is_digit c && is_digit d
         && Ascii.eqb dash "-"
      then
        let y := (1000 * dval a + 100 * dval b + 10 * dval c + dval d)%Z in
        match scan_month r with
        | Some (m, dash2 :: r') =>
            if Ascii.eqb dash2 "-" then
              match scan_day r' with
              | Some (dd, []) =>
                  if (1 <=? y)%Z && (dd <=? days_in_month y m)%Z
                  then Some y else None
              | _ => None
              end
            else None
        | _ => None
        end
      else None
  | _ => None
  end.

Definition ref_date : DateLib := {| strptime_ymd_year := ref_strptime_year |}.

End Ref.

(* ================================================================== *)
(** ** Vocabulary of the statements *)

Module Spec.

(** A loop whose body never lets an exception escape, as a fold of its
    steps over the numbered lines. *)
Fixpoint steps {St} (step : nat -> string -> St -> St) (n : nat)
    (lines : list string) (st : St) : St :=
  match lines with
  | [] => st
  | line :: rest => steps step (S n) rest (step n line st)
  end.

(** The lines of a file with their numbers, counted from [n]. *)
Fixpoint numbered (n : nat) (lines : list string) : list (nat * string) :=
  match lines with
  | [] => []
  | line :: rest => (n, line) :: numbered (S n) rest
  end.

Section WithJson.
Context `{JsonLib}.

(** The two key fields of a record, as [case.get] returns them. *)
Definition key_fields (v : json) : option (json * json) :=
  match get v "case_id", get v "case_no" with
  | Ok a, Ok b => Some (a, b)
  | _, _ => None
  end.

(** A record that carries both key fields, usable as a composite key. *)
Definition has_key (v : json) : bool :=
  match key_fields v with
  | Some (a, b) => truthy a && truthy b && Merger.key_hashable (a, b)
  | None => false
  end.

(** A record in which [case_id] or [case_no] is absent or empty. *)
Definition lacks_key (v : json) : bool :=
  match key_fields v with
  | Some (a, b) => negb (truthy a) || negb (truthy b)
  | None => false
  end.

(** What the merge writes for a record with a key: the record with its
    classification attached on a hit, the record itself on a miss. *)
Definition merged_record (cls : Merger.cdict) (v : json) : json :=
  match key_fields v with
  | Some k =>
      match Merger.cdict_get k cls, v with
      | Some c, JObj fields => JObj (store "classification" c fields)
      | _, _ => v
      end
  | None => v
  end.

(** One turn of the merge loop, handler included, as a change of the
    state. *)
Definition merge_step (cls : Merger.cdict) (n : nat) (line : string)
    (st : Merger.merge_state) : Merger.merge_state :=
  snd (try_except (Merger.merge_line cls n line) (Merger.merge_handler n) st).

(** The output lines one input line gives rise to. *)
Definition written_for (cls : Merger.cdict) (line : string) : list json :=
  match json_loads line with
  | Some v => if has_key v then [merged_record cls v] else []
  | None => []
  end.

(** The [no_classification_found] entries one input line gives rise to. *)
Definition unmatched_for (cls : Merger.cdict) (nl : nat * string)
  : list Merger.unmatched :=
  match json_loads (snd nl) with
  | Some v =>
      match key_fields v with
      | Some (a, b) =>
          if negb (truthy a) || negb (truthy b) then
            [ {| Merger.um_case_id := por a (JStr "MISSING");
                 Merger.um_case_no := por b (JStr "MISSING");
                 Merger.um_line := fst nl;
                 Merger.um_reason := Merger.reason_missing |} ]
          else if Merger.key_hashable (a, b) then
            match Merger.cdict_get (a, b) cls with
            | Some _ => []
            | None =>
                [ {| Merger.um_case_id := a; Merger.um_case_no := b;
                     Merger.um_line := fst nl;
                     Merger.um_reason := Merger.reason_no_match |} ]
            end
          else []
      | None => []
      end
  | None => []
  end.

End WithJson.

Section WithLibs.
Context `{JsonLib} `{ReLib} `{DateLib}.

Definition in_range (lo hi v : Z) : bool := (lo <=? v)%Z && (v <=? hi)%Z.

(** The integers the matches of one fact text denote: rules in their fixed
    order, and for each rule its matches from left to right. *)
Definition fact_candidates (patterns : list string) (text : string)
  : list Z :=
  flat_map
    (fun p =>
       flat_map (fun m => match AgeExtractor.py_int m with
                          | Some v => [v]
                          | None => []
                          end)
                (re_findall p text))
    patterns.

(** The facts a scan looks at: the first ten, without those longer than
    2000 characters. *)
Definition scanned (texts : list string) : list string :=
  filter (fun t => negb (2000 <? String.length t)%nat) (firstn 10 texts).

(** All candidates of a record, facts in order. *)
Definition candidates (patterns : list string) (texts : list string)
  : list Z :=
  flat_map (fact_candidates patterns) (scanned texts).

(** The record is one the extractor processes: gender Male or Female and
    confidence High or Medium. *)
Definition eligible (v : json) : bool :=
  match get_default v "classification" (JObj []) with
  | Ok c =>
      match get c "gender", get c "confidence" with
      | Ok g, Ok cf =>
          in_strs g ["Male"; "Female"] && in_strs cf ["High"; "Medium"]
      | _, _ => false
      end
  | Raise _ => false
  end.

(** [facts] and [judgment_date] as the extractor reads them. *)
Definition facts_of (v : json) : json :=
  match get_default v "facts" (JArr []) with Ok f => f | Raise _ => JNull end.

Definition judgment_date_of (v : json) : json :=
  match get v "judgment_date" with Ok d => d | Raise _ => JNull end.

Definition is_text (v : json) : bool :=
  match v with JStr _ => true | _ => false end.

(** The data model's [facts]: a sequence of texts (or no field at all). *)
Definition facts_are_texts (v : json) : bool :=
  match facts_of v with
  | JArr items => forallb is_text items
  | _ => false
  end.

(** The output entries one input line gives rise to. *)
Definition entries_for (line : string) : list AgeExtractor.entry :=
  match json_loads line with
  | Some v =>
      if eligible v then
        match key_fields v,
              AgeExtractor.extract_birth_year (facts_of v),
              AgeExtractor.extract_direct_age (facts_of v) with
        | Some (a, b), Ok birth, Ok direct =>
            [ {| AgeExtractor.entry_case_id := a;
                 AgeExtractor.entry_case_no := b;
                 AgeExtractor.entry_age_info :=
                   AgeExtractor.make_age_info birth direct
                     (judgment_date_of v) |} ]
        | _, _, _ => []
        end
      else []
  | None => []
  end.

(** One turn of the extraction loop, handler included. *)
Definition process_step (n : nat) (line : string)
    (st : AgeExtractor.extract_state) : AgeExtractor.extract_state :=
  snd (try_except (AgeExtractor.process_line n line)
                  (AgeExtractor.process_handler n) st).

(** The records of a file: its lines that parse. *)
Definition records (input : list string) : list json :=
  flat_map (fun line => match json_loads line with
                        | Some v => [v]
                        | None => []
                        end) input.

(** An output entry that belongs to a record: it carries the record's
    [case_id] and [case_no], and the age information extracted from its
    facts and judgment date. *)
Definition entry_of (v : json) (e : AgeExtractor.entry) : Prop :=
  key_fields v
  = Some (AgeExtractor.entry_case_id e, AgeExtractor.entry_case_no e)
  /\ exists birth direct,
       AgeExtractor.extract_birth_year (facts_of v) = Ok birth
       /\ AgeExtractor.extract_direct_age (facts_of v) = Ok direct
       /\ AgeExtractor.entry_age_info e
          = AgeExtractor.make_age_info birth direct (judgment_date_of v).

End WithLibs.

Section SplitterWords.
Context `{JsonLib}.

(** Line [k] of the source is a record with a [case_id]. *)
Definition record_at (lines : list string) (k : nat) : Prop :=
  exists line v c,
    nth_error lines k = Some line /\ json_loads line = Some v
    /\ getitem v "case_id" = Ok c.

(** Chunk [i] (counted from 0) of a partition into [n] chunks of [per_file]
    lines, the last one taking all that is left. *)
Definition chunk (lines : list string) (n per_file i : nat) : list string :=
  if (i =? n - 1)%nat then skipn (i * per_file) lines
  else firstn per_file (skipn (i * per_file) lines).

(** The files a split into [n] chunks writes, in order. *)
Definition chunk_files (lines : list string) (n : nat)
  : list (string * list string) :=
  map (fun i => (Splitter.chunk_name (Z.of_nat i),
                 chunk lines n (length lines / n) i))
      (seq 0 n).

End SplitterWords.

(** Names in strictly ascending order, each below the next. *)
Fixpoint ascending (names : list string) : bool :=
  match names with
  | a :: (b :: _) as rest => String.ltb a b && ascending rest
  | _ => true
  end.

(** No name occurs twice. *)
Fixpoint distinct (names : list string) : bool :=
  match names with
  | [] => true
  | a :: rest => negb (existsb (String.eqb a) rest) && distinct rest
  end.

(** How often an identifier occurs in a list, up to Python's [==]. *)
Definition occurrences (x : json) (ids : list json) : nat :=
  length (filter (fun y => key_eqb y x) ids).

(** The count a [Counter] holds for an identifier. *)
Definition counter_get (x : json) (c : list (json * nat)) : nat :=
  match find (fun p => key_eqb (fst p) x) c with
  | Some p => snd p
  | None => 0
  end.

(** The four hard checks, as conditions on the two lists of identifiers. *)
Definition hard_checks (original split : list json) : bool :=
  (length original =? length split)%nat
  && Validator.is_empty
       (filter (fun p => (1 <? snd p)%nat) (Validator.counter_of split))
  && forallb (fun x => Validator.mem x split) original
  && forallb (fun x => Validator.mem x original) split.

Section ValidatorWords.
Context `{JsonLib}.



End ValidatorWords.

Section LoaderWords.
Context `{JsonLib}.

(** A line of a result file that loads: a record with both key fields,
    usable as a composite key, and the payload stored for it. *)
Definition load_entry (line : string) : option (Merger.key * json) :=
  match json_loads line with
  | Some v =>
      match key_fields v, get_default v "classification" (JObj []) with
      | Some (a, b), Ok c =>
          if truthy a && truthy b && Merger.key_hashable (a, b)
          then Some ((a, b), c) else None
      | _, _ => None
      end
  | None => None
  end.

(** One occurrence of a composite key: the key, its payload, and the file
    and line it stands on. *)
Record occurrence : Type := {
  occ_key : Merger.key;
  occ_payload : json;
  occ_file : string;
  occ_line : nat
}.

Definition line_occurrence (file : string) (nl : nat * string)
  : list occurrence :=
  match load_entry (snd nl) with
  | Some (k, c) =>
      [ {| occ_key := k; occ_payload := c; occ_file := file;
           occ_line := fst nl |} ]
  | None => []
  end.

(** The occurrences in one file, lines in file order, numbered from 1. *)
Definition file_occurrences (f : string * list string) : list occurrence :=
  flat_map (line_occurrence (fst f)) (numbered 1 (snd f)).

(** The occurrences in a sequence of files, files in the order given. *)
Definition occurrences_of (files : list (string * list string))
  : list occurrence :=
  flat_map file_occurrences files.

(** What the loader prints for a line that does not load. *)
Definition load_events (file : string) (nl : nat * string)
  : list Merger.load_event :=
  match json_loads (snd nl) with
  | None => [Merger.LoadJsonError file (fst nl)]
  | Some v =>
      match key_fields v, get_default v "classification" (JObj []) with
      | Some (a, b), Ok c =>
          if negb (truthy a) || negb (truthy b)
          then [Merger.LoadMissingKey file (fst nl)]
          else if Merger.key_hashable (a, b) then []
          else [Merger.LoadError file (fst nl)]
      | _, _ => [Merger.LoadError file (fst nl)]
      end
  end.

(** One turn of the load loop, handler included, and the state after a
    sequence of files. *)
Definition load_step (file : string) (n : nat) (line : string)
    (st : Merger.load_state) : Merger.load_state :=
  snd (try_except (Merger.load_line file n line)
                  (Merger.load_handler file n) st).

Definition load_files_state (files : list (string * list string))
    (st : Merger.load_state) : Merger.load_state :=
  fold_left (fun st f => steps (load_step (fst f)) 1 (snd f) st) files st.

(** The key and payload a line contributes to the mapping, if it loads. *)
Definition line_entries `{JsonLib} (lines : list string)
  : list (Merger.key * json) :=
  flat_map (fun line => match load_entry line with
                        | Some e => [e]
                        | None => []
                        end) lines.

End LoaderWords.

Definition duplicate_of (o : occurrence) : Merger.duplicate :=
  {| Merger.dup_case_id := fst (occ_key o);
     Merger.dup_case_no := snd (occ_key o);
     Merger.dup_file := occ_file o;
     Merger.dup_line := occ_line o |}.

(** The re-occurrences: every occurrence whose key equals the key of an
    earlier one ([seen] holds the keys met so far), as duplicate records. *)
Fixpoint reoccurrences (seen : list Merger.key) (occ : list occurrence)
  : list Merger.duplicate :=
  match occ with
  | [] => []
  | o :: rest =>
      (if existsb (fun k => Merger.key_eq k (occ_key o)) seen
       then [duplicate_of o] else [])
      ++ reoccurrences (occ_key o :: seen) rest
  end.

(** The payload of the last occurrence of a key. *)
Definition newer_payload (k : Merger.key) (acc : option json)
    (o : occurrence) : option json :=
  if Merger.key_eq (occ_key o) k then Some (occ_payload o) else acc.

Definition last_payload (k : Merger.key) (occ : list occurrence)
  : option json :=
  fold_left (newer_payload k) occ None.

(** What one occurrence does to the mapping and to the duplicates. *)
Definition apply_occurrence (cd : Merger.cdict * list Merger.duplicate)
    (o : occurrence) : Merger.cdict * list Merger.duplicate :=
  (Merger.cdict_set (occ_key o) (occ_payload o) (fst cd),
   snd cd ++ (if Merger.cdict_mem (occ_key o) (fst cd)
              then [duplicate_of o] else [])).

Definition store_entry (d : Merger.cdict) (e : Merger.key * json)
  : Merger.cdict :=
  Merger.cdict_set (fst e) (snd e) d.

(** Python's [==] on hashable values is equality after reading [True] and
    [False] as 1 and 0. *)
Definition key_code (v : json) : option (nat * Z * string) :=
  match v with
  | JNull => Some (0, 0%Z, "")
  | JBool b => Some (1, if b then 1%Z else 0%Z, "")
  | JInt z => Some (1, z, "")
  | JStr s => Some (2, 0%Z, s)
  | _ => None
  end.

(** The order of two files by their names. *)
Definition name_le {A} (name : A -> string) (x y : A) : Prop :=
  String.leb (name x) (name y) = true.

End Spec.
Import Spec.

(* ================================================================== *)
(** ** Sample files *)

Module Samples.

(** A dataset of four lines: a man born in 1975 and judged in 2010, a record
    of unknown gender, a malformed line, and a woman whose facts state no
    age. *)
Definition sample_dataset : list string :=
  [ Ref.js "{'case_id': 'A', 'case_no': '1', 'classification': {'gender': 'Male', 'confidence': 'High'}, 'facts': ['The applicant was born in 1975 and educated locally.'], 'judgment_date': '2010-06-01'}";
    Ref.js "{'case_id': 'B', 'case_no': '2', 'classification': {'gender': 'Unknown', 'confidence': 'N/A'}, 'facts': ['He was born in 1980.']}";
    "{not json";
    Ref.js "{'case_id': 'C', 'case_no': '3', 'classification': {'gender': 'Female', 'confidence': 'Medium'}, 'facts': ['The applicant lives abroad.']}" ].

Definition five_records : list string :=
  map (fun id => Ref.js ("{'case_id': '" ++ id ++ "', 'case_no': '1'}"))
      ["a"; "b"; "c"; "d"; "e"].

(** A source of 100 records, numbered 1 to 100. *)
Definition hundred_records : list string :=
  map (fun i => Ref.js ("{'case_id': '" ++ Splitter.decimal (Z.of_nat i)
                        ++ "'}"))
      (seq 1 100).

(** One case in two parts: the same [case_id] under two [case_no]. *)
Definition two_part_case : list string :=
  [ Ref.js "{'case_id': 'X', 'case_no': '1'}";
    Ref.js "{'case_id': 'X', 'case_no': '2'}" ].

(** A results directory: two result files, listed out of order, and a file
    that is not a result file. *)
Definition two_result_files : list (string * list string) :=
  [ ("gender_classifications_results_02.jsonl",
     [ Ref.js "{'case_id': 'A', 'case_no': '1', 'classification': {'gender': 'Male', 'confidence': 'High'}}" ]);
    ("gender_classifications_results_01.jsonl",
     [ Ref.js "{'case_id': 'A', 'case_no': '1', 'classification': {'gender': 'Female', 'confidence': 'Low'}}";
       "oops";
       Ref.js "{'case_id': 'B', 'case_no': '7', 'classification': {'gender': 'Unknown', 'confidence': 'N/A'}}" ]);
    ("notes.txt", ["not a result file"]) ].

End Samples.
Import Samples.

(* ================================================================== *)
(** ** Values the reports print *)

Module Report.

(** [a / b] on two integers: [ZeroDivisionError] when [b] is 0.  The pair
    stands for the quotient, which the scripts only format. *)
Definition truediv (a b : Z) : result (Z * Z) :=
  if (b =? 0)%Z then Raise ZeroDivisionError else Ok (a, b).

(** [count / total * 100] on two counters. *)
Definition percent (count total : nat) : result (Z * Z) :=
  truediv (Z.of_nat count) (Z.of_nat total).

(** [enumerate(items, 1)]. *)
Definition enumerate {A : Type} (items : list A) : list (nat * A) :=
  combine (seq 1 (length items)) items.

(** [f.write(line)] and [print(line)] into the lines written so far. *)
Definition emit {L : Type} (line : L) : M (list L) unit :=
  modify (fun out => out ++ [line]).

Definition emit_if {L : Type} (c : bool) (line : L) : M (list L) unit :=
  if c then emit line else ret tt.

End Report.
Import Report.

(* ================================================================== *)
(** ** Classification Merger: the validation report and [main] *)

(** [sorted(keys)] on a set of composite keys: [TypeError] when the sort
    compares two keys that Python does not order, a string and a number for
    one. *)
Class SortLib : Type := {
  py_sorted : list Merger.key -> result (list Merger.key)
}.

Module MergerMain.

(** The lines of the report file that carry a value.  Each constructor
    stands for the line of text written with the values it holds; the
    banners and fixed headings are left out. *)
Inductive report_line : Type :=
| TotalCases (total_cases : nat)
| Merged (merged_count : nat)
| WithoutClassification (count : nat)
| SuccessRate (rate : option (Z * Z))
| DuplicateCount (count : nat)
| DuplicateWarning
| DuplicateItem (i : nat) (dup : Merger.duplicate)
| DuplicateMore (count : nat)
| NoDuplicates
| UnmatchedCount (count : nat)
| UnmatchedWarning
| UnmatchedItem (i : nat) (missing : Merger.unmatched)
| UnmatchedMore (count : nat)
| AllMatched
| OrphanedCount (count : nat)
| OrphanedWarning
| OrphanedItem (i : nat) (case_id case_no : json)
| OrphanedMore (count : nat)
| NoOrphans
| PerfectMerge (merged_count : nat)
| WithIssues
| IssueUnmatched (count : nat)
| IssueDuplicates (count : nat)
| IssueOrphaned (count : nat).

(** What [main] prints after the report (lines 280-299). *)
Inductive summary_line : Type :=
| SummaryTotal (total_cases : nat)
| SummaryMerged (merged_count : nat) (rate : Z * Z)
| SummaryMissing (count : nat)
| Success
| Warning
| WarnUnmatched (count : nat)
| WarnDuplicates (count : nat)
| WarnOrphaned (count : nat).

(** The three lists are empty: the test of lines 227-229 and of line 288. *)
Definition no_issues (no_classification_found : list Merger.unmatched)
    (duplicates : list Merger.duplicate)
    (orphaned_classifications : list Merger.key) : bool :=
  (length no_classification_found =? 0)%nat
  && (length duplicates =? 0)%nat
  && (length orphaned_classifications =? 0)%nat.

Section WithSort.
Context `{SortLib}.

(** [generate_validation_report]: the state is the report file, which
    keeps what was written when an exception ends the function. *)
Definition generate_validation_report (merged_count total_cases : nat)
    (no_classification_found : list Merger.unmatched)
    (duplicates : list Merger.duplicate)
    (orphaned_classifications : list Merger.key)
  : M (list report_line) unit :=
  (emit (TotalCases total_cases) ;;;
   emit (Merged merged_count) ;;;
   emit (WithoutClassification (length no_classification_found)) ;;;
   (if (0 <? total_cases)%nat then
      rate <- lift (percent merged_count total_cases) ;;
      emit (SuccessRate (Some rate))
    else emit (SuccessRate None)) ;;;
   emit (DuplicateCount (length duplicates)) ;;;
   (match duplicates with
    | _ :: _ =>
        emit DuplicateWarning ;;;
        for_each (enumerate (firstn 10 duplicates))
          (fun p => emit (DuplicateItem (fst p) (snd p))) ;;;
        emit_if (10 <? length duplicates)%nat
          (DuplicateMore (length duplicates - 10))
    | [] => emit NoDuplicates
    end) ;;;
   emit (UnmatchedCount (length no_classification_found)) ;;;
   (match no_classification_found with
    | _ :: _ =>
        emit UnmatchedWarning ;;;
        for_each (enumerate (firstn 20 no_classification_found))
          (fun p => emit (UnmatchedItem (fst p) (snd p))) ;;;
        emit_if (20 <? length no_classification_found)%nat
          (UnmatchedMore (length no_classification_found - 20))
    | [] => emit AllMatched
    end) ;;;
   emit (OrphanedCount (length orphaned_classifications)) ;;;
   (match orphaned_classifications with
    | _ :: _ =>
        emit OrphanedWarning ;;;
        in_order <- lift (py_sorted orphaned_classifications) ;;
        for_each (enumerate (firstn 20 in_order))
          (fun p => emit (OrphanedItem (fst p) (fst (snd p)) (snd (snd p)))) ;;;
        emit_if (20 <? length orphaned_classifications)%nat
          (OrphanedMore (length orphaned_classifications - 20))
    | [] => emit NoOrphans
    end) ;;;
   (if no_issues no_classification_found duplicates orphaned_classifications
    then emit (PerfectMerge merged_count)
    else
      emit WithIssues ;;;
      emit_if (0 <? length no_classification_found)%nat
        (IssueUnmatched (length no_classification_found)) ;;;
      emit_if (0 <? length duplicates)%nat
        (IssueDuplicates (length duplicates)) ;;;
      emit_if (0 <? length orphaned_classifications)%nat
        (IssueOrphaned (length orphaned_classifications))))%eff.

(** The final summary of [main] (lines 280-299). *)
Definition final_summary (merged_count total_cases : nat)
    (no_classification_found : list Merger.unmatched)
    (duplicates : list Merger.duplicate)
    (orphaned_classifications : list Merger.key)
  : M (list summary_line) unit :=
  (emit (SummaryTotal total_cases) ;;;
   rate <- lift (percent merged_count total_cases) ;;
   emit (SummaryMerged merged_count rate) ;;;
   emit (SummaryMissing (length no_classification_found)) ;;;
   (if no_issues no_classification_found duplicates orphaned_classifications
    then emit Success
    else
      emit Warning ;;;
      emit_if (0 <? length no_classification_found)%nat
        (WarnUnmatched (length no_classification_found)) ;;;
      emit_if (0 <? length duplicates)%nat
        (WarnDuplicates (length duplicates)) ;;;
      emit_if (0 <? length orphaned_classifications)%nat
        (WarnOrphaned (length orphaned_classifications))))%eff.

(** What a run of [main] leaves: the states of the load and merge phases
    (the second holds the output file), the orphaned keys, the report file
    and the summary printed. *)
Record run : Type := {
  loaded : Merger.load_state;
  merged : Merger.merge_state;
  orphaned : list Merger.key;
  report_file : list report_line;
  summary : list summary_line
}.

Context `{JsonLib}.

(** [main()], on the results directory and the train file.  An exception
    of a step ends the run there. *)
Definition main (results_dir : list (string * list string))
    (train_file : list string) : result unit * run :=
  let (step1, ld) := Merger.load_classifications results_dir in
  let classifications := Merger.classifications ld in
  let duplicates := Merger.duplicates ld in
  match step1 with
  | Raise e =>
      (Raise e,
       {| loaded := ld; merged := Merger.merge_init; orphaned := [];
          report_file := []; summary := [] |})
  | Ok _ =>
      let (step2, mg) := Merger.merge_with_train train_file classifications in
      match step2 with
      | Raise e =>
          (Raise e,
           {| loaded := ld; merged := mg; orphaned := [];
              report_file := []; summary := [] |})
      | Ok _ =>
          let orphaned_classifications :=
            Merger.check_classifications_not_in_train train_file
              classifications in
          let (step4, report) :=
            generate_validation_report (Merger.merged_count mg)
              (Merger.total_cases mg) (Merger.no_classification_found mg)
              duplicates orphaned_classifications [] in
          match step4 with
          | Raise e =>
              (Raise e,
               {| loaded := ld; merged := mg;
                  orphaned := orphaned_classifications;
                  report_file := report; summary := [] |})
          | Ok _ =>
              let (last, printed) :=
                final_summary (Merger.merged_count mg) (Merger.total_cases mg)
                  (Merger.no_classification_found mg) duplicates
                  orphaned_classifications [] in
              (last,
               {| loaded := ld; merged := mg;
                  orphaned := orphaned_classifications;
                  report_file := report; summary := printed |})
          end
      end
  end.

End WithSort.

End MergerMain.

(* ================================================================== *)
(** ** Age Extractor: the statistics, the report and [main] *)

Module ExtractorMain.

(** [stats[name]].  The dictionary holds every name of [stats_init] from
    the start and [+=] keeps them, so the lookup never raises. *)
Definition stat (name : string) (stats : list (string * nat)) : nat :=
  match find (fun p => (fst p =? name)) stats with
  | Some p => snd p
  | None => 0
  end.

(** [sorted(age_distribution.keys(), key=lambda x: int(x[:-1]))]: the
    decades in ascending order.  The keys of a [Counter] differ from each
    other, so the order is determined. *)
Fixpoint insert_decade (d : Z * nat) (l : list (Z * nat)) : list (Z * nat) :=
  match l with
  | [] => [d]
  | x :: rest =>
      if (fst d <=? fst x)%Z then d :: l else x :: insert_decade d rest
  end.

Fixpoint sorted_decades (l : list (Z * nat)) : list (Z * nat) :=
  match l with
  | [] => []
  | d :: rest => insert_decade d (sorted_decades rest)
  end.

(** The lines [print_statistics] prints that carry a value. *)
Inductive stat_line : Type :=
| Processed (total : nat)
| Share (label : string) (count : Z) (pct : Z * Z)
| DecadeShare (decade : Z) (count : nat) (pct : Z * Z).

(** The lines of the summary report that carry a value. *)
Inductive report_line : Type :=
| ReportTotal (total : nat)
| ReportMale (count : nat)
| ReportFemale (count : nat)
| ReportWithAge (count : nat)
| ReportWithAgePct (pct : Z * Z)
| ReportBirthYears (count : nat)
| ReportDirectAges (count : nat)
| ReportCalculated (count : nat)
| ReportWithoutAge (count : Z)
| ReportWithoutAgePct (pct : Z * Z)
| ReportDecade (decade : Z) (count : nat) (pct : Z * Z).

(** What [main] prints after the report (lines 299-319). *)
Inductive closing_line : Type :=
| Sample (i : nat) (sample : AgeExtractor.entry)
| TotalEntries (count : nat)
| EntriesWithAge (count : nat) (pct : Z * Z).

(** One line of [print_statistics]: a count and its share of the cases
    processed. *)
Definition share (label : string) (count : Z) (total : nat)
  : M (list stat_line) unit :=
  (pct <- lift (truediv count (Z.of_nat total)) ;;
   emit (Share label count pct))%eff.

(** [print_statistics(stats)]: [stats] and its [age_distribution] are the
    two fields of the state [process_dataset] ends in. *)
Definition print_statistics (st : AgeExtractor.extract_state)
  : M (list stat_line) unit :=
  let stats := AgeExtractor.stats st in
  let total := stat "total_processed" stats in
  let count name := Z.of_nat (stat name stats) in
  (emit (Processed total) ;;;
   share "Male" (count "male_cases") total ;;;
   share "Female" (count "female_cases") total ;;;
   share "High Confidence" (count "high_confidence") total ;;;
   share "Medium Confidence" (count "medium_confidence") total ;;;
   share "Birth years found" (count "birth_years_found") total ;;;
   share "Direct ages found" (count "direct_ages_found") total ;;;
   share "Ages calculated from birth year" (count "calculated_ages") total ;;;
   share "TOTAL WITH AGE INFO" (count "total_with_age") total ;;;
   share "Cases without age"
     (count "total_processed" - count "total_with_age")%Z total ;;;
   for_each (sorted_decades (AgeExtractor.age_distribution st))
     (fun d =>
        pct <- lift (percent (snd d) total) ;;
        emit (DecadeShare (fst d) (snd d) pct)))%eff.

(** [generate_summary_report(output_file, stats)]: the state is the report
    file. *)
Definition generate_summary_report (st : AgeExtractor.extract_state)
  : M (list report_line) unit :=
  let stats := AgeExtractor.stats st in
  let total := stat "total_processed" stats in
  let without :=
    (Z.of_nat total - Z.of_nat (stat "total_with_age" stats))%Z in
  (emit (ReportTotal total) ;;;
   emit (ReportMale (stat "male_cases" stats)) ;;;
   emit (ReportFemale (stat "female_cases" stats)) ;;;
   emit (ReportWithAge (stat "total_with_age" stats)) ;;;
   with_age_pct <- lift (percent (stat "total_with_age" stats) total) ;;
   emit (ReportWithAgePct with_age_pct) ;;;
   emit (ReportBirthYears (stat "birth_years_found" stats)) ;;;
   emit (ReportDirectAges (stat "direct_ages_found" stats)) ;;;
   emit (ReportCalculated (stat "calculated_ages" stats)) ;;;
   emit (ReportWithoutAge without) ;;;
   without_pct <- lift (truediv without (Z.of_nat total)) ;;
   emit (ReportWithoutAgePct without_pct) ;;;
   for_each (sorted_decades (AgeExtractor.age_distribution st))
     (fun d =>
        pct <- lift (percent (snd d) total) ;;
        emit (ReportDecade (fst d) (snd d) pct)))%eff.

(** [r['age_info']['age_at_judgment'] is not None]. *)
Definition has_age (r : AgeExtractor.entry) : bool :=
  match AgeExtractor.age_at_judgment (AgeExtractor.entry_age_info r) with
  | Some _ => true
  | None => false
  end.

(** The samples and the closing lines of [main] (lines 299-319). *)
Definition closing_lines (st : AgeExtractor.extract_state)
  : M (list closing_line) unit :=
  let results := AgeExtractor.results st in
  let samples := firstn 15 (filter has_age results) in
  let with_age := stat "total_with_age" (AgeExtractor.stats st) in
  (for_each (enumerate samples) (fun p => emit (Sample (fst p) (snd p))) ;;;
   emit (TotalEntries (length results)) ;;;
   pct <- lift (percent with_age (length results)) ;;
   emit (EntriesWithAge with_age pct))%eff.

(** What a run of [main] leaves: the state of [process_dataset] (its
    [results] are the output file), the statistics printed, the report file
    if it was opened, and the closing lines printed. *)
Record run : Type := {
  processed : AgeExtractor.extract_state;
  printed : list stat_line;
  report_file : option (list report_line);
  closing : list closing_line
}.

Section WithLibs.
Context `{JsonLib} `{ReLib} `{DateLib}.

(** [main()], on the input file. *)
Definition main (input_file : list string) : result unit * run :=
  let (step1, st) := AgeExtractor.process_dataset input_file in
  match step1 with
  | Raise e =>
      (Raise e,
       {| processed := st; printed := []; report_file := None;
          closing := [] |})
  | Ok _ =>
      let (step2, shown) := print_statistics st [] in
      match step2 with
      | Raise e =>
          (Raise e,
           {| processed := st; printed := shown; report_file := None;
              closing := [] |})
      | Ok _ =>
          let (step3, report) := generate_summary_report st [] in
          match step3 with
          | Raise e =>
              (Raise e,
               {| processed := st; printed := shown;
                  report_file := Some report; closing := [] |})
          | Ok _ =>
              let (last, said) := closing_lines st [] in
              (last,
               {| processed := st; printed := shown;
                  report_file := Some report; closing := said |})
          end
      end
  end.

End WithLibs.

End ExtractorMain.

(* ================================================================== *)
(** ** Classification statistics ([analyze_classification_stats.py]) *)

Module Analyzer.

(** The counters of one category and the table of the categories, both
    dicts with string keys, in insertion order. *)
Definition counters : Type := list (string * nat).
Definition table : Type := list (string * counters).

Definition categories : list string :=
  [ "Male"; "Female"; "Unknown"; "Multiple Applicants";
    "Needs Manual Classification" ].

Definition classifications_init : table :=
  [ ("Male",
     [("total", 0); ("High", 0); ("Medium", 0); ("Low", 0); ("N/A", 0)]);
    ("Female",
     [("total", 0); ("High", 0); ("Medium", 0); ("Low", 0); ("N/A", 0)]);
    ("Unknown",
     [("total", 0); ("High", 0); ("Medium", 0); ("Low", 0); ("N/A", 0)]);
    ("Multiple Applicants",
     [("total", 0); ("High", 0); ("Medium", 0); ("Low", 0); ("N/A", 0)]);
    ("Needs Manual Classification",
     [("total", 0); ("High", 0); ("Medium", 0); ("Low", 0); ("N/A", 0)]) ].

(** [key in d] on a dict with string keys: the key is hashed first, and
    only a string can equal one of the keys.  The result names the key
    found. *)
Definition dict_key {A : Type} (d : list (string * A)) (key : json)
  : result (option string) :=
  if hashable key then
    Ok (match key with
        | JStr s => if existsb (fun p => (fst p =? s)) d then Some s else None
        | _ => None
        end)
  else Raise TypeError.

(** [classifications[category]]. *)
Definition counters_of (category : string) (t : table) : counters :=
  match find (fun p => (fst p =? category)) t with
  | Some p => snd p
  | None => []
  end.

(** [classifications[category][name]]. *)
Definition cell (category name : string) (t : table) : nat :=
  match find (fun p => (fst p =? name)) (counters_of category t) with
  | Some p => snd p
  | None => 0
  end.

(** [d[name] += 1] on a dict that holds [name]; every call is guarded by
    [in] or names a key of the literal. *)
Fixpoint incr (name : string) (d : counters) : counters :=
  match d with
  | [] => []
  | (k, n) :: rest =>
      if (k =? name) then (k, S n) :: rest else (k, n) :: incr name rest
  end.

(** [classifications[category][name] += 1]. *)
Fixpoint incr_cell (category name : string) (t : table) : table :=
  match t with
  | [] => []
  | (c, d) :: rest =>
      if (c =? category) then (c, incr name d) :: rest
      else (c, d) :: incr_cell category name rest
  end.

Inductive analyze_event : Type :=
| AnalyzeJsonError (line_num : nat)
| AnalyzeError (line_num : nat).

Record analyze_state : Type := {
  classifications : table;
  total_cases : nat;
  analyze_log : list analyze_event
}.

Definition analyze_init : analyze_state :=
  {| classifications := classifications_init; total_cases := 0;
     analyze_log := [] |}.

Definition count_cell (category name : string) : M analyze_state unit :=
  modify (fun st =>
    {| classifications := incr_cell category name (classifications st);
       total_cases := total_cases st; analyze_log := analyze_log st |}).

Definition count_case : M analyze_state unit :=
  modify (fun st =>
    {| classifications := classifications st;
       total_cases := S (total_cases st); analyze_log := analyze_log st |}).

Definition analyze_print (ev : analyze_event) : M analyze_state unit :=
  modify (fun st =>
    {| classifications := classifications st; total_cases := total_cases st;
       analyze_log := analyze_log st ++ [ev] |}).

(** [gender in classifications]. *)
Definition known_category (gender : json) : M analyze_state (option string) :=
  fun st => (dict_key (classifications st) gender, st).

(** [confidence in classifications[gender]]. *)
Definition known_level (category : string) (confidence : json)
  : M analyze_state (option string) :=
  fun st =>
    (dict_key (counters_of category (classifications st)) confidence, st).

(** The lines printed after the loop that carry a value. *)
Inductive stat_line : Type :=
| Processed (total_cases : nat)
| CategoryHeader (category : string)
| CategoryTotal (category : string) (total : nat) (pct : Z * Z)
| LevelShare (category level : string) (count : nat) (pct : Z * Z)
| TableRow (category : string) (total : nat) (pct_all : option (Z * Z))
    (high medium : nat)
| TableTotal (total_cases : nat)
| LevelRow (category : string) (high_pct medium_pct : Z * Z)
| Insight (label : string) (count : nat) (pct : Z * Z)
| MaleFemaleRatio (ratio : option (Z * Z))
| HighConfidenceGendered (share : option (nat * (Z * Z))).

(** One confidence line of the detailed statistics (lines 82-89). *)
Definition level_share (category level : string) (t : table)
  : M (list stat_line) unit :=
  if (0 <? cell category level t)%nat then
    (pct <- lift (percent (cell category level t) (cell category "total" t)) ;;
     emit (LevelShare category level (cell category level t) pct))%eff
  else ret tt.

(** The body of the loop of lines 71-89. *)
Definition category_details (t : table) (total_cases : nat)
    (category : string) : M (list stat_line) unit :=
  let total := cell category "total" t in
  if (total =? 0)%nat then ret tt
  else
    (emit (CategoryHeader category) ;;;
     pct <- lift (percent total total_cases) ;;
     emit (CategoryTotal category total pct) ;;;
     level_share category "High" t ;;;
     level_share category "Medium" t ;;;
     level_share category "Low" t ;;;
     level_share category "N/A" t)%eff.

(** The body of the loop of lines 98-105. *)
Definition table_row (t : table) (total_cases : nat) (category : string)
  : M (list stat_line) unit :=
  let total := cell category "total" t in
  (pct_all <-
     (if (0 <? total_cases)%nat then
        pct <- lift (percent total total_cases) ;; ret (Some pct)
      else ret None) ;;
   emit (TableRow category total pct_all (cell category "High" t)
           (cell category "Medium" t)))%eff.

(** The body of the loop of lines 117-124. *)
Definition level_row (t : table) (category : string)
  : M (list stat_line) unit :=
  let total := cell category "total" t in
  if (0 <? total)%nat then
    (high_pct <- lift (percent (cell category "High" t) total) ;;
     medium_pct <- lift (percent (cell category "Medium" t) total) ;;
     emit (LevelRow category high_pct medium_pct))%eff
  else ret tt.

(** One line of the key insights: a count and its share of all cases. *)
Definition insight (label : string) (count total_cases : nat)
  : M (list stat_line) unit :=
  (pct <- lift (percent count total_cases) ;;
   emit (Insight label count pct))%eff.

(** The key insights (lines 131-156). *)
Definition key_insights (t : table) (total_cases : nat)
  : M (list stat_line) unit :=
  let male_total := cell "Male" "total" t in
  let female_total := cell "Female" "total" t in
  let unknown_total := cell "Unknown" "total" t in
  let multiple_total := cell "Multiple Applicants" "total" t in
  let needs_manual_total := cell "Needs Manual Classification" "total" t in
  let gendered_total := male_total + female_total in
  let high_confidence_gendered :=
    cell "Male" "High" t + cell "Female" "High" t in
  let uncertain := unknown_total + needs_manual_total in
  (insight "Male cases" male_total total_cases ;;;
   insight "Female cases" female_total total_cases ;;;
   (if (0 <? female_total)%nat then
      ratio <- lift (truediv (Z.of_nat male_total) (Z.of_nat female_total)) ;;
      emit (MaleFemaleRatio (Some ratio))
    else emit (MaleFemaleRatio None)) ;;;
   insight "Cases with clear gender" gendered_total total_cases ;;;
   (if (0 <? gendered_total)%nat then
      pct <- lift (percent high_confidence_gendered gendered_total) ;;
      emit (HighConfidenceGendered (Some (high_confidence_gendered, pct)))
    else emit (HighConfidenceGendered None)) ;;;
   insight "Unknown" unknown_total total_cases ;;;
   insight "Needs Manual Classification" needs_manual_total total_cases ;;;
   insight "Multiple Applicants" multiple_total total_cases ;;;
   insight "Clear single-gender cases" gendered_total total_cases ;;;
   insight "Uncertain/ambiguous cases" uncertain total_cases ;;;
   insight "Multiple applicant cases" multiple_total total_cases)%eff.

(** Everything printed after the loop (lines 62-158). *)
Definition print_statistics (t : table) (total_cases : nat)
  : M (list stat_line) unit :=
  (emit (Processed total_cases) ;;;
   for_each categories (category_details t total_cases) ;;;
   for_each categories (table_row t total_cases) ;;;
   emit (TableTotal total_cases) ;;;
   for_each categories (level_row t) ;;;
   key_insights t total_cases)%eff.

Section WithJson.
Context `{JsonLib}.

(** The body of the [try] (lines 37-53). *)
Definition analyze_line (line_num : nat) (line : string)
  : M analyze_state unit :=
  (parsed <- lift (loads line) ;;
   classification <- lift (get_default parsed "classification" (JObj [])) ;;
   gender <- lift (get_default classification "gender" (JStr "Unknown")) ;;
   confidence <- lift (get_default classification "confidence" (JStr "N/A")) ;;
   category <- known_category gender ;;
   (match category with
    | Some c =>
        count_cell c "total" ;;;
        level <- known_level c confidence ;;
        match level with
        | Some l => count_cell c l
        | None => count_cell c "N/A"
        end
    | None => ret tt
    end) ;;;
   count_case)%eff.

(** The two [except] clauses (lines 55-58). *)
Definition analyze_handler (line_num : nat) (e : exn)
  : M analyze_state unit :=
  match e with
  | JSONDecodeError => analyze_print (AnalyzeJsonError line_num)
  | _ => analyze_print (AnalyzeError line_num)
  end.

Definition analyze_file (f : string * list string) : M analyze_state unit :=
  for_lines 1 (snd f)
    (fun line_num line =>
       try_except (analyze_line line_num line) (analyze_handler line_num)).

(** The result files, as lines 20-23 list them. *)
Definition result_files (dir : list (string * list string))
  : list (string * list string) :=
  sorted_by fst
    (filter (fun f => startswith (fst f) "gender_classifications_results_"
                      && endswith (fst f) ".jsonl") dir).

(** [analyze_classification_files(results_dir)]: the value returned, the
    state the loop ends in, and the lines printed after it. *)
Definition analyze_classification_files (dir : list (string * list string))
  : result (table * nat) * (analyze_state * list stat_line) :=
  let (looped, st) := for_each (result_files dir) analyze_file analyze_init in
  match looped with
  | Raise e => (Raise e, (st, []))
  | Ok _ =>
      let (shown, out) :=
        print_statistics (classifications st) (total_cases st) [] in
      match shown with
      | Raise e => (Raise e, (st, out))
      | Ok _ => (Ok (classifications st, total_cases st), (st, out))
      end
  end.

End WithJson.

End Analyzer.

(* ================================================================== *)
(** ** A reference [sorted] for composite keys *)

Module RefSort.

Definition number (v : json) : option Z :=
  match v with
  | JInt z => Some z
  | JBool b => Some (if b then 1 else 0)%Z
  | _ => None
  end.

(** [a < b]: numbers and booleans by value, strings by character codes, and
    [TypeError] for every other pair. *)
Definition lt (a b : json) : result bool :=
  match a, b with
  | JStr x, JStr y => Ok (String.ltb x y)
  | _, _ =>
      match number a, number b with
      | Some x, Some y => Ok (x <? y)%Z
      | _, _ => Raise TypeError
      end
  end.

(** [a < b] on two tuples: the first components that differ decide. *)
Definition key_lt (a b : Merger.key) : result bool :=
  if key_eqb (fst a) (fst b) then
    if key_eqb (snd a) (snd b) then Ok false else lt (snd a) (snd b)
  else lt (fst a) (fst b).

Fixpoint insert (k : Merger.key) (l : list Merger.key)
  : result (list Merger.key) :=
  match l with
  | [] => Ok [k]
  | x :: rest =>
      match key_lt k x with
      | Raise e => Raise e
      | Ok true => Ok (k :: l)
      | Ok false =>
          match insert k rest with
          | Raise e => Raise e
          | Ok rest' => Ok (x :: rest')
          end
      end
  end.

Fixpoint ref_sorted (l : list Merger.key) : result (list Merger.key) :=
  match l with
  | [] => Ok []
  | k :: rest =>
      match ref_sorted rest with
      | Raise e => Raise e
      | Ok rest' => insert k rest'
      end
  end.

Definition ref_sort : SortLib := {| py_sorted := ref_sorted |}.

End RefSort.

(* ================================================================== *)
(** ** Vocabulary of the further statements *)

Module Words.

(** The chunks hold the source's identifiers and nothing else: as many
    identifiers, none twice in the chunks, every identifier of the source in
    the chunks and every identifier of the chunks in the source, all up to
    Python's [==]. *)
Definition lossless (original split : list json) : Prop :=
  length original = length split
  /\ (forall x, occurrences x split <= 1)
  /\ (forall x, In x original -> 1 <= occurrences x split)
  /\ (forall x, In x split -> 1 <= occurrences x original).

(** The report of a run in which every check passes. *)
Definition all_passed : list Validator.report_line :=
  [ Validator.CountPass; Validator.DuplicatesPass; Validator.MissingPass;
    Validator.ExtraPass; Validator.FirstPass; Validator.LastPass;
    Validator.AllPassed ].

(** [set(ids)] as the validator builds it. *)
Definition set_list (ids : list json) : list json :=
  fold_left (fun s x => Validator.set_add x s) ids [].

(** No two keys of the list are equal as Python tuples. *)
Fixpoint keys_apart (keys : list Merger.key) : bool :=
  match keys with
  | [] => true
  | k :: rest => negb (existsb (Merger.key_eq k) rest) && keys_apart rest
  end.

(** A key the scripts accept: both parts non-empty, and hashable. *)
Definition usable_key (k : Merger.key) : bool :=
  truthy (fst k) && truthy (snd k) && Merger.key_hashable k.


(** A computation that writes: it only adds lines to those written. *)
Definition appends {L A : Type} (m : M (list L) A) : Prop :=
  forall out, exists more, snd (m out) = out ++ more.

(** A computation that ends normally, whatever was written before. *)
Definition returns {L A : Type} (m : M (list L) A) : Prop :=
  forall out, exists a, fst (m out) = Ok a.

(** Entries by what they hold: an age that is set and not 0, a birth
    year, an age that came from the birth year. *)
Definition aged (e : AgeExtractor.entry) : bool :=
  AgeExtractor.truthy_int
    (AgeExtractor.age_at_judgment (AgeExtractor.entry_age_info e)).

Definition born (e : AgeExtractor.entry) : bool :=
  AgeExtractor.truthy_int
    (AgeExtractor.birth_year (AgeExtractor.entry_age_info e)).

Definition calculated (e : AgeExtractor.entry) : bool :=
  match AgeExtractor.age_source (AgeExtractor.entry_age_info e) with
  | Some s => (s =? "calculated")
  | None => false
  end.

(** [if c: stats[name] += 1], as a change of the dictionary. *)
Definition bump_when (c : bool) (name : string) (stats : list (string * nat))
  : list (string * nat) :=
  if c then AgeExtractor.bump_str name stats else stats.

Definition bump_decade_when (c : bool) (decade : Z) (dist : list (Z * nat))
  : list (Z * nat) :=
  if c then AgeExtractor.bump_decade decade dist else dist.

(** The decade an age is counted under. *)
Definition decade_of (final_age : option Z) : Z :=
  match final_age with
  | Some a => (a / 10 * 10)%Z
  | None => 0%Z
  end.

(** The statistics of the Age Extractor agree with each other and with the
    entries written. *)
Definition tally (st : AgeExtractor.extract_state) : Prop :=
  let count name := ExtractorMain.stat name (AgeExtractor.stats st) in
  let results := AgeExtractor.results st in
  count "male_cases" + count "female_cases" = count "total_processed"
  /\ count "high_confidence" + count "medium_confidence"
     = count "total_processed"
  /\ length results <= count "total_processed"
  /\ count "total_with_age" = length (filter aged results)
  /\ count "birth_years_found" = length (filter born results)
  /\ count "calculated_ages" = length (filter calculated results)
  /\ count "direct_ages_found" <= length results
  /\ list_sum (map snd (AgeExtractor.age_distribution st))
     = count "total_with_age".

(** The counters of a category, and the cases of a category counted
    under one of the four confidence levels. *)
Definition level_names : list string :=
  ["total"; "High"; "Medium"; "Low"; "N/A"].

Definition levels_sum (category : string) (t : Analyzer.table) : nat :=
  Analyzer.cell category "High" t + Analyzer.cell category "Medium" t
  + Analyzer.cell category "Low" t + Analyzer.cell category "N/A" t.

(** What an increment of the counter [name] adds to the levels and to the
    total of its category. *)
Definition level_gain (name : string) : nat :=
  if existsb (fun k => (k =? name)) level_names && negb (name =? "total")
  then 1 else 0.

Definition total_gain (name : string) : nat :=
  if (name =? "total") then 1 else 0.

(** The table has its five categories, each with its five counters. *)
Definition well_shaped (t : Analyzer.table) : Prop :=
  map fst t = Analyzer.categories
  /\ forall e, In e t -> map fst (snd e) = level_names.

(** The counters of the analysis agree with each other. *)
Definition counted (st : Analyzer.analyze_state) : Prop :=
  let t := Analyzer.classifications st in
  well_shaped t
  /\ (forall c, levels_sum c t <= Analyzer.cell c "total" t)
  /\ list_sum (map (fun c => levels_sum c t) Analyzer.categories)
     <= Analyzer.total_cases st.

(** A line the analysis counts as a case: a record whose classification
    is a record (or absent), whose gender can be looked up in the table and,
    when it names a category, whose confidence can be looked up too. *)
Definition countable `{JsonLib} (line : string) : bool :=
  match json_loads line with
  | Some v =>
      match get_default v "classification" (JObj []) with
      | Ok classification =>
          match get_default classification "gender" (JStr "Unknown"),
                get_default classification "confidence" (JStr "N/A") with
          | Ok gender, Ok confidence =>
              match Analyzer.dict_key Analyzer.classifications_init gender with
              | Ok (Some _) => hashable confidence
              | Ok None => true
              | Raise _ => false
              end
          | _, _ => false
          end
      | Raise _ => false
      end
  | None => false
  end.

(** The confidence the analysis reads from a line, and a line whose
    confidence is an ordinary one: a value that can be hashed and is not the
    name of the total. *)
Definition confidence_of `{JsonLib} (line : string) : option json :=
  match json_loads line with
  | Some v =>
      match get_default v "classification" (JObj []) with
      | Ok classification =>
          match get_default classification "confidence" (JStr "N/A") with
          | Ok confidence => Some confidence
          | Raise _ => None
          end
      | Raise _ => None
      end
  | None => None
  end.

Definition plain_confidence `{JsonLib} (line : string) : bool :=
  match confidence_of line with
  | Some confidence => hashable confidence && negb (is_str confidence "total")
  | None => true
  end.

(** Every total is the sum of its levels. *)
Definition exact_totals (st : Analyzer.analyze_state) : Prop :=
  forall c,
    Analyzer.cell c "total" (Analyzer.classifications st)
    = levels_sum c (Analyzer.classifications st).

(** One turn of the analysis loop, handler included. *)
Definition analyze_step `{JsonLib} (n : nat) (line : string)
    (st : Analyzer.analyze_state) : Analyzer.analyze_state :=
  snd (try_except (Analyzer.analyze_line n line)
                  (Analyzer.analyze_handler n) st).

(** An unmatched entry recorded for a key the mapping lacks. *)
Definition no_match (u : Merger.unmatched) : bool :=
  (Merger.um_reason u =? Merger.reason_no_match).

(** An eligible record on which both extractions return, so that the body
    of the loop reaches the line that appends its entry: in
    [extract_birth_year] and [extract_direct_age] the slice [facts[:10]],
    [len(fact)] and [pattern.findall(fact)] raise on a value of another
    type. *)
Definition extractable `{ReLib} (v : json) : bool :=
  eligible v
  && match AgeExtractor.extract_birth_year (facts_of v),
           AgeExtractor.extract_direct_age (facts_of v) with
     | Ok _, Ok _ => true
     | _, _ => false
     end.

(** The output directory after a run of the splitter that found the files
    [before] in it: [os.makedirs(output_dir, exist_ok=True)] keeps what is
    there, and each chunk written replaces the file of its name or adds a
    new one. *)
Definition directory_after (before writes : list (string * list string))
  : list (string * list string) :=
  fold_left (fun dir w => Splitter.put_file (fst w) (snd w) dir) writes before.

Section WithJson.
Context `{JsonLib}.

(** A line that [json.loads] accepts. *)
Definition parses (line : string) : bool :=
  match json_loads line with Some _ => true | None => false end.

(** The train lines that carry a key of the mapping. *)
Definition hits (train : list string) (cls : Merger.cdict)
  : list Merger.key :=
  filter (fun k => Merger.cdict_mem k cls) (Merger.train_keys train).

End WithJson.

End Words.
Import Words.

(* ================================================================== *)
(** ** Proof tactics *)

Ltac eff_unfold :=
  unfold try_except, bind, lift, ret, raise, modify, gets in *.

(** Name the values a body reads from a record and forget how they were
    looked up. *)
Ltac name_fields :=
  repeat match goal with
  | |- context [match lookup ?k ?f with Some v => v | None => ?d end] =>
      let x := fresh "field" in
      set (x := match lookup k f with Some v => v | None => d end) in *;
      clearbody x
  end.

(** Case analysis of one turn of each loop, along the branches of its
    body. *)
Ltac merge_cases line :=
  unfold merge_step, Merger.merge_line, Merger.merge_handler, loads,
    written_for, unmatched_for, has_key, lacks_key, merged_record,
    key_fields;
  eff_unfold; cbn [fst snd];
  destruct (json_loads line) as [[ | | | | |fields]|]; simpl;
  try reflexivity; try (now rewrite app_nil_r);
  name_fields;
  match goal with
  | |- context [Merger.cdict_get (?a, ?b) ?cls] =>
      destruct (truthy a); simpl;
      [destruct (truthy b); simpl;
       [destruct (Merger.key_hashable (a, b)); simpl;
        [destruct (Merger.cdict_get (a, b) cls); simpl|]|]|]
  end;
  try reflexivity; try (now rewrite app_nil_r).

Ltac process_cases line :=
  unfold process_step, AgeExtractor.process_line,
    AgeExtractor.process_handler, loads, entries_for, eligible, key_fields,
    facts_of, judgment_date_of;
  eff_unfold; cbn [fst snd];
  destruct (json_loads line) as [[ | | | | |fields]|]; simpl;
  try reflexivity; try (now rewrite app_nil_r);
  name_fields;
  match goal with
  | |- context [get ?c "gender"] =>
      destruct c as [ | | | | |cfields]; simpl;
      try reflexivity; try (now rewrite app_nil_r)
  end;
  name_fields;
  repeat match goal with
  | |- context [is_str ?a ?s] =>
      destruct (is_str a s); simpl;
      try reflexivity; try (now rewrite app_nil_r)
  end;
  match goal with
  | |- context [AgeExtractor.extract_birth_year ?f] =>
      destruct (AgeExtractor.extract_birth_year f) as [birth|[]]; simpl;
      try reflexivity; try (now rewrite app_nil_r);
      destruct (AgeExtractor.extract_direct_age f) as [direct|[]]; simpl;
      try reflexivity; try (now rewrite app_nil_r)
  | _ => idtac
  end.

Ltac load_cases line :=
  unfold load_step, Merger.load_line, Merger.load_handler, loads,
    Merger.load_key_in, Merger.load_add_duplicate, Merger.load_store,
    Merger.load_print, line_occurrence, load_entry, load_events,
    apply_occurrence, duplicate_of, key_fields;
  eff_unfold; cbn [fst snd];
  destruct (json_loads line) as [[ | | | | |fields]|]; simpl;
  try reflexivity; try (now rewrite app_nil_r);
  name_fields;
  match goal with
  | |- context [Merger.key_hashable (?a, ?b)] =>
      destruct (truthy a); simpl;
      [destruct (truthy b); simpl;
       [destruct (Merger.key_hashable (a, b)); simpl|]|]
  end;
  try reflexivity; try (now rewrite app_nil_r).

(** The same case analyses for statements about counters, closed by
    arithmetic. *)
Ltac merge_counts line :=
  unfold merge_step, Merger.merge_line, Merger.merge_handler,
    Merger.train_key, loads, parses, key_fields;
  unfold no_match, Merger.reason_missing, Merger.reason_no_match in *;
  eff_unfold; cbn [fst snd];
  destruct (json_loads line) as [[ | | | | |fields]|]; simpl;
  try lia;
  name_fields;
  match goal with
  | |- context [Merger.cdict_get (?a, ?b) ?cls] =>
      destruct (truthy a); simpl;
      [destruct (truthy b); simpl;
       [destruct (Merger.key_hashable (a, b)); simpl;
        [unfold Merger.cdict_mem;
         destruct (Merger.cdict_get (a, b) cls); simpl|]|]|]
  end;
  rewrite ?filter_app, ?length_app; simpl; try lia.

Ltac load_counts line :=
  unfold load_step, Merger.load_line, Merger.load_handler, loads,
    Merger.load_key_in, Merger.load_add_duplicate, Merger.load_store,
    Merger.load_print, line_occurrence, load_entry, key_fields;
  eff_unfold; cbn [fst snd];
  destruct (json_loads line) as [[ | | | | |fields]|]; simpl;
  try lia;
  name_fields;
  match goal with
  | |- context [Merger.key_hashable (?a, ?b)] =>
      destruct (truthy a); simpl;
      [destruct (truthy b); simpl;
       [destruct (Merger.key_hashable (a, b)); simpl|]|]
  end;
  try lia.

(* ================================================================== *)
(** ** Loops and handlers *)

Lemma for_lines_steps {St} (body : nat -> string -> M St unit) :
  (forall n line st, fst (body n line st) = Ok tt) ->
  forall lines n st,
    for_lines n lines body st
    = (Ok tt, steps (fun n line st => snd (body n line st)) n lines st).
Proof.
  intros Hok lines; induction lines as [|line rest IH]; intros n st.
  - reflexivity.
  - simpl. unfold bind. specialize (Hok n line st).
    destruct (body n line st) as [r st'] eqn:E. simpl in Hok. subst r.
    rewrite IH. reflexivity.
Qed.

Lemma steps_app {St} (step : nat -> string -> St -> St) l1 l2 n st :
  steps step n (l1 ++ l2) st
  = steps step (n + length l1) l2 (steps step n l1 st).
Proof.
  revert n st; induction l1 as [|x l1 IH]; intros n st; simpl.
  - now rewrite Nat.add_0_r.
  - rewrite IH. now rewrite Nat.add_succ_r.
Qed.

(** A projection of the state that every step only appends to is, at the
    end, the appended contributions of the lines in order. *)
Lemma steps_appends {St A} (step : nat -> string -> St -> St)
    (proj : St -> list A) (contrib : nat * string -> list A) :
  (forall n line st, proj (step n line st) = proj st ++ contrib (n, line)) ->
  forall lines n st,
    proj (steps step n lines st)
    = proj st ++ flat_map contrib (numbered n lines).
Proof.
  intros Hstep lines; induction lines as [|line rest IH]; intros n st; simpl.
  - now rewrite app_nil_r.
  - rewrite IH, Hstep, <- app_assoc. reflexivity.
Qed.

Lemma numbered_app n l1 l2 :
  numbered n (l1 ++ l2) = numbered n l1 ++ numbered (n + length l1) l2.
Proof.
  revert n; induction l1 as [|x l1 IH]; intros n; simpl.
  - now rewrite Nat.add_0_r.
  - rewrite IH. now rewrite Nat.add_succ_r.
Qed.

Lemma numbered_nth n lines i line :
  nth_error lines i = Some line -> In (n + i, line) (numbered n lines).
Proof.
  revert n i; induction lines as [|x rest IH]; intros n i Hn.
  - destruct i; discriminate.
  - destruct i as [|i]; simpl in *.
    + inversion Hn; subst. left. now rewrite Nat.add_0_r.
    + right. rewrite <- Nat.add_succ_comm. now apply IH.
Qed.

Lemma flat_map_snd_numbered {A} (f : string -> list A) n lines :
  flat_map (fun nl => f (snd nl)) (numbered n lines) = flat_map f lines.
Proof.
  revert n; induction lines as [|x rest IH]; intros n; simpl.
  - reflexivity.
  - now rewrite IH.
Qed.

(* ================================================================== *)
(** ** Merger: the merge phase *)

Section MergePhase.
Context `{JsonLib}.

Lemma merge_line_contained cls n line st :
  fst (try_except (Merger.merge_line cls n line) (Merger.merge_handler n) st)
  = Ok tt.
Proof. merge_cases line. Qed.

Lemma merge_step_outfile cls n line st :
  Merger.outfile (merge_step cls n line st)
  = Merger.outfile st ++ written_for cls line.
Proof. merge_cases line. Qed.

Lemma merge_step_unmatched cls n line st :
  Merger.no_classification_found (merge_step cls n line st)
  = Merger.no_classification_found st ++ unmatched_for cls (n, line).
Proof. merge_cases line. Qed.

Lemma merge_loop_steps cls n lines st :
  Merger.merge_loop cls n lines st
  = (Ok tt, steps (merge_step cls) n lines st).
Proof.
  unfold Merger.merge_loop.
  rewrite for_lines_steps; [reflexivity|].
  intros; apply merge_line_contained.
Qed.

Lemma merge_outfile train cls :
  Merger.outfile (snd (Merger.merge_with_train train cls))
  = flat_map (written_for cls) train.
Proof.
  unfold Merger.merge_with_train. rewrite merge_loop_steps. simpl.
  rewrite (steps_appends (merge_step cls) Merger.outfile
             (fun nl => written_for cls (snd nl))).
  - simpl. apply flat_map_snd_numbered.
  - intros; apply merge_step_outfile.
Qed.

Lemma merge_unmatched train cls :
  Merger.no_classification_found (snd (Merger.merge_with_train train cls))
  = flat_map (unmatched_for cls) (numbered 1 train).
Proof.
  unfold Merger.merge_with_train. rewrite merge_loop_steps. simpl.
  rewrite (steps_appends (merge_step cls) Merger.no_classification_found
             (unmatched_for cls)).
  - reflexivity.
  - intros; apply merge_step_unmatched.
Qed.

End MergePhase.

Lemma flat_map_singletons {A B} (f : A -> list B) (g : A -> B) (l : list A) :
  (forall x, In x l -> f x = [g x]) -> flat_map f l = map g l.
Proof.
  induction l as [|x l IH]; intros Hf; simpl.
  - reflexivity.
  - rewrite (Hf x (or_introl eq_refl)), IH; [reflexivity|].
    intros y Hy; apply Hf; now right.
Qed.

Lemma flat_map_at_most_one {A B} (f : A -> list B) (l : list A) :
  (forall x, length (f x) <= 1) -> length (flat_map f l) <= length l.
Proof.
  intros Hf; induction l as [|x l IH]; simpl.
  - constructor.
  - rewrite length_app. specialize (Hf x). lia.
Qed.

Section MergeContract.
Context `{JsonLib}.

Lemma written_for_at_most_one cls line : length (written_for cls line) <= 1.
Proof.
  unfold written_for. destruct (json_loads line) as [v|]; simpl; [|lia].
  destruct (has_key v); simpl; lia.
Qed.

Lemma has_key_fields v :
  has_key v = true ->
  exists fields a b,
    v = JObj fields /\ key_fields v = Some (a, b) /\ truthy a = true
    /\ truthy b = true /\ Merger.key_hashable (a, b) = true.
Proof.
  unfold has_key. destruct (key_fields v) as [[a b]|] eqn:K; [|discriminate].
  intros Hk. apply andb_prop in Hk as [Hk Hh]. apply andb_prop in Hk as [Ha Hb].
  destruct v as [ | | | | |fields]; try discriminate.
  exists fields, a, b. repeat split; assumption.
Qed.

Lemma lookup_store_other k k' v fields :
  k <> k' -> lookup k (store k' v fields) = lookup k fields.
Proof.
  intros Hne. induction fields as [|[k0 v0] rest IH]; simpl.
  - destruct (String.eqb_spec k' k); [congruence|reflexivity].
  - destruct (String.eqb_spec k0 k') as [->|Hne0]; simpl.
    + destruct (String.eqb_spec k' k); [congruence|reflexivity].
    + now rewrite IH.
Qed.

(** Attaching the classification leaves the key fields as they are. *)
Lemma merged_record_key cls v :
  key_fields (merged_record cls v) = key_fields v.
Proof.
  unfold merged_record.
  destruct (key_fields v) as [k|] eqn:Kf; [|exact Kf].
  destruct (Merger.cdict_get k cls) as [c|]; [|exact Kf].
  destruct v as [ | | | | |fields]; try exact Kf.
  unfold key_fields, get in *.
  now rewrite !lookup_store_other by discriminate.
Qed.

Lemma written_keyed cls train :
  flat_map (written_for cls) train
  = map (merged_record cls) (filter has_key (records train)).
Proof.
  unfold records. induction train as [|line rest IH]; simpl; [reflexivity|].
  unfold written_for at 1. destruct (json_loads line) as [v|]; simpl.
  - destruct (has_key v); simpl; now rewrite IH.
  - exact IH.
Qed.

Lemma written_for_one cls line :
  length (written_for cls line) = 1
  <-> exists v, json_loads line = Some v /\ has_key v = true.
Proof.
  unfold written_for. destruct (json_loads line) as [v|]; simpl.
  - destruct (has_key v) eqn:Hk; simpl.
    + split; [intros _; now exists v|reflexivity].
    + split; [discriminate|]. intros (v' & [= <-] & Hk'). congruence.
  - split; [discriminate|]. intros (v & Hv & _). discriminate.
Qed.

(** As many output lines as input lines: every input line gives one. *)
Lemma flat_map_all_one {A B} (f : A -> list B) (l : list A) :
  (forall x, length (f x) <= 1) ->
  (length (flat_map f l) = length l
   <-> forall x, In x l -> length (f x) = 1).
Proof.
  intros Hf. induction l as [|x l IH]; simpl.
  - split; [intros _ y []|reflexivity].
  - rewrite length_app.
    pose proof (Hf x) as Hx.
    pose proof (flat_map_at_most_one f l Hf) as Hl.
    split.
    + intros Hlen y [<-|Hy]; [lia|]. apply IH; [lia|exact Hy].
    + intros Hall. rewrite (Hall x (or_introl eq_refl)).
      assert (Hrest : length (flat_map f l) = length l).
      { apply IH. intros y Hy. apply Hall. now right. }
      lia.
Qed.

(** C1, as amended: the merge phase always completes and never writes more
    records than it reads.  It writes one output record for every input
    line that parses as a record with both key fields, non-empty and usable
    as a key, in input order, and nothing else: the record with its
    classification attached on a composite-key hit and the record itself on
    a miss, the miss being recorded as unmatched.  So the output has as many
    records as the input exactly when every line is such a record, and then
    the records correspond line by line.  A record in which [case_id] or
    [case_no] is absent or empty is recorded as unmatched, with its line
    number and the reason "Missing case_id or case_no in original file", and
    is not written: every record of the output has both key fields.  A line
    that does not parse is not written either. *)
Theorem merge_output_contract (train : list string) (cls : Merger.cdict) :
  let run := Merger.merge_with_train train cls in
  let out := Merger.outfile (snd run) in
  let unmatched := Merger.no_classification_found (snd run) in
  fst run = Ok tt
  /\ length out <= length train
  /\ ((forall line, In line train ->
         exists v, json_loads line = Some v /\ has_key v = true) ->
      length out = length train
      /\ forall i line, nth_error train i = Some line ->
           exists v a b,
             json_loads line = Some v /\ key_fields v = Some (a, b)
             /\ match Merger.cdict_get (a, b) cls with
                | Some c =>
                    exists v', setitem v "classification" c = Ok v'
                               /\ nth_error out i = Some v'
                | None =>
                    nth_error out i = Some v
                    /\ In {| Merger.um_case_id := a; Merger.um_case_no := b;
                             Merger.um_line := S i;
                             Merger.um_reason := Merger.reason_no_match |}
                          unmatched
                end)
  /\ (forall i line v a b,
        nth_error train i = Some line -> json_loads line = Some v ->
        key_fields v = Some (a, b) -> lacks_key v = true ->
        In {| Merger.um_case_id := por a (JStr "MISSING");
              Merger.um_case_no := por b (JStr "MISSING");
              Merger.um_line := S i;
              Merger.um_reason := Merger.reason_missing |} unmatched)
  /\ out = map (merged_record cls) (filter has_key (records train))
  /\ (forall v a b,
        has_key v = true -> key_fields v = Some (a, b) ->
        match Merger.cdict_get (a, b) cls with
        | Some c => setitem v "classification" c = Ok (merged_record cls v)
        | None => merged_record cls v = v
        end)
  /\ (forall i line v a b,
        nth_error train i = Some line -> json_loads line = Some v ->
        key_fields v = Some (a, b) -> has_key v = true ->
        Merger.cdict_get (a, b) cls = None ->
        In {| Merger.um_case_id := a; Merger.um_case_no := b;
              Merger.um_line := S i;
              Merger.um_reason := Merger.reason_no_match |} unmatched)
  /\ (forall v, lacks_key v = true -> has_key v = false)
  /\ (length out = length train
      <-> forall line, In line train ->
            exists v, json_loads line = Some v /\ has_key v = true)
  /\ (forall w, In w out -> has_key w = true).
Proof.
  cbv zeta. rewrite merge_outfile, merge_unmatched.
  split; [|split; [|split; [|split; [|split; [|split; [|split; [|split;
    [|split]]]]]]]].
  - unfold Merger.merge_with_train. now rewrite merge_loop_steps.
  - apply flat_map_at_most_one, written_for_at_most_one.
  - intros Hall.
    assert (Hmap : flat_map (written_for cls) train
                   = map (fun line =>
                            match json_loads line with
                            | Some v => merged_record cls v
                            | None => JNull
                            end) train).
    { apply flat_map_singletons. intros line Hin.
      destruct (Hall line Hin) as (v & Hv & Hk).
      unfold written_for. now rewrite Hv, Hk. }
    rewrite Hmap. split; [apply length_map|].
    intros i line Hi.
    destruct (Hall line (nth_error_In _ _ Hi)) as (v & Hv & Hk).
    destruct (has_key_fields v Hk) as (fields & a & b & -> & Kf & Ha & Hb & Hh).
    exists (JObj fields), a, b. split; [assumption|]. split; [assumption|].
    rewrite nth_error_map, Hi. simpl. rewrite Hv.
    unfold merged_record. rewrite Kf.
    destruct (Merger.cdict_get (a, b) cls) as [c|] eqn:G.
    + eexists; split; reflexivity.
    + split; [reflexivity|].
      apply in_flat_map. exists (S i, line). split.
      * apply (numbered_nth 1 train i line Hi).
      * unfold unmatched_for. cbn [fst snd]. rewrite Hv, Kf, Ha, Hb, Hh, G.
        simpl. now left.
  - intros i line v a b Hi Hv Kf Hl.
    apply in_flat_map. exists (S i, line). split.
    + apply (numbered_nth 1 train i line Hi).
    + unfold unmatched_for. cbn [fst snd]. rewrite Hv, Kf.
      unfold lacks_key in Hl. rewrite Kf in Hl. rewrite Hl. now left.
  - apply written_keyed.
  - intros v a b Hk Kf.
    destruct (has_key_fields v Hk) as (fields & a' & b' & -> & Kf' & _).
    unfold merged_record. rewrite Kf.
    now destruct (Merger.cdict_get (a, b) cls).
  - intros i line v a b Hi Hv Kf Hk Hmiss.
    apply in_flat_map. exists (S i, line). split.
    + apply (numbered_nth 1 train i line Hi).
    + unfold unmatched_for. cbn [fst snd]. rewrite Hv, Kf.
      unfold has_key in Hk. rewrite Kf in Hk.
      apply andb_prop in Hk as [Hk Hh]. apply andb_prop in Hk as [Ha Hb].
      rewrite Ha, Hb, Hh, Hmiss. simpl. now left.
  - intros v. unfold lacks_key, has_key.
    destruct (key_fields v) as [[a b]|]; [|discriminate].
    intros Hl. apply orb_prop in Hl.
    destruct Hl as [Hl|Hl]; apply negb_true_iff in Hl; rewrite Hl;
      [reflexivity|]. now rewrite andb_false_r.
  - rewrite (flat_map_all_one (written_for cls) train
               (written_for_at_most_one cls)).
    split; intros Hall line Hin.
    + apply (proj1 (written_for_one cls line)), Hall, Hin.
    + apply (proj2 (written_for_one cls line)), Hall, Hin.
  - intros w Hin. rewrite written_keyed in Hin.
    apply in_map_iff in Hin as (v & <- & Hin).
    apply filter_In in Hin as [_ Hk].
    unfold has_key in *. now rewrite merged_record_key.
Qed.

End MergeContract.

(** C1, witness: a base dataset of two keyed records, one with a
    classification loaded and one without; both are written. *)
Lemma merge_output_contract_witness :
  let train := [ Ref.js "{'case_id': 'A', 'case_no': '1'}";
                 Ref.js "{'case_id': 'B', 'case_no': '2'}" ] in
  let cls := [ ((JStr "A", JStr "1"), JObj [("gender", JStr "Male")]) ] in
  length (Merger.outfile
            (snd (@Merger.merge_with_train Ref.ref_json train cls)))
  = length train.
Proof.
  cbv zeta.
  refine (proj1 (proj1 (proj2 (proj2
            (@merge_output_contract Ref.ref_json _ _))) _)).
  intros line [<-|[<-|[]]]; eexists; split; vm_compute; reflexivity.
Defined.

(** C1, counterexample: a base dataset whose only record has no [case_id].
    The record is recorded as unmatched and nothing is written, so the
    output has fewer records than the input. *)
Lemma merge_skips_record_without_case_id :
  let train := [ Ref.js "{'case_no': '12/34', 'facts': []}" ] in
  let run := @Merger.merge_with_train Ref.ref_json train [] in
  Merger.outfile (snd run) = []
  /\ length (Merger.outfile (snd run)) <> length train
  /\ Merger.no_classification_found (snd run)
     = [ {| Merger.um_case_id := JStr "MISSING";
            Merger.um_case_no := JStr "12/34";
            Merger.um_line := 1;
            Merger.um_reason := "Missing case_id or case_no in original file"
         |} ].
Proof.
  cbv zeta. vm_compute. repeat split. discriminate.
Qed.

(* ================================================================== *)
(** ** Age Extractor: scanning the facts *)

Lemma find_app {A} (p : A -> bool) (l1 l2 : list A) :
  find p (l1 ++ l2)
  = match find p l1 with Some x => Some x | None => find p l2 end.
Proof.
  induction l1 as [|x l1 IH]; simpl; [reflexivity|].
  destruct (p x); [reflexivity|apply IH].
Qed.

Section Scanning.
Context `{ReLib}.

Lemma scan_matches_find lo hi matches :
  AgeExtractor.scan_matches lo hi matches
  = find (in_range lo hi)
      (flat_map (fun m => match AgeExtractor.py_int m with
                          | Some v => [v]
                          | None => []
                          end) matches).
Proof.
  induction matches as [|m rest IH]; simpl; [reflexivity|].
  destruct (AgeExtractor.py_int m) as [v|]; simpl; [|exact IH].
  unfold in_range at 1. destruct ((lo <=? v)%Z && (v <=? hi)%Z); auto.
Qed.

Lemma scan_patterns_find lo hi patterns text :
  AgeExtractor.scan_patterns lo hi patterns (JStr text)
  = Ok (find (in_range lo hi) (fact_candidates patterns text)).
Proof.
  unfold fact_candidates.
  induction patterns as [|p rest IH]; simpl; [reflexivity|].
  rewrite find_app, <- scan_matches_find.
  destruct (AgeExtractor.scan_matches lo hi (re_findall p text));
    [reflexivity|exact IH].
Qed.

Lemma scan_facts_find lo hi patterns texts :
  AgeExtractor.scan_facts lo hi patterns (map JStr texts)
  = Ok (find (in_range lo hi)
          (flat_map (fact_candidates patterns)
             (filter (fun t => negb (2000 <? String.length t)%nat) texts))).
Proof.
  induction texts as [|t rest IH]; simpl; [reflexivity|].
  destruct (2000 <? String.length t)%nat; simpl; [exact IH|].
  rewrite scan_patterns_find, find_app.
  destruct (find (in_range lo hi) (fact_candidates patterns t));
    [reflexivity|exact IH].
Qed.

Lemma extract_find lo hi patterns texts :
  AgeExtractor.extract lo hi patterns (JArr (map JStr texts))
  = Ok (find (in_range lo hi) (candidates patterns texts)).
Proof.
  unfold AgeExtractor.extract, AgeExtractor.first_facts, candidates, scanned.
  rewrite firstn_map. apply scan_facts_find.
Qed.





End Scanning.

(* ================================================================== *)
(** ** Age Extractor: the processing loop *)

Section Processing.
Context `{JsonLib} `{ReLib} `{DateLib}.

Lemma process_line_contained n line st :
  fst (try_except (AgeExtractor.process_line n line)
                  (AgeExtractor.process_handler n) st) = Ok tt.
Proof.
  process_cases line;
  unfold AgeExtractor.bump_if, AgeExtractor.count_decade; eff_unfold;
  repeat match goal with
  | |- context [if ?c then _ else _] => destruct c; simpl
  | |- context [match ?c with Some _ => _ | None => _ end] =>
      destruct c; simpl
  end; reflexivity.
Qed.

Lemma process_step_results n line st :
  AgeExtractor.results (process_step n line st)
  = AgeExtractor.results st ++ entries_for line.
Proof.
  process_cases line;
  unfold AgeExtractor.bump_if, AgeExtractor.count_decade; eff_unfold;
  repeat match goal with
  | |- context [if ?c then _ else _] => destruct c; simpl
  | |- context [match ?c with Some _ => _ | None => _ end] =>
      destruct c; simpl
  end; reflexivity.
Qed.

Lemma process_loop_steps n lines st :
  AgeExtractor.process_loop n lines st = (Ok tt, steps process_step n lines st).
Proof.
  unfold AgeExtractor.process_loop.
  rewrite for_lines_steps; [reflexivity|].
  intros; apply process_line_contained.
Qed.

Lemma process_results input :
  AgeExtractor.results (snd (AgeExtractor.process_dataset input))
  = flat_map entries_for input.
Proof.
  unfold AgeExtractor.process_dataset. rewrite process_loop_steps. simpl.
  rewrite (steps_appends process_step AgeExtractor.results
             (fun nl => entries_for (snd nl))).
  - simpl. apply flat_map_snd_numbered.
  - intros; apply process_step_results.
Qed.

End Processing.

Section ExtractorContract.
Context `{JsonLib} `{ReLib} `{DateLib}.


(** The calculated age: the judgment year minus the birth year, when the
    date parses and the difference lies in [0, 120]. *)
Lemma calculated_age_spec birth text age :
  AgeExtractor.calculate_age_at_judgment (Some birth) (JStr text) = Some age
  <-> exists year,
        strptime_ymd_year text = Some year /\ age = (year - birth)%Z
        /\ (0 <= age <= 120)%Z.
Proof.
  unfold AgeExtractor.calculate_age_at_judgment.
  destruct (strptime_ymd_year text) as [y|]; split.
  - destruct ((0 <=? y - birth)%Z && (y - birth <=? 120)%Z) eqn:E;
      [|discriminate].
    intros [= <-]. apply andb_prop in E as [E1 E2].
    exists y. repeat split; lia.
  - intros (y' & [= <-] & -> & Hr).
    replace ((0 <=? y - birth)%Z && (y - birth <=? 120)%Z) with true;
      [reflexivity|].
    symmetry. apply andb_true_intro. split; lia.
  - discriminate.
  - intros (y & Hy & _). discriminate.
Qed.

(** Away from age 0, [age_source] names the path that produced the final
    age: "calculated" whenever a calculated age exists, "direct" when only a
    stated age does, absent when neither does. *)
Lemma age_source_names_path calculated direct :
  calculated <> Some 0%Z ->
  (calculated = None -> direct <> Some 0%Z) ->
  AgeExtractor.age_source_of calculated direct
  = match calculated, direct with
    | Some _, _ => Some "calculated"
    | None, Some _ => Some "direct"
    | None, None => None
    end.
Proof.
  intros Hc Hd. unfold AgeExtractor.age_source_of, AgeExtractor.truthy_int.
  destruct calculated as [c|].
  - destruct (Z.eqb_spec c 0) as [->|]; [congruence|reflexivity].
  - destruct direct as [d|]; [|reflexivity].
    destruct (Z.eqb_spec d 0) as [->|]; [|reflexivity].
    now specialize (Hd eq_refl).
Qed.

Lemma texts_of_items items :
  forallb is_text items = true -> exists texts, items = map JStr texts.
Proof.
  induction items as [|x items IH]; simpl; intros Hall.
  - now exists [].
  - apply andb_prop in Hall as [Hx Hrest].
    destruct (IH Hrest) as [texts ->].
    destruct x; try discriminate. now exists (s :: texts).
Qed.

Lemma eligible_is_object v :
  eligible v = true -> exists a b, key_fields v = Some (a, b).
Proof.
  unfold eligible, key_fields.
  destruct v; simpl; try discriminate. intros _. eauto.
Qed.


End ExtractorContract.

Section ExtractorRuns.
#[local] Existing Instance Ref.ref_json.
#[local] Existing Instance Ref.ref_re.
#[local] Existing Instance Ref.ref_date.

(** The entries of the sample dataset. *)
Example sample_dataset_entries :
  AgeExtractor.results (snd (AgeExtractor.process_dataset sample_dataset))
  = [ {| AgeExtractor.entry_case_id := JStr "A";
         AgeExtractor.entry_case_no := JStr "1";
         AgeExtractor.entry_age_info :=
           {| AgeExtractor.birth_year := Some 1975%Z;
              AgeExtractor.age_at_judgment := Some 35%Z;
              AgeExtractor.age_source := Some "calculated" |} |};
      {| AgeExtractor.entry_case_id := JStr "C";
         AgeExtractor.entry_case_no := JStr "3";
         AgeExtractor.entry_age_info :=
           {| AgeExtractor.birth_year := None;
              AgeExtractor.age_at_judgment := None;
              AgeExtractor.age_source := None |} |} ].
Proof. vm_compute. reflexivity. Qed.

(** C2, at the failing input: an applicant born in the year of the
    judgment.  The calculated age, 0, is the final value, yet [age_source]
    is absent; and when the facts also state an age, [age_source] says
    "direct" although the final value is the calculated one. *)
Theorem age_source_wrong_for_age_zero :
  map AgeExtractor.entry_age_info
    (AgeExtractor.results
       (snd (AgeExtractor.process_dataset
          [ Ref.js "{'case_id': 'A', 'case_no': '1', 'classification': {'gender': 'Female', 'confidence': 'High'}, 'facts': ['The applicant was born in 2005.'], 'judgment_date': '2005-11-03'}";
            Ref.js "{'case_id': 'B', 'case_no': '2', 'classification': {'gender': 'Male', 'confidence': 'High'}, 'facts': ['The applicant was born in 2005.', 'His father, aged 41, lodged the application.'], 'judgment_date': '2005-11-03'}" ])))
  = [ {| AgeExtractor.birth_year := Some 2005%Z;
         AgeExtractor.age_at_judgment := Some 0%Z;
         AgeExtractor.age_source := None |};
      {| AgeExtractor.birth_year := Some 2005%Z;
         AgeExtractor.age_at_judgment := Some 0%Z;
         AgeExtractor.age_source := Some "direct" |} ].
Proof. vm_compute. reflexivity. Qed.

End ExtractorRuns.

(* ================================================================== *)
(** ** Splitter *)

Lemma for_each_fold {St A} (body : A -> M St unit) (items : list A) :
  (forall x, In x items -> forall st, fst (body x st) = Ok tt) ->
  forall st,
    for_each items body st
    = (Ok tt, fold_left (fun s x => snd (body x s)) items st).
Proof.
  induction items as [|x rest IH]; intros Hok st; simpl.
  - reflexivity.
  - unfold bind. pose proof (Hok x (or_introl eq_refl) st) as Hx.
    destruct (body x st) as [r st'] eqn:E. simpl in Hx. subst r.
    apply IH. intros y Hy. apply Hok. now right.
Qed.

Lemma for_each_ok_inv {St A} (body : A -> M St unit) (items : list A) st :
  fst (for_each items body st) = Ok tt ->
  forall x, In x items -> exists st', fst (body x st') = Ok tt.
Proof.
  revert st; induction items as [|y rest IH]; intros st Hok x Hin.
  - contradiction.
  - simpl in Hok. unfold bind in Hok.
    destruct (body y st) as [[[]|e] st'] eqn:E; [|discriminate].
    destruct Hin as [->|Hin].
    + exists st. now rewrite E.
    + eapply IH; eassumption.
Qed.

Lemma fold_appends {St A B} (step : St -> A -> St) (proj : St -> list B)
    (contrib : A -> B) :
  (forall st x, proj (step st x) = proj st ++ [contrib x]) ->
  forall items st,
    proj (fold_left step items st) = proj st ++ map contrib items.
Proof.
  intros Hstep items; induction items as [|x rest IH]; intros st; simpl.
  - now rewrite app_nil_r.
  - rewrite IH, Hstep, <- app_assoc. reflexivity.
Qed.

Lemma firstn_plus {A} (l : list A) n m :
  firstn (n + m) l = firstn n l ++ firstn m (skipn n l).
Proof.
  revert l; induction n as [|n IH]; intros l; simpl.
  - reflexivity.
  - destruct l as [|x l]; simpl.
    + now rewrite firstn_nil.
    + now rewrite IH.
Qed.

Lemma nth_error_skipn_head {A} (l : list A) k :
  nth_error l k = hd_error (skipn k l).
Proof.
  revert l; induction k as [|k IH]; intros [|x l]; simpl; auto.
Qed.

Section SplitterFacts.
Context `{JsonLib}.

(** The slice the loop takes for chunk [i] is the chunk of the partition. *)
Lemma slice_is_chunk lines n i :
  1 <= n <= length lines -> i < n ->
  let N := Z.of_nat n in
  let per_file := (Z.of_nat (length lines) / N)%Z in
  slice lines (Z.of_nat i * per_file)
    (if (Z.of_nat i =? N - 1)%Z then Z.of_nat (length lines)
     else ((Z.of_nat i + 1) * per_file)%Z)
  = chunk lines n (length lines / n) i.
Proof.
  intros Hn Hi N per_file.
  assert (Hb : per_file = Z.of_nat (length lines / n)).
  { unfold per_file, N. now rewrite Nat2Z.inj_div. }
  set (b := length lines / n) in *. set (L := length lines) in *.
  assert (HbL : n * b <= L) by (apply Nat.Div0.mul_div_le).
  unfold slice, chunk. fold L. rewrite Hb.
  assert (Hs : (Z.of_nat i * Z.of_nat b <= Z.of_nat L)%Z) by nia.
  destruct (Z.eqb_spec (Z.of_nat i) (N - 1)) as [E|E].
  - assert (i = n - 1) as -> by lia.
    rewrite Nat.eqb_refl.
    replace (Z.of_nat (n - 1) * Z.of_nat b <? 0)%Z with false
      by (symmetry; apply Z.ltb_ge; nia).
    replace (Z.of_nat L <? 0)%Z with false
      by (symmetry; apply Z.ltb_ge; lia).
    rewrite Z.min_id, Z.min_l by nia.
    replace (Z.to_nat (Z.of_nat (n - 1) * Z.of_nat b))
      with ((n - 1) * b) by nia.
    apply firstn_all2. rewrite length_skipn. fold L. nia.
  - assert (i <> n - 1) by lia.
    replace (i =? n - 1)%nat with false by (symmetry; now apply Nat.eqb_neq).
    replace (Z.of_nat i * Z.of_nat b <? 0)%Z with false
      by (symmetry; apply Z.ltb_ge; nia).
    replace ((Z.of_nat i + 1) * Z.of_nat b <? 0)%Z with false
      by (symmetry; apply Z.ltb_ge; nia).
    rewrite !Z.min_l by nia.
    replace (Z.to_nat (Z.of_nat i * Z.of_nat b)) with (i * b) by nia.
    f_equal. nia.
Qed.

Lemma split_chunk_written lines N per_file i st :
  Splitter.written (snd (Splitter.split_chunk lines N per_file i st))
  = Splitter.written st
    ++ [(Splitter.chunk_name i,
         slice lines (i * per_file)
           (if (i =? N - 1)%Z then Z.of_nat (length lines)
            else ((i + 1) * per_file)%Z))].
Proof.
  unfold Splitter.split_chunk, Splitter.write_file, Splitter.split_print,
    loads. eff_unfold. simpl.
  destruct (slice lines _ _) as [|first rest]; simpl; [reflexivity|].
  destruct (json_loads first) as [v|]; simpl; [|reflexivity].
  destruct (getitem v "case_id"); reflexivity.
Qed.

(** The loop body ends normally exactly when the chunk has a first line
    that is a record with a [case_id]. *)
Lemma split_chunk_ok lines N per_file i st :
  fst (Splitter.split_chunk lines N per_file i st) = Ok tt
  <-> exists first v c,
        hd_error (slice lines (i * per_file)
                    (if (i =? N - 1)%Z then Z.of_nat (length lines)
                     else ((i + 1) * per_file)%Z)) = Some first
        /\ json_loads first = Some v /\ getitem v "case_id" = Ok c.
Proof.
  unfold Splitter.split_chunk, Splitter.write_file, Splitter.split_print,
    loads. eff_unfold. simpl.
  destruct (slice lines _ _) as [|first rest]; simpl.
  - split; [discriminate|]. intros (f & v & c & E & _). discriminate.
  - destruct (json_loads first) as [v|] eqn:Ev; simpl.
    + destruct (getitem v "case_id") as [c|e] eqn:Ec; simpl.
      * split; [|reflexivity]. intros _. now exists first, v, c.
      * split; [discriminate|].
        intros (f & v' & c & [= <-] & Ev' & Ec').
        rewrite Ev in Ev'. injection Ev' as <-. congruence.
    + split; [discriminate|].
      intros (f & v' & c & [= <-] & Ev' & _). congruence.
Qed.

Lemma chunk_head lines n i :
  1 <= n <= length lines -> i < n ->
  hd_error (chunk lines n (length lines / n) i)
  = nth_error lines (i * (length lines / n)).
Proof.
  intros Hn Hi. unfold chunk.
  set (b := length lines / n).
  assert (HbL : n * b <= length lines) by (apply Nat.Div0.mul_div_le).
  assert (Hb1 : 1 <= b) by (apply Nat.div_le_lower_bound; lia).
  rewrite nth_error_skipn_head.
  destruct (i =? n - 1)%nat; [reflexivity|].
  destruct (skipn (i * b) lines); [now rewrite firstn_nil|].
  destruct b; [lia|reflexivity].
Qed.

End SplitterFacts.

Lemma flat_map_agree {A B} (f g : A -> list B) (l : list A) :
  (forall x, In x l -> f x = g x) -> flat_map f l = flat_map g l.
Proof.
  induction l as [|x l IH]; intros Hfg; simpl; [reflexivity|].
  rewrite (Hfg x (or_introl eq_refl)), IH; [reflexivity|].
  intros y Hy. apply Hfg. now right.
Qed.

Lemma concat_full_chunks {A} (l : list A) b k :
  flat_map (fun i => firstn b (skipn (i * b) l)) (seq 0 k) = firstn (k * b) l.
Proof.
  induction k as [|k IH].
  - reflexivity.
  - rewrite seq_S, flat_map_app, IH. simpl. rewrite app_nil_r.
    rewrite <- firstn_plus. f_equal. lia.
Qed.

Lemma put_file_fresh name content dir :
  ~ In name (map fst dir) ->
  Splitter.put_file name content dir = dir ++ [(name, content)].
Proof.
  induction dir as [|[n c] rest IH]; simpl; intros Hfresh.
  - reflexivity.
  - destruct (String.eqb_spec n name) as [->|Hne].
    + exfalso. apply Hfresh. now left.
    + rewrite IH; [reflexivity|]. intros Hin. apply Hfresh. now right.
Qed.

Lemma directory_of_distinct_from dir writes :
  NoDup (map fst (dir ++ writes)) ->
  fold_left (fun d w => Splitter.put_file (fst w) (snd w) d) writes dir
  = dir ++ writes.
Proof.
  revert dir; induction writes as [|[n c] rest IH]; intros dir Hnd; simpl.
  - now rewrite app_nil_r.
  - rewrite put_file_fresh.
    + rewrite IH; rewrite <- app_assoc; [reflexivity|exact Hnd].
    + rewrite map_app in Hnd. simpl in Hnd.
      apply NoDup_remove_2 in Hnd. intros Hin. apply Hnd.
      apply in_or_app. now left.
Qed.

Lemma directory_of_distinct writes :
  NoDup (map fst writes) -> Splitter.directory_of writes = writes.
Proof.
  intros Hnd. unfold Splitter.directory_of.
  now rewrite (directory_of_distinct_from [] writes).
Qed.

Lemma distinct_NoDup names : distinct names = true -> NoDup names.
Proof.
  induction names as [|a rest IH]; simpl; intros Hd; constructor.
  - apply andb_prop in Hd as [Ha _]. intros Hin.
    apply negb_true_iff in Ha.
    assert (existsb (String.eqb a) rest = true) as E.
    { apply existsb_exists. exists a. split; [assumption|apply String.eqb_refl]. }
    congruence.
  - apply IH. now apply andb_prop in Hd as [_ Hd].
Qed.

Lemma in_firstn {A} (l : list A) n x : In x (firstn n l) -> In x l.
Proof.
  revert n; induction l as [|y l IH]; intros n Hin.
  - now rewrite firstn_nil in Hin.
  - destruct n as [|n]; [contradiction|].
    destruct Hin as [->|Hin]; [now left|right; eapply IH; eassumption].
Qed.

Lemma NoDup_firstn {A} (l : list A) n : NoDup l -> NoDup (firstn n l).
Proof.
  revert n; induction l as [|x l IH]; intros n Hnd.
  - now rewrite firstn_nil.
  - destruct n as [|n]; simpl; [constructor|].
    inversion Hnd as [|? ? Hx Hl]; subst. constructor.
    + intros Hin. apply Hx. eapply in_firstn; eassumption.
    + now apply IH.
Qed.

Lemma ascending_firstn names n :
  ascending names = true -> ascending (firstn n names) = true.
Proof.
  revert n; induction names as [|a rest IH]; intros n Ha.
  - now rewrite firstn_nil.
  - destruct n as [|n]; [reflexivity|].
    destruct rest as [|b rest]; [now destruct n|].
    simpl in Ha. apply andb_prop in Ha as [Hab Hrest].
    specialize (IH n Hrest).
    destruct n as [|n]; [reflexivity|].
    simpl in *. now rewrite Hab, IH.
Qed.

Lemma ltb_leb a b : String.ltb a b = true -> String.leb a b = true.
Proof.
  unfold String.ltb, String.leb. now destruct (String.compare a b).
Qed.

(** Files whose names already ascend are listed by [sorted] as they are. *)
Lemma sorted_by_ascending {A} (name : A -> string) (l : list A) :
  ascending (map name l) = true -> sorted_by name l = l.
Proof.
  induction l as [|x rest IH]; intros Ha; [reflexivity|].
  simpl. destruct rest as [|y rest]; [reflexivity|].
  simpl in Ha. apply andb_prop in Ha as [Hxy Hrest].
  rewrite (IH Hrest). simpl. now rewrite (ltb_leb _ _ Hxy).
Qed.

(** The names of the first 99 chunks ascend and differ from each other:
    checked on the list itself. *)
Lemma chunk_names_99 :
  let names := map (fun i => Splitter.chunk_name (Z.of_nat i)) (seq 0 99) in
  ascending names = true /\ distinct names = true.
Proof. vm_compute. split; reflexivity. Qed.

Lemma chunk_names_prefix n :
  n <= 99 ->
  map (fun i => Splitter.chunk_name (Z.of_nat i)) (seq 0 n)
  = firstn n (map (fun i => Splitter.chunk_name (Z.of_nat i)) (seq 0 99)).
Proof.
  intros Hn. rewrite firstn_map. f_equal.
  replace 99 with (n + (99 - n)) by lia.
  rewrite seq_app, firstn_app, length_seq, Nat.sub_diag. simpl.
  rewrite app_nil_r. symmetry. apply firstn_all2. rewrite length_seq. lia.
Qed.

Section SplitterContract.
Context `{JsonLib}.

Lemma range_of_nat n : Splitter.range (Z.of_nat n) = map Z.of_nat (seq 0 n).
Proof. unfold Splitter.range. now rewrite Nat2Z.id. Qed.

(** A split into [n] chunks of a source of at least [n] lines, the first
    line of each chunk being a record with a [case_id]: the run ends
    normally and has written the chunks of the partition, in order. *)
Lemma split_writes_chunks lines n :
  1 <= n <= length lines ->
  (forall i, i < n -> record_at lines (i * (length lines / n))) ->
  fst (Splitter.split_jsonl lines (Z.of_nat n)) = Ok tt
  /\ Splitter.written (snd (Splitter.split_jsonl lines (Z.of_nat n)))
     = chunk_files lines n.
Proof.
  intros Hn Hrec. unfold Splitter.split_jsonl.
  replace (Z.of_nat n =? 0)%Z with false by (symmetry; apply Z.eqb_neq; lia).
  rewrite range_of_nat.
  rewrite for_each_fold.
  - split; [reflexivity|]. cbn [snd].
    rewrite (fold_appends _ Splitter.written
               (fun x => (Splitter.chunk_name x,
                          slice lines
                            (x * (Z.of_nat (length lines) / Z.of_nat n))
                            (if (x =? Z.of_nat n - 1)%Z
                             then Z.of_nat (length lines)
                             else ((x + 1)
                                   * (Z.of_nat (length lines) / Z.of_nat n))%Z)))).
    + simpl. unfold chunk_files. rewrite map_map.
      apply map_ext_in. intros i Hi. apply in_seq in Hi.
      f_equal. apply slice_is_chunk; lia.
    + intros st x. apply split_chunk_written.
  - intros x Hx st. apply in_map_iff in Hx as (i & <- & Hi).
    apply in_seq in Hi. apply split_chunk_ok.
    rewrite slice_is_chunk by lia. rewrite chunk_head by lia.
    destruct (Hrec i) as (line & v & c & Hl & Hv & Hc); [lia|].
    now exists line, v, c.
Qed.

Lemma chunk_files_concat lines n :
  1 <= n <= length lines -> flat_map snd (chunk_files lines n) = lines.
Proof.
  intros Hn. unfold chunk_files.
  rewrite flat_map_concat_map, map_map, <- flat_map_concat_map. cbn [snd].
  assert (Hseq : seq 0 n = seq 0 (n - 1) ++ [n - 1]).
  { replace n with (S (n - 1)) at 1 by lia. now rewrite seq_S. }
  rewrite Hseq, flat_map_app. simpl. rewrite app_nil_r.
  unfold chunk at 2. rewrite Nat.eqb_refl.
  rewrite (flat_map_agree _
             (fun i => firstn (length lines / n)
                         (skipn (i * (length lines / n)) lines))).
  - rewrite concat_full_chunks. apply firstn_skipn.
  - intros i Hi. apply in_seq in Hi. unfold chunk.
    replace (i =? n - 1)%nat with false; [reflexivity|].
    symmetry. apply Nat.eqb_neq. lia.
Qed.

Lemma chunk_sizes lines n i :
  1 <= n <= length lines -> i < n ->
  length (chunk lines n (length lines / n) i)
  = if (i =? n - 1)%nat then length lines - (n - 1) * (length lines / n)
    else length lines / n.
Proof.
  intros Hn Hi. unfold chunk.
  assert (HbL : n * (length lines / n) <= length lines)
    by (apply Nat.Div0.mul_div_le).
  destruct (Nat.eqb_spec i (n - 1)) as [->|Hne].
  - now rewrite length_skipn.
  - rewrite length_firstn, length_skipn. nia.
Qed.

(** C5, as amended: for a source of [L] lines and a split count [N] with
    [1 <= N <= L], the first line of every chunk being a record with a
    [case_id], the Splitter ends normally and has written [N] chunk files,
    named by the zero-padded numbers 1 to [N]; chunks 1 to [N-1] hold
    [floor(L/N)] lines each and the last holds the remaining
    [L - (N-1)*floor(L/N)] lines, at least [floor(L/N)]; the chunks
    concatenated in the order written are the source, line for line; and
    for [N <= 99] that order is the lexical order of the file names, so
    reading the directory by sorted name gives back the source. *)
Theorem split_partitions_source (lines : list string) (n : nat) :
  1 <= n <= length lines ->
  (forall i, i < n -> record_at lines (i * (length lines / n))) ->
  let run := Splitter.split_jsonl lines (Z.of_nat n) in
  let files := Splitter.written (snd run) in
  let per_file := length lines / n in
  fst run = Ok tt
  /\ map fst files
     = map (fun i => Splitter.chunk_name (Z.of_nat i)) (seq 0 n)
  /\ (forall i, i < n - 1 ->
        exists f, nth_error files i = Some f /\ length (snd f) = per_file)
  /\ (exists f, nth_error files (n - 1) = Some f
                /\ length (snd f) = length lines - (n - 1) * per_file
                /\ per_file <= length (snd f))
  /\ flat_map snd files = lines
  /\ (n <= 99 ->
      Splitter.concat_sorted (Splitter.directory_of files) = lines).
Proof.
  intros Hn Hrec. cbv zeta.
  destruct (split_writes_chunks lines n Hn Hrec) as [Hok Hw].
  rewrite Hw.
  assert (HbL : n * (length lines / n) <= length lines)
    by (apply Nat.Div0.mul_div_le).
  assert (Hnth : forall i, i < n ->
            nth_error (chunk_files lines n) i
            = Some (Splitter.chunk_name (Z.of_nat i),
                    chunk lines n (length lines / n) i)).
  { intros i Hi. unfold chunk_files.
    rewrite nth_error_map, nth_error_seq.
    destruct (Nat.ltb_spec i n); [reflexivity|lia]. }
  split; [exact Hok|]. split; [|split; [|split; [|split]]].
  - unfold chunk_files. rewrite map_map. reflexivity.
  - intros i Hi. eexists. split; [apply Hnth; lia|].
    cbn [snd]. rewrite chunk_sizes by lia.
    replace (i =? n - 1)%nat with false; [reflexivity|].
    symmetry. apply Nat.eqb_neq. lia.
  - eexists. split; [apply Hnth; lia|].
    cbn [snd]. rewrite chunk_sizes by lia. rewrite Nat.eqb_refl.
    split; [reflexivity|nia].
  - apply chunk_files_concat, Hn.
  - intros H99.
    assert (Hnames : map fst (chunk_files lines n)
                     = firstn n (map (fun i => Splitter.chunk_name (Z.of_nat i))
                                     (seq 0 99))).
    { rewrite <- chunk_names_prefix by assumption.
      unfold chunk_files. now rewrite map_map. }
    destruct chunk_names_99 as [Hasc Hdis].
    unfold Splitter.concat_sorted.
    rewrite directory_of_distinct.
    + rewrite sorted_by_ascending; [apply chunk_files_concat, Hn|].
      rewrite Hnames. now apply ascending_firstn.
    + rewrite Hnames. apply NoDup_firstn, distinct_NoDup, Hdis.
Qed.

Lemma split_chunk_empty lines N per_file i st :
  slice lines (i * per_file)
    (if (i =? N - 1)%Z then Z.of_nat (length lines)
     else ((i + 1) * per_file)%Z) = [] ->
  Splitter.split_chunk lines N per_file i st
  = (Raise IndexError,
     {| Splitter.written := Splitter.written st ++ [(Splitter.chunk_name i, [])];
        Splitter.split_log := Splitter.split_log st |}).
Proof.
  intros E. unfold Splitter.split_chunk, Splitter.write_file. eff_unfold.
  now rewrite E.
Qed.

(** With fewer lines than chunks the first slice is empty. *)
Lemma first_slice_empty (lines : list string) N :
  (Z.of_nat (length lines) < N)%Z ->
  slice lines (0 * 0)
    (if (0 =? N - 1)%Z then Z.of_nat (length lines) else ((0 + 1) * 0)%Z)
  = [].
Proof.
  intros Hshort. destruct (Z.eqb_spec 0 (N - 1)) as [E|E].
  - assert (length lines = 0) as E0 by lia.
    destruct lines; [reflexivity|discriminate].
  - unfold slice. simpl. now rewrite Z.min_l by lia.
Qed.

(** C10: the Splitter ends normally only when the source has at least
    [num_splits] lines and the first line of every chunk is a record with a
    [case_id]; and when the source has fewer lines than [num_splits], the
    lines per file are 0, the first chunk is empty, and [IndexError] is
    raised after the empty first chunk file has been written, nothing else
    having been written or printed. *)
Theorem split_aborts_on_short_source (lines : list string) (num_splits : Z) :
  let total_lines := Z.of_nat (length lines) in
  let per_file := (total_lines / num_splits)%Z in
  (fst (Splitter.split_jsonl lines num_splits) = Ok tt ->
   (num_splits <= total_lines)%Z
   /\ forall i, (0 <= i < num_splits)%Z ->
        record_at lines (Z.to_nat (i * per_file)))
  /\ ((total_lines < num_splits)%Z ->
      per_file = 0%Z
      /\ Splitter.split_jsonl lines num_splits
         = (Raise IndexError,
            {| Splitter.written := [("train_split_01.jsonl", [])];
               Splitter.split_log := [] |})).
Proof.
  cbv zeta.
  assert (Hshort : (Z.of_nat (length lines) < num_splits)%Z ->
            (Z.of_nat (length lines) / num_splits = 0)%Z
            /\ Splitter.split_jsonl lines num_splits
               = (Raise IndexError,
                  {| Splitter.written := [("train_split_01.jsonl", [])];
                     Splitter.split_log := [] |})).
  { intros Hlt.
    assert (Hdiv : (Z.of_nat (length lines) / num_splits = 0)%Z)
      by (apply Z.div_small; lia).
    split; [exact Hdiv|].
    unfold Splitter.split_jsonl.
    replace (num_splits =? 0)%Z with false by (symmetry; apply Z.eqb_neq; lia).
    rewrite Hdiv. unfold Splitter.range.
    destruct (Z.to_nat num_splits) as [|k] eqn:Ek; [lia|].
    cbn [seq map for_each Z.of_nat]. unfold bind.
    rewrite (split_chunk_empty lines num_splits 0 0 Splitter.split_init
               (first_slice_empty lines num_splits Hlt)).
    reflexivity. }
  split; [|exact Hshort].
  intros Hok.
  destruct (Z.ltb_spec (Z.of_nat (length lines)) num_splits) as [Hlt|Hge].
  { destruct (Hshort Hlt) as [_ E]. rewrite E in Hok. discriminate. }
  split; [exact Hge|]. intros i Hi.
  assert (Hn : 1 <= Z.to_nat num_splits <= length lines) by lia.
  unfold Splitter.split_jsonl in Hok.
  replace (num_splits =? 0)%Z with false in Hok
    by (symmetry; apply Z.eqb_neq; lia).
  destruct (for_each_ok_inv _ _ _ Hok i) as [st' Hbody].
  { unfold Splitter.range. apply in_map_iff. exists (Z.to_nat i).
    split; [lia|]. apply in_seq. lia. }
  apply split_chunk_ok in Hbody as (first & v & c & Hhd & Hv & Hc).
  replace num_splits with (Z.of_nat (Z.to_nat num_splits)) in Hhd by lia.
  replace i with (Z.of_nat (Z.to_nat i)) in Hhd by lia.
  rewrite slice_is_chunk in Hhd by lia.
  rewrite chunk_head in Hhd by lia.
  exists first, v, c. split; [|split; assumption].
  rewrite <- Hhd. f_equal.
  rewrite <- (Z2Nat.id num_splits) at 1 by lia.
  rewrite <- Nat2Z.inj_div. nia.
Qed.

End SplitterContract.

Section SplitterRuns.
#[local] Existing Instance Ref.ref_json.

(** C5, witness: five records split in two. *)
Lemma split_partitions_source_witness :
  fst (Splitter.split_jsonl five_records 2) = Ok tt
  /\ Splitter.written (snd (Splitter.split_jsonl five_records 2))
     = [ ("train_split_01.jsonl", firstn 2 five_records);
         ("train_split_02.jsonl", skipn 2 five_records) ]
  /\ Splitter.concat_sorted
       (Splitter.directory_of
          (Splitter.written (snd (Splitter.split_jsonl five_records 2))))
     = five_records.
Proof.
  assert (Hn : 1 <= 2 <= length five_records) by (simpl; lia).
  assert (Hrec : forall i, i < 2 ->
            record_at five_records (i * (length five_records / 2))).
  { intros [|[|i]] Hi; [| |lia];
      eexists; eexists; eexists;
      (split; [vm_compute; reflexivity|]);
      (split; vm_compute; reflexivity). }
  pose proof (split_partitions_source five_records 2 Hn Hrec)
    as (Hok & _ & _ & _ & _ & Hsorted).
  split; [exact Hok|]. split; [vm_compute; reflexivity|].
  apply Hsorted. lia.
Defined.

(** C5, counterexample: a source of one line split in two.  The run writes
    one empty chunk file and aborts: there are not two chunk files, and
    reading the directory by sorted name does not give back the source. *)
Lemma split_one_line_in_two :
  let lines := [ Ref.js "{'case_id': 'A', 'case_no': '1'}" ] in
  let run := Splitter.split_jsonl lines 2 in
  fst run = Raise IndexError
  /\ Splitter.written (snd run) = [ ("train_split_01.jsonl", []) ]
  /\ Splitter.concat_sorted (Splitter.directory_of (Splitter.written (snd run)))
     <> lines.
Proof. cbv zeta. vm_compute. repeat split. discriminate. Qed.

(** With 100 chunks the names no longer sort in the order written:
    train_split_100.jsonl comes before train_split_11.jsonl, and the
    directory read by sorted name is not the source. *)
Example split_hundred_chunks_misordered :
  let run := Splitter.split_jsonl hundred_records 100 in
  fst run = Ok tt
  /\ flat_map snd (Splitter.written (snd run)) = hundred_records
  /\ Splitter.concat_sorted (Splitter.directory_of (Splitter.written (snd run)))
     <> hundred_records.
Proof.
  cbv zeta. split; [vm_compute; reflexivity|].
  split; [vm_compute; reflexivity|].
  intros E. apply (f_equal (fun l => nth_error l 10)) in E.
  vm_compute in E. discriminate.
Qed.

(** C10, witness: three records asked to be split in five. *)
Lemma split_aborts_on_short_source_witness :
  Splitter.split_jsonl (firstn 3 five_records) 5
  = (Raise IndexError,
     {| Splitter.written := [("train_split_01.jsonl", [])];
        Splitter.split_log := [] |}).
Proof.
  refine (proj2 (proj2 (split_aborts_on_short_source
                          (firstn 3 five_records) 5) _)).
  simpl. lia.
Defined.

End SplitterRuns.

(* ================================================================== *)
(** ** Identifiers and their equality *)

Lemma key_eqb_code a b :
  key_eqb a b = true <-> exists c, key_code a = Some c /\ key_code b = Some c.
Proof.
  destruct a as [ |x|x|x| | ], b as [ |y|y|y| | ]; simpl;
    split; try discriminate;
    try (intros (c & [= <-] & [=]); fail);
    try (intros (c & [=] & _); fail);
    try (intros (c & _ & [=]); fail).
  - eauto.
  - auto.
  - intros E. apply Bool.eqb_prop in E as ->. eauto.
  - intros (c & [= <-] & [= E]). destruct x, y; try reflexivity; discriminate.
  - intros E. apply Z.eqb_eq in E as <-. eauto.
  - intros (c & [= <-] & [= E]). apply Z.eqb_eq. now destruct x.
  - intros E. apply Z.eqb_eq in E as <-. eauto.
  - intros (c & [= <-] & [= E]). apply Z.eqb_eq. now destruct y.
  - intros E. apply Z.eqb_eq in E as ->. eauto.
  - intros (c & [= <-] & [= E]). now apply Z.eqb_eq.
  - intros E. apply String.eqb_eq in E as ->. eauto.
  - intros (c & [= <-] & [= E]). now apply String.eqb_eq.
Qed.

Lemma key_eqb_sym a b : key_eqb a b = key_eqb b a.
Proof.
  destruct (key_eqb a b) eqn:E1, (key_eqb b a) eqn:E2; try reflexivity.
  - apply key_eqb_code in E1 as (c & Ha & Hb).
    assert (key_eqb b a = true) by (apply key_eqb_code; eauto). congruence.
  - apply key_eqb_code in E2 as (c & Ha & Hb).
    assert (key_eqb a b = true) by (apply key_eqb_code; eauto). congruence.
Qed.

Lemma key_eqb_trans a b c :
  key_eqb a b = true -> key_eqb b c = true -> key_eqb a c = true.
Proof.
  intros H1 H2. apply key_eqb_code in H1 as (x & Ha & Hb).
  apply key_eqb_code in H2 as (y & Hb' & Hc).
  apply key_eqb_code. exists x. split; congruence.
Qed.

Lemma key_eqb_refl_hashable a : hashable a = true -> key_eqb a a = true.
Proof.
  intros Ha. apply key_eqb_code. destruct a; try discriminate; simpl; eauto.
Qed.

(** Equal identifiers are equal to the same identifiers. *)
Lemma key_eqb_congr a b x : key_eqb a b = true -> key_eqb a x = key_eqb b x.
Proof.
  intros Hab. destruct (key_eqb b x) eqn:E.
  - eapply key_eqb_trans; eassumption.
  - destruct (key_eqb a x) eqn:E'; [|reflexivity].
    rewrite key_eqb_sym in Hab.
    rewrite (key_eqb_trans _ _ _ Hab E') in E. discriminate.
Qed.

(* ================================================================== *)
(** ** Split Validator *)

Lemma counter_get_add x y c :
  counter_get x (Validator.counter_add y c)
  = counter_get x c + (if key_eqb y x then 1 else 0).
Proof.
  unfold counter_get.
  induction c as [|[y0 n] rest IH]; simpl.
  - destruct (key_eqb y x); reflexivity.
  - destruct (key_eqb y0 y) eqn:E0; simpl.
    + rewrite <- (key_eqb_congr y0 y x E0).
      destruct (key_eqb y0 x); simpl; lia.
    + destruct (key_eqb y0 x) eqn:E1; simpl.
      * destruct (key_eqb y x) eqn:E2; [|lia].
        rewrite key_eqb_sym in E2.
        rewrite (key_eqb_trans _ _ _ E1 E2) in E0. discriminate.
      * exact IH.
Qed.

Lemma counter_get_fold x ids c :
  counter_get x (fold_left (fun c y => Validator.counter_add y c) ids c)
  = counter_get x c + occurrences x ids.
Proof.
  unfold occurrences.
  revert c; induction ids as [|y rest IH]; intros c; simpl.
  - lia.
  - rewrite IH, counter_get_add.
    destruct (key_eqb y x); simpl; lia.
Qed.

(** The count a [Counter] holds for an identifier is the number of its
    occurrences. *)
Lemma counter_counts x ids :
  counter_get x (Validator.counter_of ids) = occurrences x ids.
Proof.
  unfold Validator.counter_of. now rewrite counter_get_fold.
Qed.


(** An identifier that occurs twice is among the duplicates the validator
    collects. *)
Lemma duplicates_found ids x :
  2 <= occurrences x ids ->
  Validator.is_empty
    (filter (fun p => (1 <? snd p)%nat) (Validator.counter_of ids)) = false.
Proof.
  intros Hocc. rewrite <- counter_counts in Hocc. unfold counter_get in Hocc.
  destruct (find (fun p => key_eqb (fst p) x) (Validator.counter_of ids))
    as [p|] eqn:F; [|lia].
  apply find_some in F as [Hin _].
  destruct (filter _ _) as [|q rest] eqn:E; [|reflexivity].
  assert (Hp : In p (filter (fun p => (1 <? snd p)%nat)
                        (Validator.counter_of ids))).
  { apply filter_In. split; [assumption|]. apply Nat.ltb_lt. lia. }
  rewrite E in Hp. contradiction.
Qed.

Lemma set_of_hashable ids :
  forallb hashable ids = true ->
  Validator.set_of ids
  = Ok (fold_left (fun s x => Validator.set_add x s) ids []).
Proof. intros Hh. unfold Validator.set_of. now rewrite Hh. Qed.

(** The checks on two non-empty lists of hashable identifiers: all six are
    reported, then the verdict, which is the conjunction of the four hard
    checks. *)
Lemma run_checks_returns original split log :
  forallb hashable original = true -> forallb hashable split = true ->
  original <> [] -> split <> [] ->
  let count_ok := (length original =? length split)%nat in
  let duplicates :=
    filter (fun p => (1 <? snd p)%nat) (Validator.counter_of split) in
  let original_set :=
    fold_left (fun s x => Validator.set_add x s) original [] in
  let split_set := fold_left (fun s x => Validator.set_add x s) split [] in
  let missing := Validator.set_diff original_set split_set in
  let extra := Validator.set_diff split_set original_set in
  let verdict :=
    count_ok && Validator.is_empty duplicates && Validator.is_empty missing
    && Validator.is_empty extra in
  exists first last,
    Validator.run_checks original split log
    = (Ok verdict,
       log ++ [ if count_ok then Validator.CountPass
                else Validator.CountFail (length original) (length split);
                if Validator.is_empty duplicates then Validator.DuplicatesPass
                else Validator.DuplicatesFail (length duplicates)
                       (firstn 5 duplicates);
                if Validator.is_empty missing then Validator.MissingPass
                else Validator.MissingFail (length missing);
                if Validator.is_empty extra then Validator.ExtraPass
                else Validator.ExtraFail (length extra);
                first; last;
                if verdict then Validator.AllPassed
                else Validator.ValidationFailed ])
    /\ (first = Validator.FirstPass
        \/ exists a b, first = Validator.FirstWarning a b)
    /\ (last = Validator.LastPass
        \/ exists a b, last = Validator.LastWarning a b).
Proof.
  intros Ho Hs Hne Hnes. cbv zeta.
  unfold Validator.run_checks, Validator.Counter, Validator.say.
  rewrite (set_of_hashable _ Ho), (set_of_hashable _ Hs), Hs.
  destruct original as [|o0 orest]; [congruence|].
  destruct split as [|s0 srest]; [congruence|].
  eff_unfold. cbn [Validator.first_of Validator.last_of].
  do 2 eexists. split.
  - rewrite <- !app_assoc. cbn [app]. reflexivity.
  - split.
    + destruct (key_eqb o0 s0); eauto.
    + destruct (key_eqb _ _); eauto.
Qed.

Section ValidatorContract.
Context `{JsonLib}.






End ValidatorContract.

Section ValidatorRuns.
#[local] Existing Instance Ref.ref_json.


(** The report on the two-part case: every check passes but the duplicate
    check, which counts [case_id] X twice. *)
Example two_part_case_report :
  Validator.validate_split two_part_case
    [("train_split_01.jsonl", two_part_case)]
  = (Ok false,
     [ Validator.CountPass;
       Validator.DuplicatesFail 1 [(JStr "X", 2)];
       Validator.MissingPass; Validator.ExtraPass;
       Validator.FirstPass; Validator.LastPass;
       Validator.ValidationFailed ]).
Proof. vm_compute. reflexivity. Qed.

(** C8, at the failing inputs: with no chunk file in the directory, and
    with an empty source and an empty chunk, the four hard checks are
    reported and the run then ends in [IndexError] at the first-identifier
    check: the last-identifier check is not made and no verdict is
    returned. *)
Theorem validator_aborts_at_order_check :
  Validator.validate_split [ Ref.js "{'case_id': 'A', 'case_no': '1'}" ] []
  = (Raise IndexError,
     [ Validator.CountFail 1 0; Validator.DuplicatesPass;
       Validator.MissingFail 1; Validator.ExtraPass ])
  /\ Validator.validate_split [] [("train_split_01.jsonl", [])]
     = (Raise IndexError,
        [ Validator.CountPass; Validator.DuplicatesPass;
          Validator.MissingPass; Validator.ExtraPass ]).
Proof. split; vm_compute; reflexivity. Qed.

End ValidatorRuns.

(* ================================================================== *)
(** ** Merger: the load phase *)

Lemma key_eq_sym a b : Merger.key_eq a b = Merger.key_eq b a.
Proof.
  unfold Merger.key_eq.
  now rewrite (key_eqb_sym (fst a)), (key_eqb_sym (snd a)).
Qed.

Lemma key_eq_congr a b x :
  Merger.key_eq a b = true -> Merger.key_eq a x = Merger.key_eq b x.
Proof.
  unfold Merger.key_eq. intros Hab. apply andb_prop in Hab as [H1 H2].
  now rewrite (key_eqb_congr _ _ (fst x) H1), (key_eqb_congr _ _ (snd x) H2).
Qed.

Lemma key_eq_disjoint a b x :
  Merger.key_eq a b = false -> Merger.key_eq a x = true ->
  Merger.key_eq b x = false.
Proof.
  intros Hab Hax. destruct (Merger.key_eq b x) eqn:E; [|reflexivity].
  rewrite (key_eq_congr a x b Hax) in Hab.
  rewrite key_eq_sym in E. congruence.
Qed.

(** Reading a key after a store: the stored payload under an equal key, the
    old entry under any other. *)
Lemma cdict_get_set k k0 c d :
  Merger.cdict_get k (Merger.cdict_set k0 c d)
  = if Merger.key_eq k0 k then Some c else Merger.cdict_get k d.
Proof.
  induction d as [|[k1 c1] rest IH]; simpl.
  - reflexivity.
  - destruct (Merger.key_eq k1 k0) eqn:E10; simpl.
    + rewrite (key_eq_congr k1 k0 k E10).
      destruct (Merger.key_eq k0 k); reflexivity.
    + destruct (Merger.key_eq k1 k) eqn:E1.
      * now rewrite (key_eq_disjoint k1 k0 k E10 E1).
      * exact IH.
Qed.

Lemma steps_folds {St A B} (step : nat -> string -> St -> St)
    (proj : St -> B) (g : B -> A -> B) (contrib : nat * string -> list A) :
  (forall n line st,
     proj (step n line st) = fold_left g (contrib (n, line)) (proj st)) ->
  forall lines n st,
    proj (steps step n lines st)
    = fold_left g (flat_map contrib (numbered n lines)) (proj st).
Proof.
  intros Hstep lines; induction lines as [|line rest IH]; intros n st; simpl.
  - reflexivity.
  - now rewrite IH, Hstep, fold_left_app.
Qed.

Section LoadPhase.
Context `{JsonLib}.

Lemma load_line_contained file n line st :
  fst (try_except (Merger.load_line file n line)
                  (Merger.load_handler file n) st) = Ok tt.
Proof.
  load_cases line.
  all: eff_unfold; destruct (Merger.cdict_mem _ _); reflexivity.
Qed.

Lemma load_step_mapping file n line st :
  (Merger.classifications (load_step file n line st),
   Merger.duplicates (load_step file n line st))
  = fold_left apply_occurrence (line_occurrence file (n, line))
      (Merger.classifications st, Merger.duplicates st).
Proof.
  load_cases line.
  all: eff_unfold; destruct (Merger.cdict_mem _ _); simpl;
    try reflexivity; now rewrite app_nil_r.
Qed.

Lemma load_step_log file n line st :
  Merger.load_log (load_step file n line st)
  = Merger.load_log st ++ load_events file (n, line).
Proof.
  load_cases line.
  all: eff_unfold; destruct (Merger.cdict_mem _ _); simpl;
    try reflexivity; now rewrite app_nil_r.
Qed.

Lemma load_file_steps f st :
  Merger.load_file f st = (Ok tt, steps (load_step (fst f)) 1 (snd f) st).
Proof.
  unfold Merger.load_file. rewrite for_lines_steps; [reflexivity|].
  intros; apply load_line_contained.
Qed.

Lemma load_files_fold files st :
  Merger.load_files files st = (Ok tt, load_files_state files st).
Proof.
  revert st; induction files as [|f rest IH]; intros st; simpl.
  - reflexivity.
  - unfold bind. rewrite load_file_steps. apply IH.
Qed.

Lemma load_files_mapping files st :
  (Merger.classifications (load_files_state files st),
   Merger.duplicates (load_files_state files st))
  = fold_left apply_occurrence (occurrences_of files)
      (Merger.classifications st, Merger.duplicates st).
Proof.
  unfold load_files_state, occurrences_of.
  revert st; induction files as [|f rest IH]; intros st; simpl.
  - reflexivity.
  - rewrite IH, fold_left_app. f_equal.
    apply (steps_folds (load_step (fst f))
             (fun st => (Merger.classifications st, Merger.duplicates st))
             apply_occurrence (line_occurrence (fst f))).
    intros; apply load_step_mapping.
Qed.

Lemma load_files_log files st :
  Merger.load_log (load_files_state files st)
  = Merger.load_log st
    ++ flat_map (fun f => flat_map (load_events (fst f)) (numbered 1 (snd f)))
         files.
Proof.
  unfold load_files_state.
  revert st; induction files as [|f rest IH]; intros st; simpl.
  - now rewrite app_nil_r.
  - rewrite IH.
    rewrite (steps_appends (load_step (fst f)) Merger.load_log
               (load_events (fst f))).
    + now rewrite app_assoc.
    + intros; apply load_step_log.
Qed.

End LoadPhase.

Lemma fold_newer_payload k occ acc :
  fold_left (newer_payload k) occ acc
  = match fold_left (newer_payload k) occ None with
    | Some c => Some c
    | None => acc
    end.
Proof.
  revert acc; induction occ as [|o rest IH]; intros acc; simpl.
  - reflexivity.
  - unfold newer_payload at 2 4.
    destruct (Merger.key_eq (occ_key o) k); [|apply IH].
    rewrite (IH (Some (occ_payload o))).
    destruct (fold_left (newer_payload k) rest None); reflexivity.
Qed.

Lemma mapping_fold k occ d dl :
  Merger.cdict_get k (fst (fold_left apply_occurrence occ (d, dl)))
  = fold_left (newer_payload k) occ (Merger.cdict_get k d).
Proof.
  revert d dl; induction occ as [|o rest IH]; intros d dl; simpl.
  - reflexivity.
  - unfold apply_occurrence at 2. cbn [fst snd].
    rewrite IH, cdict_get_set. reflexivity.
Qed.

(** The mapping after a sequence of occurrences holds, for every key, the
    payload of its last occurrence. *)
Lemma mapping_last_payload k occ d dl :
  Merger.cdict_get k (fst (fold_left apply_occurrence occ (d, dl)))
  = match last_payload k occ with
    | Some c => Some c
    | None => Merger.cdict_get k d
    end.
Proof. rewrite mapping_fold. apply fold_newer_payload. Qed.

Lemma last_payload_app k occ1 occ2 :
  last_payload k (occ1 ++ occ2)
  = match last_payload k occ2 with
    | Some c => Some c
    | None => last_payload k occ1
    end.
Proof.
  unfold last_payload. rewrite fold_left_app.
  apply (fold_newer_payload k occ2).
Qed.

(** The duplicates after a sequence of occurrences are its re-occurrences. *)
Lemma duplicates_reoccurrences occ d dl seen :
  (forall k, Merger.cdict_mem k d
             = existsb (fun k' => Merger.key_eq k' k) seen) ->
  snd (fold_left apply_occurrence occ (d, dl)) = dl ++ reoccurrences seen occ.
Proof.
  revert d dl seen; induction occ as [|o rest IH]; intros d dl seen Hseen.
  - simpl. now rewrite app_nil_r.
  - simpl. unfold apply_occurrence at 2. cbn [fst snd].
    rewrite (IH _ _ (occ_key o :: seen)).
    + rewrite Hseen, <- app_assoc. reflexivity.
    + intros k. unfold Merger.cdict_mem. rewrite cdict_get_set. simpl.
      destruct (Merger.key_eq (occ_key o) k); [reflexivity|].
      apply Hseen.
Qed.

(* ------------------------------------------------------------------ *)
(** *** The order of file names *)

Lemma ascii_compare_trans a b c :
  Ascii.compare a b = Lt -> Ascii.compare b c = Lt -> Ascii.compare a c = Lt.
Proof.
  unfold Ascii.compare. rewrite !N.compare_lt_iff. lia.
Qed.

Lemma string_lt_trans a b c :
  String.compare a b = Lt -> String.compare b c = Lt ->
  String.compare a c = Lt.
Proof.
  revert b c; induction a as [|x a IH]; intros [|y b] [|z c]; simpl;
    try discriminate; try reflexivity.
  destruct (Ascii.compare x y) eqn:Exy; try discriminate.
  - apply Ascii.compare_eq_iff in Exy as ->.
    destruct (Ascii.compare y z); try discriminate; [apply IH|reflexivity].
  - intros _. destruct (Ascii.compare y z) eqn:Eyz; try discriminate.
    + apply Ascii.compare_eq_iff in Eyz as <-. now rewrite Exy.
    + intros _. now rewrite (ascii_compare_trans _ _ _ Exy Eyz).
Qed.

Lemma string_compare_refl a : String.compare a a = Eq.
Proof.
  induction a as [|x a IH]; simpl; [reflexivity|].
  unfold Ascii.compare. now rewrite N.compare_refl.
Qed.

Lemma leb_trans a b c :
  String.leb a b = true -> String.leb b c = true -> String.leb a c = true.
Proof.
  unfold String.leb.
  destruct (String.compare a b) eqn:Eab; try discriminate; intros _.
  - apply String.compare_eq_iff in Eab as ->. trivial.
  - destruct (String.compare b c) eqn:Ebc; try discriminate; intros _.
    + apply String.compare_eq_iff in Ebc as <-. now rewrite Eab.
    + now rewrite (string_lt_trans _ _ _ Eab Ebc).
Qed.

Lemma leb_neq_ltb a b :
  String.leb a b = true -> a <> b -> String.ltb a b = true.
Proof.
  unfold String.leb, String.ltb.
  destruct (String.compare a b) eqn:E; try discriminate; [|reflexivity].
  apply String.compare_eq_iff in E. congruence.
Qed.

Section Sorting.
Variable A : Type.
Variable name : A -> string.

Lemma insert_by_perm x l : Permutation (x :: l) (insert_by name x l).
Proof.
  induction l as [|y rest IH]; simpl; [reflexivity|].
  destruct (String.leb (name x) (name y)); [reflexivity|].
  rewrite perm_swap. now constructor.
Qed.

Lemma sorted_by_perm l : Permutation l (sorted_by name l).
Proof.
  induction l as [|x rest IH]; simpl; [constructor|].
  rewrite <- insert_by_perm. now constructor.
Qed.

Lemma insert_by_sorted x l :
  StronglySorted (name_le name) l ->
  StronglySorted (name_le name) (insert_by name x l).
Proof.
  induction 1 as [|y rest Hrest IH Hy]; simpl.
  - repeat constructor.
  - destruct (String.leb (name x) (name y)) eqn:E.
    + constructor; [now constructor|].
      constructor; [exact E|].
      eapply Forall_impl; [|exact Hy].
      intros z Hz. unfold name_le in *. eapply leb_trans; eassumption.
    + constructor; [exact IH|].
      assert (Hyx : name_le name y x).
      { unfold name_le. destruct (String.leb_total (name x) (name y));
          congruence. }
      eapply Permutation_Forall; [apply insert_by_perm|].
      now constructor.
Qed.

Lemma sorted_by_sorted l : StronglySorted (name_le name) (sorted_by name l).
Proof.
  induction l as [|x rest IH]; simpl; [constructor|].
  now apply insert_by_sorted.
Qed.

(** Sorting commutes with a change of the files that keeps their names. *)
Lemma sorted_by_related (R : A -> A -> Prop) l l' :
  (forall x y, R x y -> name x = name y) ->
  Forall2 R l l' -> Forall2 R (sorted_by name l) (sorted_by name l').
Proof.
  intros Hname. induction 1 as [|x x' rest rest' Hx _ IH]; simpl.
  - constructor.
  - clear - Hname Hx IH. induction IH as [|y y' s s' Hy Hs IHs]; simpl.
    + now repeat constructor.
    + rewrite <- (Hname _ _ Hx), <- (Hname _ _ Hy).
      destruct (String.leb (name x) (name y)).
      * constructor; [assumption|]. now constructor.
      * constructor; assumption.
Qed.

Lemma filter_related (R : A -> A -> Prop) (p : A -> bool) l l' :
  (forall x y, R x y -> p x = p y) ->
  Forall2 R l l' -> Forall2 R (filter p l) (filter p l').
Proof.
  intros Hp. induction 1 as [|x x' rest rest' Hx _ IH]; simpl.
  - constructor.
  - rewrite <- (Hp _ _ Hx). destruct (p x); [now constructor|assumption].
Qed.

End Sorting.

Lemma sorted_after {A} (R : A -> A -> Prop) l1 x l2 :
  StronglySorted R (l1 ++ x :: l2) -> Forall (R x) l2.
Proof.
  induction l1 as [|y l1 IH]; simpl; intros Hs.
  - now apply StronglySorted_inv in Hs.
  - apply StronglySorted_inv in Hs as [Hs _]. now apply IH.
Qed.

(** Leaving files out of a directory keeps its names distinct. *)
Lemma distinct_names_filter (keep : string * list string -> bool)
    (dir : list (string * list string)) :
  NoDup (map fst dir) -> NoDup (map fst (filter keep dir)).
Proof.
  intros Hnd. induction dir as [|f dir IH]; simpl; [constructor|].
  simpl in Hnd. apply NoDup_cons_iff in Hnd as [Hf Hrest].
  destruct (keep f); simpl; [|now apply IH].
  apply NoDup_cons_iff. split; [|now apply IH].
  intros Hin. apply Hf. apply in_map_iff in Hin as (g & Hg & Hin).
  apply in_map_iff. exists g. split; [assumption|].
  now apply filter_In in Hin as [Hin _].
Qed.

Section LoadContract.
Context `{JsonLib}.

Lemma last_payload_none_files k files :
  (forall f, In f files -> last_payload k (file_occurrences f) = None) ->
  last_payload k (occurrences_of files) = None.
Proof.
  unfold occurrences_of.
  induction files as [|f rest IH]; intros Hnone; simpl; [reflexivity|].
  rewrite last_payload_app, IH.
  - apply Hnone. now left.
  - intros g Hg. apply Hnone. now right.
Qed.

(** C4: the load phase reads the result files in sorted order of their
    names and the lines of each in file order; for every re-occurrence of a
    composite key it appends a duplicate record holding the key, the file
    and the line number; and the mapping it returns holds for every key the
    payload of the last occurrence read.  So when a key occurs in several
    files, the file whose name sorts last among them decides its entry. *)
Theorem load_last_write_wins (dir : list (string * list string)) :
  let run := Merger.load_classifications dir in
  let occ := occurrences_of (Merger.result_files dir) in
  fst run = Ok tt
  /\ Merger.duplicates (snd run) = reoccurrences [] occ
  /\ (forall k,
        Merger.cdict_get k (Merger.classifications (snd run))
        = last_payload k occ)
  /\ (forall last_file k c,
        NoDup (map fst dir) -> In last_file dir ->
        Merger.is_result_file (fst last_file) = true ->
        last_payload k (file_occurrences last_file) = Some c ->
        (forall f, In f dir -> Merger.is_result_file (fst f) = true ->
                   String.ltb (fst last_file) (fst f) = true ->
                   last_payload k (file_occurrences f) = None) ->
        Merger.cdict_get k (Merger.classifications (snd run)) = Some c).
Proof.
  cbv zeta. unfold Merger.load_classifications.
  rewrite load_files_fold. cbn [fst snd].
  pose proof (load_files_mapping (Merger.result_files dir) Merger.load_init)
    as Hmap.
  cbn [Merger.load_init Merger.classifications Merger.duplicates] in Hmap.
  assert (Hcls : forall k,
            Merger.cdict_get k
              (Merger.classifications
                 (load_files_state (Merger.result_files dir) Merger.load_init))
            = last_payload k (occurrences_of (Merger.result_files dir))).
  { intros k.
    pose proof (mapping_last_payload k
                  (occurrences_of (Merger.result_files dir)) [] []) as E.
    rewrite <- Hmap in E. cbn [fst] in E. rewrite E.
    now destruct (last_payload k _). }
  split; [reflexivity|]. split; [|split; [exact Hcls|]].
  - pose proof (duplicates_reoccurrences
                  (occurrences_of (Merger.result_files dir)) [] [] [])
      as E.
    rewrite <- Hmap in E. cbn [snd] in E. apply E. reflexivity.
  - intros fb k c Hnd Hin Hres Hlast Hlater. rewrite Hcls.
    set (S := Merger.result_files dir).
    assert (Hperm : Permutation
                      (filter (fun f => Merger.is_result_file (fst f)) dir) S)
      by apply sorted_by_perm.
    assert (HinS : In fb S).
    { eapply Permutation_in; [exact Hperm|]. apply filter_In. now split. }
    destruct (in_split _ _ HinS) as (S1 & S2 & HS).
    assert (Hsorted : StronglySorted (name_le fst) S)
      by apply sorted_by_sorted.
    assert (HndS : NoDup (map fst S)).
    { eapply Permutation_NoDup; [apply Permutation_map; exact Hperm|].
      now apply distinct_names_filter. }
    rewrite HS in Hsorted, HndS.
    apply sorted_after in Hsorted.
    rewrite map_app in HndS. simpl in HndS. apply NoDup_remove_2 in HndS.
    assert (Hnone : forall f, In f S2 ->
              last_payload k (file_occurrences f) = None).
    { intros f Hf.
      assert (HfS : In f S) by (rewrite HS; apply in_or_app; right; now right).
      apply (Permutation_in _ (Permutation_sym Hperm)) in HfS.
      apply filter_In in HfS as [Hfdir Hfres].
      apply Hlater; [assumption|assumption|].
      apply leb_neq_ltb.
      - rewrite Forall_forall in Hsorted. now apply Hsorted.
      - intros Heq. apply HndS. apply in_or_app. right.
        rewrite Heq. now apply in_map. }
    rewrite HS. unfold occurrences_of.
    rewrite flat_map_app. simpl.
    rewrite !last_payload_app.
    fold (occurrences_of S2). rewrite (last_payload_none_files k S2 Hnone).
    now rewrite Hlast.
Qed.

End LoadContract.

Section LoaderRuns.
#[local] Existing Instance Ref.ref_json.

(** C4, witness: key (A, 1) occurs in both result files, listed here in the
    reverse of their sorted order; the entry is the payload of file 02. *)
Lemma load_last_write_wins_witness :
  Merger.cdict_get (JStr "A", JStr "1")
    (Merger.classifications
       (snd (Merger.load_classifications two_result_files)))
  = Some (JObj [("gender", JStr "Male"); ("confidence", JStr "High")]).
Proof.
  refine (proj2 (proj2 (proj2 (load_last_write_wins two_result_files)))
            ("gender_classifications_results_02.jsonl",
             [ Ref.js "{'case_id': 'A', 'case_no': '1', 'classification': {'gender': 'Male', 'confidence': 'High'}}" ])
            (JStr "A", JStr "1") _ _ _ _ _ _).
  - apply distinct_NoDup. vm_compute. reflexivity.
  - now left.
  - vm_compute. reflexivity.
  - vm_compute. reflexivity.
  - intros f [<-|[<-|[<-|[]]]] Hres Hlt; vm_compute in Hres, Hlt;
      discriminate.
Defined.

(** The state the load of the two result files ends in. *)
Example two_result_files_loaded :
  snd (Merger.load_classifications two_result_files)
  = {| Merger.classifications :=
         [ ((JStr "A", JStr "1"),
            JObj [("gender", JStr "Male"); ("confidence", JStr "High")]);
           ((JStr "B", JStr "7"),
            JObj [("gender", JStr "Unknown"); ("confidence", JStr "N/A")]) ];
       Merger.duplicates :=
         [ {| Merger.dup_case_id := JStr "A"; Merger.dup_case_no := JStr "1";
              Merger.dup_file := "gender_classifications_results_02.jsonl";
              Merger.dup_line := 1 |} ];
       Merger.total_loaded := 3;
       Merger.load_log :=
         [ Merger.LoadJsonError "gender_classifications_results_01.jsonl" 2 ]
    |}.
Proof. vm_compute. reflexivity. Qed.

End LoaderRuns.

(* ================================================================== *)
(** ** Malformed lines *)

Lemma steps_log_grows {St E} (step : nat -> string -> St -> St)
    (log : St -> list E) :
  (forall n line st, exists more, log (step n line st) = log st ++ more) ->
  forall lines n st ev, In ev (log st) -> In ev (log (steps step n lines st)).
Proof.
  intros Hgrow lines; induction lines as [|line rest IH]; intros n st ev Hin.
  - exact Hin.
  - simpl. apply IH. destruct (Hgrow n line st) as [more ->].
    apply in_or_app. now left.
Qed.

Lemma mapping_entries occ d dl :
  fst (fold_left apply_occurrence occ (d, dl))
  = fold_left store_entry (map (fun o => (occ_key o, occ_payload o)) occ) d.
Proof.
  revert d dl; induction occ as [|o rest IH]; intros d dl; simpl.
  - reflexivity.
  - unfold apply_occurrence at 2. cbn [fst snd]. now rewrite IH.
Qed.

Section MalformedLines.
Context `{JsonLib} `{ReLib} `{DateLib}.

Lemma merge_step_malformed cls n bad st :
  json_loads bad = None ->
  Merger.merge_log (merge_step cls n bad st)
  = Merger.merge_log st ++ [Merger.MergeJsonError n].
Proof.
  intros Hbad. unfold merge_step, Merger.merge_line, Merger.merge_handler,
    Merger.merge_print, loads. eff_unfold. now rewrite Hbad.
Qed.

Lemma merge_log_grows cls n line st :
  exists more,
    Merger.merge_log (merge_step cls n line st) = Merger.merge_log st ++ more.
Proof.
  unfold merge_step, Merger.merge_line, Merger.merge_handler, loads.
  eff_unfold.
  destruct (json_loads line) as [[ | | | | |fields]|]; simpl;
    try (eexists; reflexivity).
  name_fields.
  destruct (negb (truthy field) || negb (truthy field0)); simpl;
    [eexists; reflexivity|].
  destruct (Merger.key_hashable (field, field0)); simpl;
    [|eexists; reflexivity].
  destruct (Merger.cdict_get (field, field0) cls); simpl.
  - exists []. now rewrite app_nil_r.
  - eexists; reflexivity.
Qed.

Lemma process_step_malformed n bad st :
  json_loads bad = None ->
  AgeExtractor.extract_log (process_step n bad st)
  = AgeExtractor.extract_log st ++ [AgeExtractor.ExtractJsonError n].
Proof.
  intros Hbad. unfold process_step, AgeExtractor.process_line,
    AgeExtractor.process_handler, AgeExtractor.extract_print, loads.
  eff_unfold. now rewrite Hbad.
Qed.

Lemma extract_log_grows n line st :
  exists more,
    AgeExtractor.extract_log (process_step n line st)
    = AgeExtractor.extract_log st ++ more.
Proof.
  unfold process_step, AgeExtractor.process_line,
    AgeExtractor.process_handler, loads.
  eff_unfold.
  destruct (json_loads line) as [[ | | | | |fields]|]; simpl;
    try (eexists; reflexivity).
  name_fields.
  destruct field as [ | | | | |cfields]; simpl; try (eexists; reflexivity).
  name_fields.
  repeat match goal with
  | |- context [is_str ?a ?s] => destruct (is_str a s); simpl
  end;
  try (exists []; now rewrite app_nil_r);
  (destruct (AgeExtractor.extract_birth_year _) as [birth|[]]; simpl;
   try (eexists; reflexivity);
   destruct (AgeExtractor.extract_direct_age _) as [direct|[]]; simpl;
   try (eexists; reflexivity);
   unfold AgeExtractor.bump_if, AgeExtractor.count_decade; eff_unfold;
   repeat match goal with
   | |- context [if ?c then _ else _] => destruct c; simpl
   | |- context [match ?c with Some _ => _ | None => _ end] =>
       destruct c; simpl
   end; exists []; now rewrite app_nil_r).
Qed.

Lemma file_entries_numbered file n lines :
  map (fun o => (occ_key o, occ_payload o))
      (flat_map (line_occurrence file) (numbered n lines))
  = line_entries lines.
Proof.
  unfold line_entries.
  revert n; induction lines as [|line rest IH]; intros n; simpl.
  - reflexivity.
  - rewrite map_app, IH. f_equal.
    unfold line_occurrence. cbn [snd].
    now destruct (load_entry line) as [[k c]|].
Qed.

Lemma occurrences_entries files :
  map (fun o => (occ_key o, occ_payload o)) (occurrences_of files)
  = flat_map (fun f => line_entries (snd f)) files.
Proof.
  unfold occurrences_of, file_occurrences.
  induction files as [|f rest IH]; simpl; [reflexivity|].
  now rewrite map_app, IH, file_entries_numbered.
Qed.

Lemma line_entries_malformed pre bad post :
  json_loads bad = None ->
  line_entries (pre ++ bad :: post) = line_entries (pre ++ post).
Proof.
  intros Hbad. unfold line_entries. rewrite !flat_map_app. simpl.
  unfold load_entry at 2. now rewrite Hbad.
Qed.

Lemma related_entries files files' :
  Forall2 (fun f f' : string * list string =>
             fst f = fst f' /\ line_entries (snd f) = line_entries (snd f'))
          files files' ->
  flat_map (fun f => line_entries (snd f)) files
  = flat_map (fun f => line_entries (snd f)) files'.
Proof.
  induction 1 as [|f f' rest rest' [_ He] _ IH]; simpl; [reflexivity|].
  now rewrite He, IH.
Qed.

Lemma read_case_ids_raises lines line :
  In line lines -> json_loads line = None ->
  exists e, Validator.read_case_ids lines = Raise e.
Proof.
  intros Hin Hbad. induction lines as [|l rest IH]; [contradiction|].
  simpl. unfold loads.
  destruct Hin as [->|Hin].
  - rewrite Hbad. eauto.
  - destruct (json_loads l) as [v|]; [|eauto].
    destruct (getitem v "case_id"); [|eauto].
    destruct (IH Hin) as [e ->]. eauto.
Qed.

Lemma read_split_ids_raises files f line :
  In f files -> In line (snd f) -> json_loads line = None ->
  exists e, Validator.read_split_ids files = Raise e.
Proof.
  intros Hf Hin Hbad. induction files as [|g rest IH]; [contradiction|].
  simpl. destruct Hf as [->|Hf].
  - destruct (read_case_ids_raises _ _ Hin Hbad) as [e ->]. eauto.
  - destruct (Validator.read_case_ids (snd g)); [|eauto].
    destruct (IH Hf) as [e ->]. eauto.
Qed.

Lemma slice_head (line : string) rest stop first :
  hd_error (slice (line :: rest) 0 stop) = Some first -> first = line.
Proof.
  unfold slice. cbn [Z.ltb Z.compare].
  rewrite (Z.min_l 0) by lia. cbn [Z.to_nat skipn].
  destruct (Z.to_nat _); simpl; congruence.
Qed.

End MalformedLines.

Section MalformedLineContract.
Context `{JsonLib} `{ReLib} `{DateLib}.

(** C3, as amended: in the Merger, load phase and merge phase, and in the
    Age Extractor, a line that fails to parse as JSON is caught where it
    stands, logged with its line number, and skipped: the run completes, and
    what it produces (the output file, the mapping, the entries) is what it
    produces without that line.  The Split Validator has no handler: a
    malformed line in the source or in a chunk file ends the run with the
    exception, before any check is reported.  The Splitter parses only the
    first line of each chunk, and a malformed first line ends the run. *)
Theorem malformed_line_containment :
  (forall cls pre bad post,
     json_loads bad = None ->
     let run := Merger.merge_with_train (pre ++ bad :: post) cls in
     fst run = Ok tt
     /\ In (Merger.MergeJsonError (S (length pre))) (Merger.merge_log (snd run))
     /\ Merger.outfile (snd run)
        = Merger.outfile (snd (Merger.merge_with_train (pre ++ post) cls)))
  /\ (forall d1 d2 name pre bad post,
        json_loads bad = None ->
        let run :=
          Merger.load_classifications
            (d1 ++ (name, pre ++ bad :: post) :: d2) in
        fst run = Ok tt
        /\ (Merger.is_result_file name = true ->
            In (Merger.LoadJsonError name (S (length pre)))
               (Merger.load_log (snd run)))
        /\ Merger.classifications (snd run)
           = Merger.classifications
               (snd (Merger.load_classifications
                       (d1 ++ (name, pre ++ post) :: d2))))
  /\ (forall pre bad post,
        json_loads bad = None ->
        let run := AgeExtractor.process_dataset (pre ++ bad :: post) in
        fst run = Ok tt
        /\ In (AgeExtractor.ExtractJsonError (S (length pre)))
              (AgeExtractor.extract_log (snd run))
        /\ AgeExtractor.results (snd run)
           = AgeExtractor.results
               (snd (AgeExtractor.process_dataset (pre ++ post))))
  /\ (forall original split_dir line,
        In line original -> json_loads line = None ->
        exists e, Validator.validate_split original split_dir = (Raise e, []))
  /\ (forall original split_dir f line,
        In f split_dir -> endswith (fst f) ".jsonl" = true ->
        In line (snd f) -> json_loads line = None ->
        exists e, Validator.validate_split original split_dir = (Raise e, []))
  /\ (forall line rest num_splits,
        (1 <= num_splits)%Z -> json_loads line = None ->
        exists e, fst (Splitter.split_jsonl (line :: rest) num_splits)
                  = Raise e).
Proof.
  split; [|split; [|split; [|split; [|split]]]].
  - intros cls pre bad post Hbad. cbv zeta.
    rewrite !merge_outfile. unfold Merger.merge_with_train.
    rewrite merge_loop_steps. cbn [fst snd].
    split; [reflexivity|]. split.
    + rewrite steps_app. simpl.
      apply (steps_log_grows (merge_step cls) Merger.merge_log).
      * intros; apply merge_log_grows.
      * rewrite merge_step_malformed by assumption.
        apply in_or_app. right. now left.
    + rewrite !flat_map_app. simpl. unfold written_for at 2.
      now rewrite Hbad.
  - intros d1 d2 name pre bad post Hbad. cbv zeta.
    unfold Merger.load_classifications. rewrite !load_files_fold.
    cbn [fst snd]. split; [reflexivity|]. split.
    + intros Hres. rewrite load_files_log. cbn [Merger.load_init Merger.load_log app].
      apply in_flat_map. exists (name, pre ++ bad :: post). split.
      * unfold Merger.result_files.
        eapply Permutation_in; [apply sorted_by_perm|].
        apply filter_In. split; [|exact Hres].
        apply in_or_app. right. now left.
      * cbn [fst snd]. apply in_flat_map.
        exists (S (length pre), bad). split.
        -- apply (numbered_nth 1 (pre ++ bad :: post) (length pre) bad).
           rewrite nth_error_app2 by lia. now rewrite Nat.sub_diag.
        -- unfold load_events. cbn [fst snd]. rewrite Hbad. now left.
    + pose proof (load_files_mapping
                    (Merger.result_files (d1 ++ (name, pre ++ bad :: post) :: d2))
                    Merger.load_init) as E1.
      pose proof (load_files_mapping
                    (Merger.result_files (d1 ++ (name, pre ++ post) :: d2))
                    Merger.load_init) as E2.
      apply (f_equal fst) in E1. apply (f_equal fst) in E2.
      cbn [fst Merger.load_init Merger.classifications Merger.duplicates]
        in E1, E2.
      rewrite E1, E2, !mapping_entries, !occurrences_entries.
      f_equal. apply related_entries.
      unfold Merger.result_files.
      apply sorted_by_related; [now intros x y [Hn _]|].
      apply filter_related; [now intros x y [-> _]|].
      apply Forall2_app; [|constructor].
      * clear. induction d1; constructor; [now split|assumption].
      * cbn [fst snd]. split; [reflexivity|].
        now apply line_entries_malformed.
      * clear. induction d2; constructor; [now split|assumption].
  - intros pre bad post Hbad. cbv zeta.
    rewrite !process_results. unfold AgeExtractor.process_dataset.
    rewrite process_loop_steps. cbn [fst snd].
    split; [reflexivity|]. split.
    + rewrite steps_app. simpl.
      apply (steps_log_grows process_step AgeExtractor.extract_log).
      * intros; apply extract_log_grows.
      * rewrite process_step_malformed by assumption.
        apply in_or_app. right. now left.
    + rewrite !flat_map_app. simpl. unfold entries_for at 2.
      now rewrite Hbad.
  - intros original dir line Hin Hbad. unfold Validator.validate_split.
    destruct (read_case_ids_raises _ _ Hin Hbad) as [e ->]. eauto.
  - intros original dir f line Hf Hname Hin Hbad.
    unfold Validator.validate_split.
    destruct (Validator.read_case_ids original) as [ids|e]; [|eauto].
    assert (Hfs : In f (Validator.split_files dir)).
    { unfold Validator.split_files.
      eapply Permutation_in; [apply sorted_by_perm|].
      apply filter_In. now split. }
    destruct (read_split_ids_raises _ _ _ Hfs Hin Hbad) as [e ->]. eauto.
  - intros line rest N HN Hbad.
    destruct (fst (Splitter.split_jsonl (line :: rest) N)) as [[]|e] eqn:E;
      [|eauto].
    exfalso. unfold Splitter.split_jsonl in E.
    replace (N =? 0)%Z with false in E by (symmetry; apply Z.eqb_neq; lia).
    destruct (for_each_ok_inv _ _ _ E 0%Z) as [st' Hbody].
    { unfold Splitter.range. apply in_map_iff. exists 0. split; [reflexivity|].
      apply in_seq. lia. }
    apply split_chunk_ok in Hbody as (first & v & c & Hhd & Hv & _).
    rewrite Z.mul_0_l in Hhd. apply slice_head in Hhd as ->. congruence.
Qed.

End MalformedLineContract.

Section MalformedLineRuns.
#[local] Existing Instance Ref.ref_json.
#[local] Existing Instance Ref.ref_re.
#[local] Existing Instance Ref.ref_date.

(** C3, witness: the merge of a base dataset whose second line is
    malformed. *)
Lemma malformed_line_containment_witness :
  let pre := [ Ref.js "{'case_id': 'A', 'case_no': '1'}" ] in
  let post := [ Ref.js "{'case_id': 'B', 'case_no': '2'}" ] in
  let run := Merger.merge_with_train (pre ++ "{oops" :: post) [] in
  fst run = Ok tt
  /\ In (Merger.MergeJsonError 2) (Merger.merge_log (snd run))
  /\ Merger.outfile (snd run)
     = Merger.outfile (snd (Merger.merge_with_train (pre ++ post) [])).
Proof.
  cbv zeta.
  apply (proj1 malformed_line_containment []
           [ Ref.js "{'case_id': 'A', 'case_no': '1'}" ] "{oops"
           [ Ref.js "{'case_id': 'B', 'case_no': '2'}" ]).
  vm_compute. reflexivity.
Defined.

(** C3, counterexample: the claim names the Split Validator and the
    Splitter among the components that skip a malformed line.  One malformed
    line in the source ends the validator's run with the parse error, no
    check reported; one malformed first line ends the splitter's run after
    its first write. *)
Lemma validator_and_splitter_abort_on_malformed_line :
  let good := Ref.js "{'case_id': 'A', 'case_no': '1'}" in
  Validator.validate_split [good; "{oops"]
    [("train_split_01.jsonl", [good])]
  = (Raise JSONDecodeError, [])
  /\ Validator.validate_split [good]
       [("train_split_01.jsonl", [good; "{oops"])]
     = (Raise JSONDecodeError, [])
  /\ Splitter.split_jsonl ["{oops"; good] 1
     = (Raise JSONDecodeError,
        {| Splitter.written := [("train_split_01.jsonl", ["{oops"; good])];
           Splitter.split_log := [] |}).
Proof. cbv zeta. repeat split; vm_compute; reflexivity. Qed.

End MalformedLineRuns.

(* ================================================================== *)
(** ** Split Validator: what the verdict means *)

Lemma is_empty_filter {A} (p : A -> bool) (l : list A) :
  Validator.is_empty (filter p l) = true <-> forall x, In x l -> p x = false.
Proof.
  induction l as [|y l IH]; simpl.
  - split; [intros _ x []|reflexivity].
  - destruct (p y) eqn:E; simpl.
    + split; [discriminate|]. intros Hall.
      rewrite (Hall y (or_introl eq_refl)) in E. discriminate.
    + rewrite IH. split.
      * intros Hall x [<-|Hx]; [assumption|now apply Hall].
      * intros Hall x Hx. apply Hall. now right.
Qed.

Lemma mem_occurrences x ids :
  Validator.mem x ids = true <-> 1 <= occurrences x ids.
Proof.
  unfold Validator.mem, occurrences.
  induction ids as [|y ids IH]; simpl.
  - split; [discriminate|lia].
  - rewrite (key_eqb_sym x y). destruct (key_eqb y x); simpl.
    + split; [lia|reflexivity].
    + exact IH.
Qed.

Lemma mem_congr x y s :
  key_eqb x y = true -> Validator.mem x s = Validator.mem y s.
Proof.
  intros Hxy. unfold Validator.mem.
  induction s as [|z s IH]; simpl; [reflexivity|].
  now rewrite (key_eqb_congr x y z Hxy), IH.
Qed.

Lemma mem_app x s t :
  Validator.mem x (s ++ t) = Validator.mem x s || Validator.mem x t.
Proof. unfold Validator.mem. apply existsb_app. Qed.

Lemma mem_set_add x y s :
  Validator.mem x (Validator.set_add y s)
  = Validator.mem x s || key_eqb x y.
Proof.
  unfold Validator.set_add. destruct (Validator.mem y s) eqn:E.
  - destruct (key_eqb x y) eqn:Exy; [|now rewrite orb_false_r].
    now rewrite (mem_congr x y s Exy), E.
  - rewrite mem_app. simpl. now rewrite orb_false_r.
Qed.

Lemma mem_set_fold x ids acc :
  Validator.mem x (fold_left (fun s y => Validator.set_add y s) ids acc)
  = Validator.mem x acc || Validator.mem x ids.
Proof.
  revert acc; induction ids as [|y ids IH]; intros acc; simpl.
  - now rewrite orb_false_r.
  - rewrite IH, mem_set_add. now rewrite orb_assoc.
Qed.

(** A set built from a list holds an identifier exactly when the list
    does. *)
Lemma mem_set_list x ids :
  Validator.mem x (set_list ids) = Validator.mem x ids.
Proof. unfold set_list. now rewrite mem_set_fold. Qed.

Lemma set_fold_sub x ids acc :
  In x (fold_left (fun s y => Validator.set_add y s) ids acc) ->
  In x acc \/ In x ids.
Proof.
  revert acc; induction ids as [|y ids IH]; intros acc Hin; simpl in *.
  - now left.
  - destruct (IH _ Hin) as [Hacc|Hids]; [|right; now right].
    unfold Validator.set_add in Hacc.
    destruct (Validator.mem y acc); [now left|].
    apply in_app_or in Hacc as [Hacc|[<-|[]]]; [now left|right; now left].
Qed.

Lemma set_list_sub x ids : In x (set_list ids) -> In x ids.
Proof.
  intros Hin. now destruct (set_fold_sub x ids [] Hin) as [[]|Hin'].
Qed.

Lemma mem_of_in x ids :
  hashable x = true -> In x ids -> Validator.mem x ids = true.
Proof.
  intros Hx Hin. unfold Validator.mem. apply existsb_exists.
  exists x. split; [assumption|now apply key_eqb_refl_hashable].
Qed.

(** The set difference is empty exactly when every identifier of the first
    list occurs in the second. *)
Lemma set_diff_empty a b :
  forallb hashable a = true ->
  Validator.is_empty (Validator.set_diff (set_list a) (set_list b)) = true
  <-> forall x, In x a -> 1 <= occurrences x b.
Proof.
  intros Ha. unfold Validator.set_diff. rewrite is_empty_filter. split.
  - intros Hall x Hx. apply mem_occurrences.
    assert (Hhx : hashable x = true)
      by (rewrite forallb_forall in Ha; now apply Ha).
    pose proof (mem_of_in x a Hhx Hx) as Hm.
    rewrite <- mem_set_list in Hm. unfold Validator.mem in Hm.
    apply existsb_exists in Hm as (y & Hy & Hxy).
    specialize (Hall y Hy). apply negb_false_iff in Hall.
    rewrite mem_set_list in Hall. now rewrite (mem_congr x y b Hxy).
  - intros Hall x Hx. apply negb_false_iff. rewrite mem_set_list.
    apply mem_occurrences, Hall, set_list_sub, Hx.
Qed.

Lemma occurrences_app x s t :
  occurrences x (s ++ t) = occurrences x s + occurrences x t.
Proof. unfold occurrences. now rewrite filter_app, length_app. Qed.

(** No count of a [Counter] exceeds the occurrences of its identifier. *)
Lemma counter_bounded ids :
  forallb hashable ids = true ->
  forall y n, In (y, n) (Validator.counter_of ids) -> n <= occurrences y ids.
Proof.
  intros Hh. unfold Validator.counter_of.
  assert (G : forall seen c,
            forallb hashable ids = true ->
            (forall y n, In (y, n) c -> n <= occurrences y seen) ->
            forall y n,
              In (y, n) (fold_left (fun c x => Validator.counter_add x c) ids c) ->
              n <= occurrences y (seen ++ ids)).
  { clear. induction ids as [|x ids IH]; intros seen c Hh Hc y n Hin.
    - simpl in Hin. rewrite app_nil_r. now apply Hc.
    - simpl in Hh. apply andb_prop in Hh as [Hx Hh].
      replace (seen ++ x :: ids) with ((seen ++ [x]) ++ ids)
        by (now rewrite <- app_assoc).
      apply (IH (seen ++ [x]) (Validator.counter_add x c) Hh); [|exact Hin].
      clear - Hc Hx. intros y n. rewrite occurrences_app.
      unfold occurrences at 2. simpl.
      induction c as [|[z m] c IHc]; simpl.
      + intros [[= <- <-]|[]].
        rewrite (key_eqb_refl_hashable x Hx). simpl. lia.
      + destruct (key_eqb z x) eqn:Ezx.
        * intros [[= <- <-]|Hin].
          -- rewrite key_eqb_sym, Ezx. simpl.
             specialize (Hc z m (or_introl eq_refl)). lia.
          -- specialize (Hc y n (or_intror Hin)).
             destruct (key_eqb x y); simpl; lia.
        * intros [[= <- <-]|Hin].
          -- specialize (Hc z m (or_introl eq_refl)).
             destruct (key_eqb x z); simpl; lia.
          -- apply IHc; [|exact Hin].
             intros y' n' Hin'. apply Hc. now right. }
  intros y n Hin. apply (G [] [] Hh); [intros ? ? []|exact Hin].
Qed.

(** The duplicate check passes exactly when no identifier occurs twice. *)
Lemma no_duplicates_iff ids :
  forallb hashable ids = true ->
  Validator.is_empty
    (filter (fun p => (1 <? snd p)%nat) (Validator.counter_of ids)) = true
  <-> forall x, occurrences x ids <= 1.
Proof.
  intros Hh. split.
  - intros Hemp x. destruct (le_lt_dec (occurrences x ids) 1) as [|Hgt];
      [assumption|].
    rewrite (duplicates_found ids x) in Hemp by lia. discriminate.
  - intros Hall. apply is_empty_filter. intros [y n] Hin. simpl.
    apply Nat.ltb_ge. pose proof (counter_bounded ids Hh y n Hin).
    specialize (Hall y). lia.
Qed.

Lemma run_checks_verdict original split log :
  forallb hashable original = true -> forallb hashable split = true ->
  original <> [] -> split <> [] ->
  exists verdict report,
    Validator.run_checks original split log = (Ok verdict, log ++ report)
    /\ length report = 7
    /\ (verdict = true <-> lossless original split).
Proof.
  intros Ho Hs Hne Hnes.
  destruct (run_checks_returns original split log Ho Hs Hne Hnes)
    as (first & last & Hrun & _).
  cbv zeta in Hrun. eexists. eexists. split; [exact Hrun|].
  split; [reflexivity|].
  fold (set_list original) (set_list split).
  unfold lossless.
  rewrite <- (no_duplicates_iff split Hs).
  rewrite <- (set_diff_empty original split Ho).
  rewrite <- (set_diff_empty split original Hs).
  rewrite !andb_true_iff, Nat.eqb_eq. tauto.
Qed.

Lemma occurrences_permutation x ids ids' :
  Permutation ids ids' -> occurrences x ids = occurrences x ids'.
Proof.
  unfold occurrences. induction 1 as [|y l l' _ IH|y z l|l l' l'' _ IH1 _ IH2];
    simpl.
  - reflexivity.
  - destruct (key_eqb y x); simpl; now rewrite IH.
  - destruct (key_eqb y x), (key_eqb z x); reflexivity.
  - now rewrite IH1.
Qed.

Lemma lossless_permutation original split split' :
  Permutation split split' ->
  lossless original split -> lossless original split'.
Proof.
  intros Hp (Hlen & Hdup & Hmiss & Hextra). repeat split.
  - rewrite Hlen. now apply Permutation_length.
  - intros x. rewrite <- (occurrences_permutation x _ _ Hp). apply Hdup.
  - intros x Hx. rewrite <- (occurrences_permutation x _ _ Hp).
    now apply Hmiss.
  - intros x Hx. apply Hextra. eapply Permutation_in; [|exact Hx].
    now symmetry.
Qed.

Section ValidatorMeaning.
Context `{JsonLib}.

(** X1: when both the source and the chunks hold at least one record and
    every [case_id] is hashable, the validator returns a verdict after a
    report of seven lines, and the verdict is true exactly when the chunks
    are lossless: as many identifiers as the source, none twice, none
    missing and none extra. *)
Theorem validator_verdict_meaning original split_dir original_ids split_ids :
  Validator.read_case_ids original = Ok original_ids ->
  Validator.read_split_ids (Validator.split_files split_dir) = Ok split_ids ->
  forallb hashable original_ids = true ->
  forallb hashable split_ids = true ->
  original_ids <> [] -> split_ids <> [] ->
  exists verdict report,
    Validator.validate_split original split_dir = (Ok verdict, report)
    /\ length report = 7
    /\ (verdict = true <-> lossless original_ids split_ids).
Proof.
  intros Ho Hs Hho Hhs Hne Hnes. unfold Validator.validate_split.
  rewrite Ho, Hs.
  destruct (run_checks_verdict original_ids split_ids [] Hho Hhs Hne Hnes)
    as (verdict & report & Hrun & Hlen & Hiff).
  exists verdict, report. now rewrite Hrun.
Qed.

End ValidatorMeaning.

(** X2: the verdict does not depend on the order of the records in the
    chunks: two lists of chunk identifiers that are permutations of each
    other get the same verdict, the order checks only changing the report. *)
Theorem validator_verdict_ignores_order original split split' :
  forallb hashable original = true -> forallb hashable split = true ->
  original <> [] -> split <> [] -> Permutation split split' ->
  fst (Validator.run_checks original split [])
  = fst (Validator.run_checks original split' []).
Proof.
  intros Ho Hs Hne Hnes Hp.
  assert (Hs' : forallb hashable split' = true).
  { apply forallb_forall. intros x Hx. rewrite forallb_forall in Hs.
    apply Hs. eapply Permutation_in; [symmetry; exact Hp|exact Hx]. }
  assert (Hnes' : split' <> []).
  { intros ->. apply Permutation_sym, Permutation_nil in Hp. contradiction. }
  destruct (run_checks_verdict original split [] Ho Hs Hne Hnes)
    as (v & r & -> & _ & Hv).
  destruct (run_checks_verdict original split' [] Ho Hs' Hne Hnes')
    as (v' & r' & -> & _ & Hv').
  simpl. f_equal.
  destruct v, v'; try reflexivity.
  - assert (lossless original split') as L
      by (eapply lossless_permutation; [exact Hp|now apply Hv]).
    apply Hv' in L. discriminate.
  - assert (lossless original split) as L
      by (eapply lossless_permutation; [symmetry; exact Hp|now apply Hv']).
    apply Hv in L. discriminate.
Qed.

(* ================================================================== *)
(** ** The validator on the splitter's output *)

(** The report on two non-empty lists of hashable identifiers, line by
    line. *)
Lemma run_checks_report o0 orest s0 srest log :
  let original := o0 :: orest in
  let split := s0 :: srest in
  forallb hashable original = true -> forallb hashable split = true ->
  let count_ok := (length original =? length split)%nat in
  let duplicates :=
    filter (fun p => (1 <? snd p)%nat) (Validator.counter_of split) in
  let missing := Validator.set_diff (set_list original) (set_list split) in
  let extra := Validator.set_diff (set_list split) (set_list original) in
  let verdict :=
    count_ok && Validator.is_empty duplicates && Validator.is_empty missing
    && Validator.is_empty extra in
  Validator.run_checks original split log
  = (Ok verdict,
     log ++ [ if count_ok then Validator.CountPass
              else Validator.CountFail (length original) (length split);
              if Validator.is_empty duplicates then Validator.DuplicatesPass
              else Validator.DuplicatesFail (length duplicates)
                     (firstn 5 duplicates);
              if Validator.is_empty missing then Validator.MissingPass
              else Validator.MissingFail (length missing);
              if Validator.is_empty extra then Validator.ExtraPass
              else Validator.ExtraFail (length extra);
              if key_eqb o0 s0 then Validator.FirstPass
              else Validator.FirstWarning o0 s0;
              if key_eqb (last orest o0) (last srest s0)
              then Validator.LastPass
              else Validator.LastWarning (last orest o0) (last srest s0);
              if verdict then Validator.AllPassed
              else Validator.ValidationFailed ]).
Proof.
  intros original split Ho Hs. cbv zeta.
  unfold Validator.run_checks, Validator.Counter, Validator.say.
  rewrite (set_of_hashable _ Ho), (set_of_hashable _ Hs), Hs.
  subst original split.
  eff_unfold. cbn [Validator.first_of Validator.last_of].
  rewrite <- !app_assoc. cbn [app]. reflexivity.
Qed.

(** Counting each identifier of the list is enough to know that none
    occurs twice. *)
Lemma occurrences_once ids :
  forallb (fun x => (occurrences x ids <=? 1)%nat) ids = true ->
  forall x, occurrences x ids <= 1.
Proof.
  intros Hall x.
  destruct (occurrences x ids) as [|k] eqn:E; [lia|].
  assert (Hex : exists y, In y ids /\ key_eqb y x = true).
  { unfold occurrences in E.
    destruct (filter (fun y => key_eqb y x) ids) as [|y more] eqn:Ef;
      [discriminate|].
    assert (Hy : In y (filter (fun y => key_eqb y x) ids))
      by (rewrite Ef; now left).
    apply filter_In in Hy. now exists y. }
  destruct Hex as (y & Hin & Hyx).
  rewrite forallb_forall in Hall. specialize (Hall y Hin).
  apply Nat.leb_le in Hall. rewrite <- E.
  replace (occurrences x ids) with (occurrences y ids); [exact Hall|].
  unfold occurrences. f_equal. apply filter_ext. intros z.
  rewrite (key_eqb_sym z y), (key_eqb_sym z x).
  now apply key_eqb_congr.
Qed.

Lemma last_in {A} (l : list A) (x : A) : In (last l x) (x :: l).
Proof.
  induction l as [|a l IH]; [now left|].
  destruct l as [|b l]; [right; now left|].
  change (last (a :: b :: l) x) with (last (b :: l) x).
  destruct IH as [IH|IH]; [now left|right; now right].
Qed.

(** A non-empty list of distinct hashable identifiers, checked against
    itself, passes every check. *)
Lemma run_checks_same ids :
  forallb hashable ids = true -> ids <> [] ->
  (forall x, occurrences x ids <= 1) ->
  Validator.run_checks ids ids [] = (Ok true, all_passed).
Proof.
  intros Hh Hne Hdis. destruct ids as [|x rest]; [congruence|].
  rewrite (run_checks_report x rest x rest [] Hh Hh). cbv zeta.
  rewrite Nat.eqb_refl.
  rewrite (proj2 (no_duplicates_iff (x :: rest) Hh) Hdis).
  assert (Hself : Validator.is_empty
                    (Validator.set_diff (set_list (x :: rest))
                       (set_list (x :: rest))) = true).
  { apply set_diff_empty; [assumption|]. intros y Hy.
    apply mem_occurrences, mem_of_in; [|assumption].
    rewrite forallb_forall in Hh. now apply Hh. }
  rewrite Hself.
  assert (Hx : hashable x = true) by (simpl in Hh; now apply andb_prop in Hh).
  rewrite (key_eqb_refl_hashable x Hx).
  assert (Hl : hashable (last rest x) = true).
  { rewrite forallb_forall in Hh. apply Hh.
    apply last_in. }
  rewrite (key_eqb_refl_hashable _ Hl).
  reflexivity.
Qed.

Section SplitThenValidate.
Context `{JsonLib}.

Lemma read_case_ids_app l1 l2 :
  Validator.read_case_ids (l1 ++ l2)
  = match Validator.read_case_ids l1 with
    | Raise e => Raise e
    | Ok a =>
        match Validator.read_case_ids l2 with
        | Raise e => Raise e
        | Ok b => Ok (a ++ b)
        end
    end.
Proof.
  induction l1 as [|line l1 IH]; simpl.
  - now destruct (Validator.read_case_ids l2).
  - destruct (loads line) as [v|]; [|reflexivity].
    destruct (getitem v "case_id"); [|reflexivity].
    rewrite IH. destruct (Validator.read_case_ids l1); [|reflexivity].
    now destruct (Validator.read_case_ids l2).
Qed.

(** Reading the chunk files one after the other is reading their lines
    laid end to end. *)
Lemma read_split_ids_concat files :
  Validator.read_split_ids files
  = Validator.read_case_ids (flat_map snd files).
Proof.
  induction files as [|f rest IH]; simpl; [reflexivity|].
  now rewrite read_case_ids_app, IH.
Qed.

Lemma read_case_ids_nth lines ids k line :
  Validator.read_case_ids lines = Ok ids ->
  nth_error lines k = Some line -> record_at lines k.
Proof.
  revert ids k; induction lines as [|l rest IH]; intros ids k Hread Hk.
  - destruct k; discriminate.
  - simpl in Hread. unfold loads in Hread.
    destruct (json_loads l) as [v|] eqn:Ev; [|discriminate].
    destruct (getitem v "case_id") as [c|] eqn:Ec; [|discriminate].
    destruct (Validator.read_case_ids rest) as [more|] eqn:Er; [|discriminate].
    destruct k as [|k]; simpl in Hk.
    + injection Hk as <-. exists l, v, c. now repeat split.
    + destruct (IH more k eq_refl Hk) as (l' & v' & c' & Hn & Hv & Hc).
      exists l', v', c'. now repeat split.
Qed.

Lemma read_case_ids_length lines ids :
  Validator.read_case_ids lines = Ok ids -> length ids = length lines.
Proof.
  revert ids; induction lines as [|l rest IH]; intros ids Hread.
  - injection Hread as <-. reflexivity.
  - simpl in Hread. destruct (loads l) as [v|]; [|discriminate].
    destruct (getitem v "case_id") as [c|]; [|discriminate].
    destruct (Validator.read_case_ids rest) as [more|]; [|discriminate].
    injection Hread as <-. simpl. now rewrite (IH more).
Qed.

End SplitThenValidate.

(** The names of the first 99 chunks end in [.jsonl]: checked on the list
    itself. *)
Lemma chunk_names_99_jsonl :
  forallb (fun name => endswith name ".jsonl")
    (map (fun i => Splitter.chunk_name (Z.of_nat i)) (seq 0 99)) = true.
Proof. vm_compute. reflexivity. Qed.

Lemma forallb_firstn {A} (p : A -> bool) (l : list A) n :
  forallb p l = true -> forallb p (firstn n l) = true.
Proof.
  intros Hall. apply forallb_forall. intros x Hx.
  rewrite forallb_forall in Hall. apply Hall. eapply in_firstn. exact Hx.
Qed.

Lemma filter_all {A} (p : A -> bool) (l : list A) :
  forallb p l = true -> filter p l = l.
Proof.
  induction l as [|x l IH]; simpl; [reflexivity|].
  intros Hall. apply andb_prop in Hall as [-> Hall]. now rewrite IH.
Qed.

Lemma leb_antisym a b :
  String.leb a b = true -> String.leb b a = true -> a = b.
Proof.
  unfold String.leb. rewrite (String.compare_antisym a b).
  destruct (String.compare b a) eqn:E; simpl; try discriminate.
  intros _ _. symmetry. now apply String.compare_eq_iff.
Qed.

Section SortedOnce.
Variable A : Type.
Variable name : A -> string.

(** Files with distinct names have one ascending order. *)
Lemma sorted_same l l' :
  StronglySorted (name_le name) l -> StronglySorted (name_le name) l' ->
  Permutation l l' -> NoDup (map name l) -> l = l'.
Proof.
  intros Hs; revert l'.
  induction Hs as [|x rest Hrest IH Hx]; intros l' Hs' Hperm Hnd.
  - now apply Permutation_nil in Hperm.
  - destruct Hs' as [|y rest' Hrest' Hy].
    + symmetry in Hperm. now apply Permutation_nil in Hperm.
    + simpl in Hnd. apply NoDup_cons_iff in Hnd as [Hfresh Hnd].
      assert (Hxy : x = y).
      { assert (Hy_in : In y (x :: rest))
          by (eapply Permutation_in; [symmetry; exact Hperm|now left]).
        destruct Hy_in as [Heq|Hy_in]; [exact Heq|].
        assert (Hx_in : In x (y :: rest'))
          by (eapply Permutation_in; [exact Hperm|now left]).
        destruct Hx_in as [Heq|Hx_in]; [now symmetry|].
        rewrite Forall_forall in Hx, Hy.
        exfalso. apply Hfresh.
        rewrite (leb_antisym (name x) (name y) (Hx y Hy_in) (Hy x Hx_in)).
        now apply in_map. }
      subst y. f_equal. apply IH; [assumption| |assumption].
      eapply Permutation_cons_inv; eassumption.
Qed.

End SortedOnce.

Lemma put_file_name_in name content dir x :
  In x (map fst (Splitter.put_file name content dir)) ->
  x = name \/ In x (map fst dir).
Proof.
  induction dir as [|[n c] rest IH]; simpl.
  - intros [<-|[]]. now left.
  - destruct (String.eqb_spec n name) as [->|Hne]; simpl.
    + intros [<-|Hin]; [now left|right; now right].
    + intros [<-|Hin]; [right; now left|].
      destruct (IH Hin) as [->|Hin']; [now left|right; now right].
Qed.

Lemma put_file_distinct name content dir :
  NoDup (map fst dir) -> NoDup (map fst (Splitter.put_file name content dir)).
Proof.
  induction dir as [|[n c] rest IH]; simpl; intros Hnd.
  - repeat constructor. intros [].
  - apply NoDup_cons_iff in Hnd as [Hfresh Hnd].
    destruct (String.eqb_spec n name) as [->|Hne]; simpl.
    + now constructor.
    + constructor; [|now apply IH].
      intros Hin. apply put_file_name_in in Hin as [->|Hin]; contradiction.
Qed.

(** The files of a directory after one write: the file written, and the
    files of other names that were there. *)
Lemma put_file_files name content dir f :
  NoDup (map fst dir) ->
  (In f (Splitter.put_file name content dir)
   <-> f = (name, content) \/ (In f dir /\ fst f <> name)).
Proof.
  induction dir as [|[n c] rest IH]; simpl; intros Hnd.
  - split; [intros [<-|[]]; now left|intros [->|[[] _]]; now left].
  - apply NoDup_cons_iff in Hnd as [Hfresh Hnd].
    destruct (String.eqb_spec n name) as [->|Hne]; simpl.
    + split.
      * intros [<-|Hin]; [now left|right]. split; [now right|].
        intros Heq. apply Hfresh. rewrite <- Heq. now apply in_map.
      * intros [->|[[<-|Hin] Hne]]; [now left| |now right].
        now contradiction Hne.
    + rewrite (IH Hnd). split.
      * intros [<-|[->|[Hin Hf]]]; [right|now left|right].
        -- split; [now left|exact Hne].
        -- split; [now right|exact Hf].
      * intros [->|[[<-|Hin] Hf]]; [right; now left|now left|].
        right. right. now split.
Qed.

(** The files of the output directory after a run: the files written, and
    the files found there whose names were not written again. *)
Lemma directory_after_files before writes :
  NoDup (map fst before) -> NoDup (map fst writes) ->
  NoDup (map fst (directory_after before writes))
  /\ forall f,
       In f (directory_after before writes)
       <-> In f writes \/ (In f before /\ ~ In (fst f) (map fst writes)).
Proof.
  unfold directory_after.
  revert before; induction writes as [|[n c] rest IH]; intros before Hb Hw;
    simpl.
  - split; [exact Hb|]. intros f. split; [intros Hin; right; now split|].
    now intros [[]|[Hin _]].
  - simpl in Hw. apply NoDup_cons_iff in Hw as [Hfresh Hw].
    destruct (IH (Splitter.put_file n c before)
                (put_file_distinct n c before Hb) Hw) as [Hnd Hfiles].
    split; [exact Hnd|]. intros f.
    rewrite Hfiles, (put_file_files n c before f Hb).
    split.
    + intros [Hin|[[->|[Hin Hne]] Hout]].
      * left. now right.
      * left. now left.
      * right. split; [exact Hin|]. intros [Heq|Hin']; [now symmetry in Heq|].
        contradiction.
    + intros [[<-|Hin]|[Hin Hout]].
      * right. split; [now left|exact Hfresh].
      * now left.
      * right. split.
        -- right. split; [exact Hin|]. intros Heq. apply Hout. now left.
        -- intros Hin'. apply Hout. now right.
Qed.

Section SplitThenValidateContract.
Context `{JsonLib}.

(** The validator lists the chunk files of a split into at most 99 chunks
    in the order they were written, when every [.jsonl] file the output
    directory held before has the name of a chunk written now. *)
Lemma split_files_after before lines n :
  n <= 99 ->
  NoDup (map fst before) ->
  (forall f, In f before -> endswith (fst f) ".jsonl" = true ->
     In (fst f) (map (fun i => Splitter.chunk_name (Z.of_nat i)) (seq 0 n))) ->
  Validator.split_files (directory_after before (chunk_files lines n))
  = chunk_files lines n.
Proof.
  intros H99 Hb Hstale.
  assert (Hmap : map fst (chunk_files lines n)
                 = map (fun i => Splitter.chunk_name (Z.of_nat i)) (seq 0 n)).
  { unfold chunk_files. now rewrite map_map. }
  assert (Hnames : map fst (chunk_files lines n)
                   = firstn n (map (fun i => Splitter.chunk_name (Z.of_nat i))
                                   (seq 0 99))).
  { rewrite <- chunk_names_prefix by assumption. exact Hmap. }
  destruct chunk_names_99 as [Hasc Hdis].
  assert (Hw : NoDup (map fst (chunk_files lines n)))
    by (rewrite Hnames; apply NoDup_firstn, distinct_NoDup, Hdis).
  assert (Hjsonl : forall f, In f (chunk_files lines n) ->
                     endswith (fst f) ".jsonl" = true).
  { pose proof (forallb_firstn _ _ n chunk_names_99_jsonl) as Hall.
    rewrite <- Hnames in Hall. rewrite forallb_forall in Hall.
    intros f Hf. apply Hall. now apply in_map. }
  destruct (directory_after_files before (chunk_files lines n) Hb Hw)
    as [Hnd Hfiles].
  unfold Validator.split_files.
  set (listed := filter (fun f => endswith (fst f) ".jsonl")
                   (directory_after before (chunk_files lines n))).
  assert (Hl : NoDup (map fst listed)) by now apply distinct_names_filter.
  symmetry. apply (sorted_same _ fst).
  - rewrite <- (sorted_by_ascending fst (chunk_files lines n)).
    + apply sorted_by_sorted.
    + rewrite Hnames. now apply ascending_firstn.
  - apply sorted_by_sorted.
  - rewrite <- sorted_by_perm. apply NoDup_Permutation.
    + eapply NoDup_map_inv. exact Hw.
    + eapply NoDup_map_inv. exact Hl.
    + intros f. unfold listed. rewrite filter_In, Hfiles. split.
      * intros Hin. split; [now left|now apply Hjsonl].
      * intros [[Hin|[Hin Hout]] Hj]; [exact Hin|].
        exfalso. apply Hout. rewrite Hmap. now apply Hstale.
  - exact Hw.
Qed.

(** X3: the validator accepts what the splitter writes.  For a source
    whose lines are all records with hashable, pairwise different
    [case_id]s, split into [n] chunks with [1 <= n <= 99] and [n] at most
    the number of lines, into an output directory in which every [.jsonl]
    file found has the name of one of the [n] chunks (an empty directory,
    files of other kinds, chunks of an earlier split into at most [n]), the
    validator run on the source and the directory the splitter leaves
    passes every check and returns true.  The splitter removes nothing, so
    a [.jsonl] file of another name stays in the directory and is read by
    the validator. *)
Theorem validator_accepts_split (source : list string) (ids : list json)
    (n : nat) (before : list (string * list string)) :
  Validator.read_case_ids source = Ok ids ->
  forallb hashable ids = true ->
  (forall x, occurrences x ids <= 1) ->
  1 <= n <= length source -> n <= 99 ->
  NoDup (map fst before) ->
  (forall f, In f before -> endswith (fst f) ".jsonl" = true ->
     In (fst f) (map (fun i => Splitter.chunk_name (Z.of_nat i)) (seq 0 n))) ->
  fst (Splitter.split_jsonl source (Z.of_nat n)) = Ok tt
  /\ Validator.validate_split source
       (directory_after before
          (Splitter.written (snd (Splitter.split_jsonl source (Z.of_nat n)))))
     = (Ok true, all_passed)
  /\ directory_after []
       (Splitter.written (snd (Splitter.split_jsonl source (Z.of_nat n))))
     = Splitter.directory_of
         (Splitter.written (snd (Splitter.split_jsonl source (Z.of_nat n)))).
Proof.
  intros Hread Hh Hdis Hn H99 Hb Hstale.
  assert (Hrec : forall i, i < n ->
            record_at source (i * (length source / n))).
  { intros i Hi.
    assert (HbL : n * (length source / n) <= length source)
      by (apply Nat.Div0.mul_div_le).
    destruct (nth_error source (i * (length source / n))) as [line|] eqn:E.
    - eapply read_case_ids_nth; eassumption.
    - apply nth_error_None in E.
      assert (1 <= length source / n)
        by (apply Nat.div_le_lower_bound; lia).
      nia. }
  destruct (split_writes_chunks source n Hn Hrec) as [Hok Hw].
  split; [exact Hok|]. split; [|reflexivity]. rewrite Hw.
  unfold Validator.validate_split. rewrite Hread.
  rewrite split_files_after by assumption.
  rewrite read_split_ids_concat, chunk_files_concat by assumption.
  rewrite Hread. apply run_checks_same; try assumption.
  intros ->. apply read_case_ids_length in Hread. simpl in Hread. lia.
Qed.

End SplitThenValidateContract.

Section ValidatorMoreRuns.
#[local] Existing Instance Ref.ref_json.

(** X1, witness: one record of the source, two copies of it in the
    chunk. *)
Lemma validator_verdict_meaning_witness :
  exists verdict report,
    Validator.validate_split (firstn 1 five_records)
      [("train_split_01.jsonl",
        firstn 1 five_records ++ firstn 1 five_records)]
    = (Ok verdict, report)
    /\ length report = 7
    /\ (verdict = true
        <-> lossless [JStr "a"] [JStr "a"; JStr "a"]).
Proof.
  apply (validator_verdict_meaning (firstn 1 five_records)
           [("train_split_01.jsonl",
             firstn 1 five_records ++ firstn 1 five_records)]
           [JStr "a"] [JStr "a"; JStr "a"]);
    try reflexivity; discriminate.
Defined.

(** X2, witness: the chunks hold the five identifiers in reverse. *)
Lemma validator_verdict_ignores_order_witness :
  let ids := map JStr ["a"; "b"; "c"; "d"; "e"] in
  fst (Validator.run_checks ids ids [])
  = fst (Validator.run_checks ids (rev ids) []).
Proof.
  cbv zeta.
  apply (validator_verdict_ignores_order
           (map JStr ["a"; "b"; "c"; "d"; "e"])
           (map JStr ["a"; "b"; "c"; "d"; "e"])
           (rev (map JStr ["a"; "b"; "c"; "d"; "e"])));
    try reflexivity; try discriminate.
  apply Permutation_rev.
Defined.

(** X3, witness: the five records split in two, into a directory that
    holds the second chunk of an earlier split and a file of notes, and
    validated. *)
Lemma validator_accepts_split_witness :
  let before := [ ("train_split_02.jsonl", skipn 3 five_records);
                  ("notes.txt", ["split on Monday"]) ] in
  fst (Splitter.split_jsonl five_records 2) = Ok tt
  /\ Validator.validate_split five_records
       (directory_after before
          (Splitter.written (snd (Splitter.split_jsonl five_records 2))))
     = (Ok true, all_passed)
  /\ directory_after []
       (Splitter.written (snd (Splitter.split_jsonl five_records 2)))
     = Splitter.directory_of
         (Splitter.written (snd (Splitter.split_jsonl five_records 2))).
Proof.
  cbv zeta.
  apply (validator_accepts_split five_records
           (map JStr ["a"; "b"; "c"; "d"; "e"]) 2).
  - vm_compute. reflexivity.
  - reflexivity.
  - apply occurrences_once. reflexivity.
  - simpl. lia.
  - lia.
  - apply distinct_NoDup. reflexivity.
  - intros f [<-|[<-|[]]] Hj; [|discriminate].
    vm_compute. right. now left.
Defined.

(** The five records split in two into a directory that holds the third
    chunk of an earlier split in three: the chunk stays, the validator
    reads it, and the split is rejected. *)
Example stale_chunk_rejected :
  let before := [ ("train_split_03.jsonl", skipn 4 five_records) ] in
  fst (Validator.validate_split five_records
         (directory_after before
            (Splitter.written (snd (Splitter.split_jsonl five_records 2)))))
  = Ok false.
Proof. vm_compute. reflexivity. Qed.

End ValidatorMoreRuns.

(* ================================================================== *)
(** ** Splitter: what an interrupted run leaves behind *)

(** A loop whose body adds one item to a list of the state before it can
    raise: the list grows by the items of the rounds begun, and the loop
    stops in the first round whose body raises. *)
Lemma for_each_stops {St A B} (body : A -> M St unit) (proj : St -> list B)
    (contrib : A -> B) (good : A -> Prop) :
  (forall st x, proj (snd (body x st)) = proj st ++ [contrib x]) ->
  (forall st x, fst (body x st) = Ok tt <-> good x) ->
  forall items st,
    exists k,
      k <= length items
      /\ proj (snd (for_each items body st))
         = proj st ++ map contrib (firstn k items)
      /\ (forall j x, j < k - 1 -> nth_error items j = Some x -> good x)
      /\ ((fst (for_each items body st) = Ok tt /\ k = length items
           /\ forall x, In x items -> good x)
          \/ (fst (for_each items body st) <> Ok tt /\ 1 <= k
              /\ exists x, nth_error items (k - 1) = Some x /\ ~ good x)).
Proof.
  intros Hproj Hgood items.
  induction items as [|x rest IH]; intros st.
  - exists 0. simpl. rewrite app_nil_r. repeat split; try lia.
    left. repeat split. intros x [].
  - simpl. unfold bind.
    pose proof (Hproj st x) as Hp. pose proof (Hgood st x) as Hg.
    destruct (body x st) as [[[]|e] st'] eqn:E; cbn [fst snd] in Hp, Hg.
    + destruct (IH st') as (k & Hk & Hw & Hbefore & Hend).
      exists (S k). split; [simpl; lia|]. split; [|split].
      * rewrite Hw, Hp, <- app_assoc. reflexivity.
      * intros j y Hj Hy. destruct j as [|j].
        -- injection Hy as <-. now apply Hg.
        -- apply (Hbefore j y); [lia|exact Hy].
      * destruct Hend as [(Hok & -> & Hall)|(Hbad & Hk1 & y & Hy & Hny)].
        -- left. repeat split; [exact Hok|].
           intros y [<-|Hy]; [now apply Hg|now apply Hall].
        -- right. split; [exact Hbad|]. split; [lia|].
           exists y. split; [|exact Hny].
           replace (S k - 1) with (S (k - 1)) by lia. exact Hy.
    + exists 1. split; [simpl; lia|]. split; [|split].
      * simpl. exact Hp.
      * intros j y Hj. lia.
      * right. split; [discriminate|]. split; [lia|].
        exists x. split; [reflexivity|].
        intros Hx. apply Hg in Hx. discriminate.
Qed.

Section SplitterPrefix.
Context `{JsonLib}.

(** X4: whatever the lines hold, a split of a source of at least [n] lines
    into [n >= 1] chunks leaves behind the first [k] chunk files of the
    partition and nothing else, each complete: the chunks before the last
    one written begin with a record that has a [case_id]; the run ends
    normally only with [k = n], and otherwise the chunk it stopped at is
    the first whose first line is no such record, written in full before
    the exception.  The files written, laid end to end, are an initial
    segment of the source. *)
Theorem split_leaves_prefix (lines : list string) (n : nat) :
  1 <= n <= length lines ->
  let run := Splitter.split_jsonl lines (Z.of_nat n) in
  let per_file := length lines / n in
  exists k,
    k <= n
    /\ Splitter.written (snd run) = firstn k (chunk_files lines n)
    /\ (forall i, i < k - 1 -> record_at lines (i * per_file))
    /\ (fst run = Ok tt -> k = n)
    /\ (fst run <> Ok tt ->
        1 <= k /\ ~ record_at lines ((k - 1) * per_file))
    /\ (exists m, flat_map snd (Splitter.written (snd run)) = firstn m lines).
Proof.
  intros Hn. cbv zeta. unfold Splitter.split_jsonl.
  replace (Z.of_nat n =? 0)%Z with false by (symmetry; apply Z.eqb_neq; lia).
  rewrite range_of_nat.
  set (per := (Z.of_nat (length lines) / Z.of_nat n)%Z).
  set (piece := fun x : Z =>
         (Splitter.chunk_name x,
          slice lines (x * per)
            (if (x =? Z.of_nat n - 1)%Z then Z.of_nat (length lines)
             else ((x + 1) * per)%Z))).
  set (good := fun x : Z =>
         exists first v c,
           hd_error (snd (piece x)) = Some first
           /\ json_loads first = Some v /\ getitem v "case_id" = Ok c).
  destruct (for_each_stops (Splitter.split_chunk lines (Z.of_nat n) per)
              Splitter.written piece good
              (fun st x => split_chunk_written lines (Z.of_nat n) per x st)
              (fun st x => split_chunk_ok lines (Z.of_nat n) per x st)
              (map Z.of_nat (seq 0 n)) Splitter.split_init)
    as (k & Hk & Hw & Hbefore & Hend).
  rewrite length_map, length_seq in Hk.
  assert (Hgood : forall i, i < n ->
            good (Z.of_nat i) <-> record_at lines (i * (length lines / n))).
  { intros i Hi. unfold good, piece, per, record_at. cbn [snd].
    rewrite slice_is_chunk by lia. rewrite chunk_head by lia. reflexivity. }
  assert (Hnth : forall i, i < n ->
            nth_error (map Z.of_nat (seq 0 n)) i = Some (Z.of_nat i)).
  { intros i Hi. rewrite nth_error_map, nth_error_seq.
    destruct (Nat.ltb_spec i n); [reflexivity|lia]. }
  assert (Hfiles : Splitter.written
                     (snd (for_each (map Z.of_nat (seq 0 n))
                             (Splitter.split_chunk lines (Z.of_nat n) per)
                             Splitter.split_init))
                   = firstn k (chunk_files lines n)).
  { rewrite Hw. simpl. unfold chunk_files.
    rewrite !firstn_map, map_map. apply map_ext_in.
    intros i Hi. apply in_firstn, in_seq in Hi. unfold piece, per.
    f_equal. apply slice_is_chunk; lia. }
  exists k. split; [exact Hk|]. split; [exact Hfiles|].
  split; [|split; [|split]].
  - intros i Hi. apply Hgood; [lia|].
    apply (Hbefore i); [exact Hi|apply Hnth; lia].
  - intros Hok.
    destruct Hend as [(_ & -> & _)|(Hbad & _)]; [|contradiction].
    now rewrite length_map, length_seq.
  - intros Hbad.
    destruct Hend as [(Hok & _)|(_ & Hk1 & x & Hx & Hnx)]; [contradiction|].
    split; [exact Hk1|]. intros Hrec.
    rewrite Hnth in Hx by lia. injection Hx as <-.
    apply Hnx, Hgood; [lia|exact Hrec].
  - rewrite Hfiles.
    destruct (Nat.eq_dec k n) as [->|Hne].
    + exists (length lines). rewrite firstn_all.
      rewrite firstn_all2 by (unfold chunk_files;
                              rewrite length_map, length_seq; lia).
      now apply chunk_files_concat.
    + exists (k * (length lines / n)). unfold chunk_files.
      rewrite firstn_map, flat_map_concat_map, map_map,
        <- flat_map_concat_map. cbn [snd].
      replace (firstn k (seq 0 n)) with (seq 0 k).
      * rewrite (flat_map_agree _
                   (fun i => firstn (length lines / n)
                               (skipn (i * (length lines / n)) lines))).
        -- apply concat_full_chunks.
        -- intros i Hi. apply in_seq in Hi. unfold chunk.
           replace (i =? n - 1)%nat with false; [reflexivity|].
           symmetry. apply Nat.eqb_neq. lia.
      * replace n with (k + (n - k)) at 1 by lia.
        rewrite seq_app, firstn_app, length_seq, Nat.sub_diag. simpl.
        rewrite app_nil_r. symmetry. apply firstn_all2.
        rewrite length_seq. lia.
Qed.

End SplitterPrefix.

Section SplitterMoreRuns.
#[local] Existing Instance Ref.ref_json.

(** X4, witness: the five records split in two. *)
Lemma split_leaves_prefix_witness :
  let run := Splitter.split_jsonl five_records 2 in
  exists k,
    k <= 2
    /\ Splitter.written (snd run) = firstn k (chunk_files five_records 2)
    /\ (forall i, i < k - 1 -> record_at five_records (i * 2))
    /\ (fst run = Ok tt -> k = 2)
    /\ (fst run <> Ok tt -> 1 <= k /\ ~ record_at five_records ((k - 1) * 2))
    /\ (exists m,
          flat_map snd (Splitter.written (snd run)) = firstn m five_records).
Proof.
  apply (split_leaves_prefix five_records 2). simpl. lia.
Defined.

End SplitterMoreRuns.

(* ================================================================== *)
(** ** Merger: what the counters count *)

Lemma steps_adds {St} (step : nat -> string -> St -> St) (proj : St -> nat)
    (weight : nat * string -> nat) :
  (forall n line st, proj (step n line st) = proj st + weight (n, line)) ->
  forall lines n st,
    proj (steps step n lines st)
    = proj st + list_sum (map weight (numbered n lines)).
Proof.
  intros Hstep lines; induction lines as [|line rest IH]; intros n st; simpl.
  - lia.
  - rewrite IH, Hstep. lia.
Qed.

Lemma steps_keeps {St} (step : nat -> string -> St -> St) (P : St -> Prop) :
  (forall n line st, P st -> P (step n line st)) ->
  forall lines n st, P st -> P (steps step n lines st).
Proof.
  intros Hstep lines; induction lines as [|line rest IH]; intros n st HP.
  - exact HP.
  - simpl. apply IH, Hstep, HP.
Qed.

Lemma list_sum_lengths {A B} (f : A -> list B) (l : list A) :
  list_sum (map (fun x => length (f x)) l) = length (flat_map f l).
Proof.
  induction l as [|x l IH]; simpl; [reflexivity|].
  now rewrite length_app, IH.
Qed.

Lemma cdict_mem_keys k d :
  Merger.cdict_mem k d
  = existsb (fun k' => Merger.key_eq k' k) (map fst d).
Proof.
  unfold Merger.cdict_mem.
  induction d as [|[k1 c1] rest IH]; simpl; [reflexivity|].
  destruct (Merger.key_eq k1 k); [reflexivity|exact IH].
Qed.

Lemma cdict_set_keys k c d :
  map fst (Merger.cdict_set k c d)
  = if Merger.cdict_mem k d then map fst d else map fst d ++ [k].
Proof.
  unfold Merger.cdict_mem.
  induction d as [|[k1 c1] rest IH]; simpl; [reflexivity|].
  destruct (Merger.key_eq k1 k) eqn:E; simpl; [reflexivity|].
  rewrite IH. now destruct (Merger.cdict_get k rest).
Qed.

Lemma keys_apart_snoc keys k :
  keys_apart keys = true ->
  existsb (fun k' => Merger.key_eq k' k) keys = false ->
  keys_apart (keys ++ [k]) = true.
Proof.
  induction keys as [|k1 rest IH]; simpl; intros Ha Hk; [reflexivity|].
  apply andb_prop in Ha as [H1 Hrest].
  apply orb_false_elim in Hk as [Hk1 Hk].
  rewrite existsb_app. simpl. rewrite Hk1, orb_false_r.
  apply negb_true_iff in H1. rewrite H1. simpl. now apply IH.
Qed.

(** The mapping and the duplicates after a sequence of occurrences of
    usable keys: together they are as many as the occurrences, and the keys
    of the mapping stay usable and apart. *)
Lemma mapping_accounts occ d dl :
  let after := fold_left apply_occurrence occ (d, dl) in
  (length (fst after) + length (snd after)
   = length d + length dl + length occ)
  /\ (keys_apart (map fst d) = true ->
      keys_apart (map fst (fst after)) = true)
  /\ (forallb usable_key (map fst d) = true ->
      forallb (fun o => usable_key (occ_key o)) occ = true ->
      forallb usable_key (map fst (fst after)) = true).
Proof.
  cbv zeta. revert d dl; induction occ as [|o rest IH]; intros d dl.
  - simpl. repeat split; auto.
  - simpl. unfold apply_occurrence at 2 4 6. cbn [fst snd].
    destruct (IH (Merger.cdict_set (occ_key o) (occ_payload o) d)
                 (dl ++ (if Merger.cdict_mem (occ_key o) d
                         then [duplicate_of o] else [])))
      as (Hlen & Hapart & Husable).
    assert (Hkeys := cdict_set_keys (occ_key o) (occ_payload o) d).
    split; [|split].
    + rewrite Hlen. rewrite length_app.
      rewrite <- (length_map fst (Merger.cdict_set _ _ d)), Hkeys.
      rewrite <- (length_map fst d).
      destruct (Merger.cdict_mem (occ_key o) d); simpl.
      * lia.
      * rewrite length_app. simpl. lia.
    + intros Ha. apply Hapart. rewrite Hkeys.
      destruct (Merger.cdict_mem (occ_key o) d) eqn:E; [exact Ha|].
      apply keys_apart_snoc; [exact Ha|].
      now rewrite <- cdict_mem_keys.
    + intros Hu Ho. apply andb_prop in Ho as [Ho Hrest].
      apply Husable; [|exact Hrest]. rewrite Hkeys.
      destruct (Merger.cdict_mem (occ_key o) d); [exact Hu|].
      rewrite forallb_app, Hu. simpl. now rewrite Ho.
Qed.

Section LoadAccounts.
Context `{JsonLib}.

Lemma load_step_total file n line st :
  Merger.total_loaded (load_step file n line st)
  = Merger.total_loaded st + length (line_occurrence file (n, line)).
Proof.
  load_counts line.
  destruct (Merger.cdict_mem _ _); simpl; lia.
Qed.

Lemma load_files_total files st :
  Merger.total_loaded (load_files_state files st)
  = Merger.total_loaded st + length (occurrences_of files).
Proof.
  unfold load_files_state, occurrences_of.
  revert st; induction files as [|f rest IH]; intros st; simpl.
  - lia.
  - rewrite IH, length_app.
    rewrite (steps_adds (load_step (fst f)) Merger.total_loaded
               (fun nl => length (line_occurrence (fst f) nl))).
    + unfold file_occurrences. rewrite list_sum_lengths. lia.
    + intros; apply load_step_total.
Qed.

Lemma occurrences_usable files :
  forallb (fun o => usable_key (occ_key o)) (occurrences_of files) = true.
Proof.
  apply forallb_forall. intros o Ho.
  unfold occurrences_of in Ho. apply in_flat_map in Ho as (f & _ & Ho).
  unfold file_occurrences in Ho. apply in_flat_map in Ho as (nl & _ & Ho).
  unfold line_occurrence, load_entry in Ho.
  destruct (json_loads (snd nl)) as [v|]; [|contradiction].
  destruct (key_fields v) as [[a b]|]; [|contradiction].
  destruct (get_default v "classification" (JObj [])); [|contradiction].
  destruct (truthy a && truthy b && Merger.key_hashable (a, b)) eqn:E;
    [|contradiction].
  destruct Ho as [<-|[]]. exact E.
Qed.

Lemma load_total_counts (dir : list (string * list string)) :
  let st := snd (Merger.load_classifications dir) in
  Merger.total_loaded st
  = length (occurrences_of (Merger.result_files dir))
  /\ Merger.total_loaded st
     = length (Merger.classifications st) + length (Merger.duplicates st).
Proof.
  cbv zeta. unfold Merger.load_classifications.
  rewrite load_files_fold. cbn [snd].
  rewrite load_files_total. cbn [Merger.load_init Merger.total_loaded].
  split; [reflexivity|].
  pose proof (load_files_mapping (Merger.result_files dir) Merger.load_init)
    as Hmap.
  cbn [Merger.load_init Merger.classifications Merger.duplicates] in Hmap.
  destruct (mapping_accounts (occurrences_of (Merger.result_files dir)) [] [])
    as (Hlen & _).
  rewrite <- Hmap in Hlen. cbn [fst snd length] in Hlen. lia.
Qed.

(** X5: the load phase counts every line that loads, whatever the
    directory holds: [total_loaded] is the number of lines of the result
    files that are records with a usable composite key, and it is the number
    of entries of the mapping plus the number of duplicates reported, so the
    total printed exceeds the size of the mapping by the duplicates. *)
Theorem load_total_accounts (dir : list (string * list string)) :
  let st := snd (Merger.load_classifications dir) in
  Merger.total_loaded st
  = length (occurrences_of (Merger.result_files dir))
  /\ Merger.total_loaded st
     = length (Merger.classifications st) + length (Merger.duplicates st).
Proof. exact (load_total_counts dir). Qed.

Lemma loaded_keys (dir : list (string * list string)) :
  let keys :=
    map fst (Merger.classifications (snd (Merger.load_classifications dir))) in
  keys_apart keys = true /\ forallb usable_key keys = true.
Proof.
  cbv zeta. unfold Merger.load_classifications.
  rewrite load_files_fold. cbn [snd].
  pose proof (load_files_mapping (Merger.result_files dir) Merger.load_init)
    as Hmap.
  cbn [Merger.load_init Merger.classifications Merger.duplicates] in Hmap.
  destruct (mapping_accounts (occurrences_of (Merger.result_files dir)) [] [])
    as (_ & Hapart & Husable).
  rewrite <- Hmap in Hapart, Husable. cbn [fst] in Hapart, Husable.
  split; [now apply Hapart|].
  apply Husable; [reflexivity|apply occurrences_usable].
Qed.

(** X6: the mapping the load phase returns is a dictionary of usable keys:
    no two of its keys are equal as Python tuples, and each has a non-empty,
    hashable [case_id] and [case_no]. *)
Theorem load_keys_apart (dir : list (string * list string)) :
  let keys :=
    map fst (Merger.classifications (snd (Merger.load_classifications dir))) in
  keys_apart keys = true /\ forallb usable_key keys = true.
Proof. exact (loaded_keys dir). Qed.

End LoadAccounts.

Section MergeAccounts.
Context `{JsonLib}.

Lemma merge_step_total cls n line st :
  Merger.total_cases (merge_step cls n line st)
  = Merger.total_cases st + (if parses line then 1 else 0).
Proof. merge_counts line. Qed.

Lemma merge_step_merged cls n line st :
  Merger.merged_count (merge_step cls n line st)
  = Merger.merged_count st
    + match Merger.train_key line with
      | Some k => if Merger.cdict_mem k cls then 1 else 0
      | None => 0
      end.
Proof. merge_counts line. Qed.

(** What every turn of the merge loop keeps true of the counters. *)
Lemma merge_step_balance cls n line st :
  length (Merger.outfile st)
  = Merger.merged_count st
    + length (filter no_match (Merger.no_classification_found st))
  /\ Merger.merged_count st + length (Merger.no_classification_found st)
     <= Merger.total_cases st ->
  length (Merger.outfile (merge_step cls n line st))
  = Merger.merged_count (merge_step cls n line st)
    + length (filter no_match
                (Merger.no_classification_found (merge_step cls n line st)))
  /\ Merger.merged_count (merge_step cls n line st)
     + length (Merger.no_classification_found (merge_step cls n line st))
     <= Merger.total_cases (merge_step cls n line st).
Proof. intros [Hout Hle]. merge_counts line. Qed.

Lemma count_parsed n (lines : list string) :
  list_sum (map (fun nl : nat * string => if parses (snd nl) then 1 else 0)
              (numbered n lines))
  = length (filter parses lines).
Proof.
  revert n; induction lines as [|line rest IH]; intros n; simpl.
  - reflexivity.
  - rewrite IH. now destruct (parses line).
Qed.

Lemma count_hits cls n (lines : list string) :
  list_sum (map (fun nl : nat * string =>
                   match Merger.train_key (snd nl) with
                   | Some k => if Merger.cdict_mem k cls then 1 else 0
                   | None => 0
                   end) (numbered n lines))
  = length (hits lines cls).
Proof.
  unfold hits. revert n; induction lines as [|line rest IH]; intros n; simpl.
  - reflexivity.
  - rewrite IH. destruct (Merger.train_key line) as [k|]; simpl.
    + now destruct (Merger.cdict_mem k cls).
    + reflexivity.
Qed.

Lemma merged_hits (train : list string) (cls : Merger.cdict) :
  Merger.merged_count (snd (Merger.merge_with_train train cls))
  = length (hits train cls).
Proof.
  unfold Merger.merge_with_train. rewrite merge_loop_steps. cbn [snd].
  rewrite (steps_adds (merge_step cls) Merger.merged_count
             (fun nl => match Merger.train_key (snd nl) with
                        | Some k => if Merger.cdict_mem k cls then 1 else 0
                        | None => 0
                        end)).
  - now rewrite count_hits.
  - intros; apply merge_step_merged.
Qed.

Lemma total_parsed (train : list string) (cls : Merger.cdict) :
  Merger.total_cases (snd (Merger.merge_with_train train cls))
  = length (filter parses train).
Proof.
  unfold Merger.merge_with_train. rewrite merge_loop_steps. cbn [snd].
  rewrite (steps_adds (merge_step cls) Merger.total_cases
             (fun nl => if parses (snd nl) then 1 else 0)).
  - now rewrite count_parsed.
  - intros; apply merge_step_total.
Qed.

Lemma merge_balance (train : list string) (cls : Merger.cdict) :
  let st := snd (Merger.merge_with_train train cls) in
  length (Merger.outfile st)
  = Merger.merged_count st
    + length (filter no_match (Merger.no_classification_found st))
  /\ Merger.merged_count st + length (Merger.no_classification_found st)
     <= Merger.total_cases st.
Proof.
  cbv zeta. unfold Merger.merge_with_train. rewrite merge_loop_steps.
  cbn [snd].
  apply (steps_keeps (merge_step cls)
           (fun st =>
              length (Merger.outfile st)
              = Merger.merged_count st
                + length (filter no_match
                            (Merger.no_classification_found st))
              /\ Merger.merged_count st
                 + length (Merger.no_classification_found st)
                 <= Merger.total_cases st)).
  - intros; now apply merge_step_balance.
  - simpl. lia.
Qed.

(** X7: the counters the merge phase returns, for every base dataset and
    every mapping.  [total_cases] is the number of lines that parse as JSON;
    [merged_count] is the number of lines that carry a usable key of the
    mapping; the records written are the merged ones and the ones recorded
    as having no matching classification; and the merged and the unmatched
    cases together never exceed [total_cases], which never exceeds the
    number of lines. *)
Theorem merge_counters_account (train : list string) (cls : Merger.cdict) :
  let st := snd (Merger.merge_with_train train cls) in
  Merger.total_cases st = length (filter parses train)
  /\ Merger.merged_count st = length (hits train cls)
  /\ length (Merger.outfile st)
     = Merger.merged_count st
       + length (filter no_match (Merger.no_classification_found st))
  /\ Merger.merged_count st + length (Merger.no_classification_found st)
     <= Merger.total_cases st
  /\ Merger.total_cases st <= length train.
Proof.
  cbv zeta. pose proof (merge_balance train cls) as [Hout Hle].
  rewrite total_parsed in *. rewrite merged_hits in *.
  repeat split; try assumption. apply filter_length_le.
Qed.

End MergeAccounts.

(* ================================================================== *)
(** ** Merger: every classification is merged or reported *)




Section ClassificationsAccounted.
Context `{JsonLib}.



End ClassificationsAccounted.

(* ================================================================== *)
(** ** Merger: the report and the final summary *)

Lemma appends_emit {L} (line : L) : appends (emit line).
Proof. intros out. now exists [line]. Qed.

Lemma appends_emit_if {L} c (line : L) : appends (emit_if c line).
Proof.
  intros out. destruct c; simpl.
  - now exists [line].
  - exists []. now rewrite app_nil_r.
Qed.

Lemma appends_lift {L A} (r : result A) : appends (lift (St := list L) r).
Proof. intros out. exists []. simpl. now rewrite app_nil_r. Qed.

Lemma appends_bind {L A B} (m : M (list L) A) (k : A -> M (list L) B) :
  appends m -> (forall a, appends (k a)) -> appends (bind m k).
Proof.
  intros Hm Hk out. unfold bind.
  destruct (Hm out) as [more1 E1].
  destruct (m out) as [[a|e] out1]; simpl in E1; subst out1.
  - destruct (Hk a (out ++ more1)) as [more2 E2].
    exists (more1 ++ more2). now rewrite E2, app_assoc.
  - now exists more1.
Qed.

Lemma appends_for_each {L A} (items : list A) (body : A -> M (list L) unit) :
  (forall x, appends (body x)) -> appends (for_each items body).
Proof.
  intros Hbody. induction items as [|x rest IH]; simpl.
  - intros out. exists []. simpl. now rewrite app_nil_r.
  - apply appends_bind; [apply Hbody|intros _; exact IH].
Qed.


Lemma returns_emit {L} (line : L) : returns (emit line).
Proof. intros out. now exists tt. Qed.


Lemma returns_lift {L A} (a : A) : returns (lift (St := list L) (Ok a)).
Proof. intros out. now exists a. Qed.

Lemma returns_bind {L A B} (m : M (list L) A) (k : A -> M (list L) B) :
  returns m -> (forall a, returns (k a)) -> returns (bind m k).
Proof.
  intros Hm Hk out. unfold bind.
  destruct (Hm out) as [a E].
  destruct (m out) as [[a'|e] out1]; simpl in E; [|discriminate].
  apply Hk.
Qed.

Lemma returns_for_each {L A} (items : list A) (body : A -> M (list L) unit) :
  (forall x, returns (body x)) -> returns (for_each items body).
Proof.
  intros Hbody. induction items as [|x rest IH]; simpl.
  - intros out. now exists tt.
  - apply returns_bind; [apply Hbody|intros _; exact IH].
Qed.

(** A loop of writes ends normally. *)
Lemma for_each_emit {L A} (items : list A) (line : A -> L) out :
  fst (for_each items (fun x => emit (line x)) out) = Ok tt.
Proof. now rewrite for_each_fold. Qed.

Lemma percent_ok count total :
  total <> 0 ->
  percent count total = Ok (Z.of_nat count, Z.of_nat total).
Proof.
  intros Hne. unfold percent, truediv.
  destruct (Z.eqb_spec (Z.of_nat total) 0); [lia|reflexivity].
Qed.

Lemma percent_zero count : percent count 0 = Raise ZeroDivisionError.
Proof. reflexivity. Qed.

Section MergerReport.
Context `{SortLib}.

(** The part of the report after the success rate. *)
Lemma report_appends merged_count total_cases unmatched duplicates orphaned :
  appends (MergerMain.generate_validation_report merged_count total_cases
             unmatched duplicates orphaned).
Proof.
  unfold MergerMain.generate_validation_report.
  repeat first
    [ apply appends_emit | apply appends_emit_if | apply appends_lift
    | apply appends_for_each; intros ?
    | apply appends_bind; [|intros ?]
    | match goal with
      | |- appends (if ?c then _ else _) => destruct c
      | |- appends (match ?l with [] => _ | _ :: _ => _ end) => destruct l
      end ].
Qed.

Lemma bind_emit {L A} (line : L) (k : unit -> M (list L) A) out :
  bind (emit line) k out = k tt (out ++ [line]).
Proof. reflexivity. Qed.



End MergerReport.



Section MergerMainContract.
Context `{JsonLib} `{SortLib}.






End MergerMainContract.

Section MergerMainRuns.
#[local] Existing Instance Ref.ref_json.
#[local] Existing Instance RefSort.ref_sort.



End MergerMainRuns.

(* ================================================================== *)
(** ** Age Extractor: the statistics *)

Lemma stat_bump name k stats :
  ExtractorMain.stat name (AgeExtractor.bump_str k stats)
  = ExtractorMain.stat name stats + (if (k =? name) then 1 else 0).
Proof.
  unfold ExtractorMain.stat.
  induction stats as [|[k' n] rest IH]; simpl.
  - destruct (k =? name); reflexivity.
  - destruct (String.eqb_spec k' k) as [->|Hne]; simpl.
    + destruct (k =? name); simpl; lia.
    + destruct (String.eqb_spec k' name) as [->|Hne']; simpl.
      * destruct (String.eqb_spec k name) as [->|]; [contradiction|lia].
      * exact IH.
Qed.

Lemma sum_bump_decade k dist :
  list_sum (map snd (AgeExtractor.bump_decade k dist))
  = S (list_sum (map snd dist)).
Proof.
  induction dist as [|[k' n] rest IH]; simpl.
  - reflexivity.
  - destruct (k' =? k)%Z; simpl; [reflexivity|]. rewrite IH. lia.
Qed.

Section ExtractorStatistics.
Context `{JsonLib} `{ReLib} `{DateLib}.

Lemma bump_if_state c name st :
  AgeExtractor.bump_if c name st
  = (Ok tt,
     {| AgeExtractor.stats := bump_when c name (AgeExtractor.stats st);
        AgeExtractor.age_distribution := AgeExtractor.age_distribution st;
        AgeExtractor.results := AgeExtractor.results st;
        AgeExtractor.extract_log := AgeExtractor.extract_log st |}).
Proof. destruct c, st; reflexivity. Qed.

Lemma count_decade_state final_age st :
  AgeExtractor.count_decade final_age st
  = (Ok tt,
     {| AgeExtractor.stats :=
          bump_when (AgeExtractor.truthy_int final_age) "total_with_age"
            (AgeExtractor.stats st);
        AgeExtractor.age_distribution :=
          bump_decade_when (AgeExtractor.truthy_int final_age)
            (decade_of final_age) (AgeExtractor.age_distribution st);
        AgeExtractor.results := AgeExtractor.results st;
        AgeExtractor.extract_log := AgeExtractor.extract_log st |}).
Proof.
  destruct st, final_age as [a|]; simpl; [|reflexivity].
  now destruct (a =? 0)%Z.
Qed.

Lemma stat_bump_when name (c : bool) k stats :
  ExtractorMain.stat name (bump_when c k stats)
  = ExtractorMain.stat name stats
    + (if c then if (k =? name) then 1 else 0 else 0).
Proof. destruct c; [apply stat_bump|simpl; lia]. Qed.

Lemma sum_bump_decade_when (c : bool) k dist :
  list_sum (map snd (bump_decade_when c k dist))
  = list_sum (map snd dist) + (if c then 1 else 0).
Proof. destruct c; simpl; [rewrite sum_bump_decade|]; lia. Qed.

Lemma tally_of stats dist results log :
  (let count name := ExtractorMain.stat name stats in
   count "male_cases" + count "female_cases" = count "total_processed"
   /\ count "high_confidence" + count "medium_confidence"
      = count "total_processed"
   /\ length results <= count "total_processed"
   /\ count "total_with_age" = length (filter aged results)
   /\ count "birth_years_found" = length (filter born results)
   /\ count "calculated_ages" = length (filter calculated results)
   /\ count "direct_ages_found" <= length results
   /\ list_sum (map snd dist) = count "total_with_age") ->
  tally {| AgeExtractor.stats := stats; AgeExtractor.age_distribution := dist;
           AgeExtractor.results := results;
           AgeExtractor.extract_log := log |}.
Proof. intros HT. exact HT. Qed.

(** The body of the loop keeps the statistics in agreement, whether it
    ends normally or raises. *)
Lemma process_line_tally n line st :
  tally st -> tally (snd (AgeExtractor.process_line n line st)).
Proof.
  intros HT. assert (HT' := HT).
  unfold tally, aged, born, calculated in HT'. cbv zeta in HT'.
  unfold AgeExtractor.process_line, loads.
  eff_unfold; cbn [fst snd].
  destruct (json_loads line) as [[ | | | | |fields]|]; simpl; try exact HT.
  name_fields.
  match goal with
  | |- context [get ?c "gender"] =>
      destruct c as [ | | | | |cfields]; simpl; try exact HT
  end.
  name_fields.
  repeat match goal with
  | |- context [is_str ?a ?s] => destruct (is_str a s); simpl; try exact HT
  end.
  all: match goal with
       | |- context [AgeExtractor.extract_birth_year ?f] =>
           destruct (AgeExtractor.extract_birth_year f) as [birth|e1]; simpl;
           [destruct (AgeExtractor.extract_direct_age f) as [direct|e2];
            simpl|]
       end.
  all: rewrite ?bump_if_state; cbn [fst snd];
    rewrite ?bump_if_state; cbn [fst snd];
    rewrite ?bump_if_state; cbn [fst snd];
    rewrite ?count_decade_state; cbn [fst snd].
  all: clear HT; unfold AgeExtractor.append_result, modify;
    cbn [fst snd AgeExtractor.stats AgeExtractor.results
         AgeExtractor.age_distribution AgeExtractor.extract_log];
    apply tally_of; cbv beta zeta.
  all: rewrite ?filter_app, ?length_app, ?sum_bump_decade_when,
         ?stat_bump_when, ?stat_bump.
  all: unfold aged, born, calculated, AgeExtractor.make_age_info,
         AgeExtractor.age_source_of; simpl.
  all: repeat match goal with
       | |- context [AgeExtractor.truthy_int ?x] =>
           destruct (AgeExtractor.truthy_int x)
       end; simpl; lia.
Qed.

Lemma process_handler_tally n e st :
  tally st -> tally (snd (AgeExtractor.process_handler n e st)).
Proof. intros HT. destruct e; exact HT. Qed.

(** Every turn of the extraction loop keeps the statistics in agreement. *)
Lemma process_step_tally n line st :
  tally st -> tally (process_step n line st).
Proof.
  intros HT. unfold process_step, try_except.
  pose proof (process_line_tally n line st HT) as Hbody.
  destruct (AgeExtractor.process_line n line st) as [[a|e] st'];
    [exact Hbody|].
  now apply process_handler_tally.
Qed.

Lemma process_tally input :
  tally (snd (AgeExtractor.process_dataset input)).
Proof.
  unfold AgeExtractor.process_dataset. rewrite process_loop_steps.
  cbn [snd]. apply (steps_keeps process_step tally).
  - intros; now apply process_step_tally.
  - unfold tally. cbv. repeat split; lia.
Qed.

End ExtractorStatistics.

Section ExtractorStatisticsContract.
Context `{JsonLib} `{ReLib} `{DateLib}.

(** X11: the statistics of [process_dataset] agree with each other and
    with the entries written, for every input file.  The cases processed are
    the male plus the female ones and the high plus the medium confidence
    ones; no more entries are written than cases processed; [total_with_age]
    counts the entries whose age is set and not 0, [birth_years_found] those
    with a birth year, [calculated_ages] those whose source is "calculated";
    no more direct ages are counted than entries written; and the decade
    counts add up to [total_with_age]. *)
Theorem extractor_statistics_agree (input : list string) :
  let st := snd (AgeExtractor.process_dataset input) in
  let count name := ExtractorMain.stat name (AgeExtractor.stats st) in
  let results := AgeExtractor.results st in
  count "male_cases" + count "female_cases" = count "total_processed"
  /\ count "high_confidence" + count "medium_confidence"
     = count "total_processed"
  /\ length results <= count "total_processed"
  /\ count "total_with_age" = length (filter aged results)
  /\ count "birth_years_found" = length (filter born results)
  /\ count "calculated_ages" = length (filter calculated results)
  /\ count "direct_ages_found" <= length results
  /\ list_sum (map snd (AgeExtractor.age_distribution st))
     = count "total_with_age".
Proof. exact (process_tally input). Qed.

End ExtractorStatisticsContract.

(* ================================================================== *)
(** ** Age Extractor: the entries written *)

Section ExtractorEntries.
Context `{JsonLib} `{ReLib} `{DateLib}.

Lemma scan_patterns_raises lo hi patterns fact e :
  AgeExtractor.scan_patterns lo hi patterns fact = Raise e -> e = TypeError.
Proof.
  induction patterns as [|p rest IH]; simpl; [discriminate|].
  destruct fact; simpl; try (now intros [= <-]).
  destruct (AgeExtractor.scan_matches lo hi _); [discriminate|exact IH].
Qed.

Lemma scan_facts_raises lo hi patterns facts e :
  AgeExtractor.scan_facts lo hi patterns facts = Raise e -> e = TypeError.
Proof.
  induction facts as [|fact rest IH]; simpl; [discriminate|].
  destruct (AgeExtractor.py_len fact) as [n|e'] eqn:El.
  - destruct (2000 <? n)%nat; [exact IH|].
    destruct (AgeExtractor.scan_patterns lo hi patterns fact)
      as [[v|]|e'] eqn:Ep; [discriminate|exact IH|].
    intros [= <-]. exact (scan_patterns_raises _ _ _ _ _ Ep).
  - intros [= <-]. destruct fact; simpl in El; congruence.
Qed.

Lemma extract_raises lo hi patterns facts e :
  AgeExtractor.extract lo hi patterns facts = Raise e -> e = TypeError.
Proof.
  unfold AgeExtractor.extract.
  destruct (AgeExtractor.first_facts facts) as [items|e'] eqn:Ef.
  - apply scan_facts_raises.
  - intros [= <-]. destruct facts; simpl in Ef; congruence.
Qed.

Lemma process_step_skipped n line v st :
  json_loads line = Some v -> eligible v = true -> extractable v = false ->
  AgeExtractor.extract_log (process_step n line st)
  = AgeExtractor.extract_log st ++ [AgeExtractor.ExtractError n].
Proof.
  intros Hv. unfold extractable.
  unfold process_step, AgeExtractor.process_line,
    AgeExtractor.process_handler, loads, eligible, facts_of.
  eff_unfold; cbn [fst snd]. rewrite Hv. clear Hv.
  destruct v as [ | | | | |fields]; simpl; try discriminate.
  name_fields.
  destruct field as [ | | | | |cfields]; simpl; try discriminate.
  name_fields.
  repeat match goal with
  | |- context [is_str ?a ?s] => destruct (is_str a s); simpl
  end; try discriminate; intros _ Hx.
  all: destruct (AgeExtractor.extract_birth_year field0) as [birth|e] eqn:Eb;
    [destruct (AgeExtractor.extract_direct_age field0) as [direct|e] eqn:Ed;
     [discriminate|apply extract_raises in Ed]
    |apply extract_raises in Eb]; subst e; reflexivity.
Qed.

Lemma process_step_processed n line st :
  ExtractorMain.stat "total_processed"
    (AgeExtractor.stats (process_step n line st))
  = ExtractorMain.stat "total_processed" (AgeExtractor.stats st)
    + length (filter eligible (records [line])).
Proof.
  unfold records, process_step, AgeExtractor.process_line,
    AgeExtractor.process_handler, loads, eligible.
  eff_unfold; cbn [fst snd flat_map].
  destruct (json_loads line) as [[ | | | | |fields]|]; simpl; try lia.
  name_fields.
  destruct field as [ | | | | |cfields]; simpl; try lia.
  name_fields.
  repeat match goal with
  | |- context [is_str ?a ?s] => destruct (is_str a s); simpl; try lia
  end.
  all: destruct (AgeExtractor.extract_birth_year field0) as [birth|[]]; simpl;
    [destruct (AgeExtractor.extract_direct_age field0) as [direct|[]]; simpl|
     ..].
  all: rewrite ?bump_if_state; cbn [fst snd];
    rewrite ?bump_if_state; cbn [fst snd];
    rewrite ?bump_if_state; cbn [fst snd];
    rewrite ?count_decade_state; cbn [fst snd].
  all: unfold AgeExtractor.append_result, AgeExtractor.extract_print, modify;
    cbn [fst snd AgeExtractor.stats].
  all: rewrite ?stat_bump_when, ?stat_bump; simpl.
  all: repeat match goal with
       | |- context [AgeExtractor.truthy_int ?x] =>
           destruct (AgeExtractor.truthy_int x)
       end; simpl; lia.
Qed.

Lemma eligible_count n input :
  list_sum (map (fun nl : nat * string =>
                   length (filter eligible (records [snd nl])))
              (numbered n input))
  = length (filter eligible (records input)).
Proof.
  unfold records. revert n; induction input as [|line rest IH]; intros n;
    simpl; [reflexivity|].
  rewrite IH, app_nil_r, filter_app, length_app. reflexivity.
Qed.

Lemma extractable_of_texts v :
  eligible v = true -> facts_are_texts v = true -> extractable v = true.
Proof.
  intros He Hf. unfold extractable. rewrite He. simpl.
  unfold facts_are_texts in Hf.
  destruct (facts_of v) as [ | | | |items| ]; try discriminate.
  destruct (texts_of_items items Hf) as [texts ->].
  unfold AgeExtractor.extract_birth_year, AgeExtractor.extract_direct_age.
  now rewrite !extract_find.
Qed.

Lemma entries_for_extractable line v :
  json_loads line = Some v -> extractable v = true ->
  exists e, entries_for line = [e] /\ entry_of v e.
Proof.
  intros Hv Hx. unfold extractable in Hx.
  apply andb_prop in Hx as [He Hx].
  unfold entries_for. rewrite Hv, He.
  destruct (eligible_is_object v He) as (a & b & Kf). rewrite Kf.
  destruct (AgeExtractor.extract_birth_year (facts_of v)) as [birth|] eqn:Eb;
    [|discriminate].
  destruct (AgeExtractor.extract_direct_age (facts_of v)) as [direct|] eqn:Ed;
    [|discriminate].
  eexists; split; [reflexivity|].
  unfold entry_of; simpl. split; [assumption|]. eauto.
Qed.

Lemma entries_for_skipped line :
  match json_loads line with
  | Some v => extractable v = false
  | None => True
  end ->
  entries_for line = [].
Proof.
  unfold entries_for, extractable.
  destruct (json_loads line) as [v|]; [|reflexivity].
  destruct (eligible v); [|reflexivity]. simpl.
  destruct (key_fields v) as [[a b]|]; [|reflexivity].
  destruct (AgeExtractor.extract_birth_year (facts_of v)); [|reflexivity].
  destruct (AgeExtractor.extract_direct_age (facts_of v)); [|reflexivity].
  discriminate.
Qed.

Lemma entries_of_extractable input :
  Forall2 entry_of (filter extractable (records input))
    (flat_map entries_for input).
Proof.
  unfold records. induction input as [|line rest IH]; simpl; [constructor|].
  destruct (json_loads line) as [v|] eqn:Hv; simpl.
  - destruct (extractable v) eqn:Hx.
    + destruct (entries_for_extractable line v Hv Hx) as (e & -> & Hent).
      simpl. constructor; assumption.
    + rewrite (entries_for_skipped line); [exact IH|]. now rewrite Hv.
  - rewrite (entries_for_skipped line); [exact IH|]. now rewrite Hv.
Qed.

Lemma extractable_filter input :
  (forall line v,
     In line input -> json_loads line = Some v -> eligible v = true ->
     facts_are_texts v = true) ->
  filter extractable (records input) = filter eligible (records input).
Proof.
  intros Hfacts. apply filter_ext_in. intros v Hin.
  unfold records in Hin. apply in_flat_map in Hin as (line & Hline & Hin).
  destruct (json_loads line) as [v'|] eqn:Hv; [|contradiction].
  destruct Hin as [<-|[]].
  destruct (eligible v') eqn:He.
  - now apply extractable_of_texts, (Hfacts line).
  - unfold extractable. now rewrite He.
Qed.

(** C7, as amended: the Age Extractor completes on every input, and its
    output holds exactly one entry for every record whose gender is Male or
    Female, whose confidence is High or Medium, and on whose facts both
    extractions return, in input order, each carrying the record's
    [case_id] and [case_no] and the age information extracted from it, found
    or not; nothing else is in the output.  Both extractions return whenever
    the facts are a sequence of texts or absent, so on a dataset whose
    eligible records have such facts there is one entry for every eligible
    record.  An eligible record whose facts make an extraction raise (facts
    that are [null], a first fact without a length) gives no entry: it is
    logged as an error with its line number, after it has been counted in
    [total_processed], which is the number of eligible records and not the
    number of entries. *)
Theorem one_entry_per_eligible_record (input : list string) :
  let run := AgeExtractor.process_dataset input in
  let results := AgeExtractor.results (snd run) in
  fst run = Ok tt
  /\ Forall2 entry_of (filter extractable (records input)) results
  /\ (forall v, extractable v = true -> eligible v = true)
  /\ (forall v,
        eligible v = true -> facts_are_texts v = true -> extractable v = true)
  /\ ((forall line v,
         In line input -> json_loads line = Some v -> eligible v = true ->
         facts_are_texts v = true) ->
      Forall2 entry_of (filter eligible (records input)) results)
  /\ (forall v,
        eligible v = true -> facts_of v = JNull -> extractable v = false)
  /\ (forall v x rest,
        eligible v = true -> facts_of v = JArr (x :: rest) ->
        AgeExtractor.py_len x = Raise TypeError -> extractable v = false)
  /\ (forall i line v,
        nth_error input i = Some line -> json_loads line = Some v ->
        eligible v = true -> extractable v = false ->
        In (AgeExtractor.ExtractError (S i))
           (AgeExtractor.extract_log (snd run)))
  /\ ExtractorMain.stat "total_processed" (AgeExtractor.stats (snd run))
     = length (filter eligible (records input)).
Proof.
  cbv zeta. rewrite process_results.
  split; [|split; [|split; [|split; [|split; [|split; [|split; [|split]]]]]]].
  - unfold AgeExtractor.process_dataset. now rewrite process_loop_steps.
  - apply entries_of_extractable.
  - intros v Hx. unfold extractable in Hx. now apply andb_prop in Hx.
  - apply extractable_of_texts.
  - intros Hfacts. rewrite <- (extractable_filter input Hfacts).
    apply entries_of_extractable.
  - intros v He Hf. unfold extractable. rewrite He, Hf. reflexivity.
  - intros v x rest He Hf Hlen. unfold extractable. rewrite He, Hf.
    unfold AgeExtractor.extract_birth_year, AgeExtractor.extract. simpl.
    now rewrite Hlen.
  - intros i line v Hi Hv He Hx.
    unfold AgeExtractor.process_dataset. rewrite process_loop_steps.
    cbn [snd].
    destruct (nth_error_split _ _ Hi) as (before & rest & -> & <-).
    rewrite steps_app. simpl.
    apply (steps_log_grows process_step AgeExtractor.extract_log).
    + intros; apply extract_log_grows.
    + rewrite (process_step_skipped _ line v) by assumption.
      apply in_or_app. right. now left.
  - unfold AgeExtractor.process_dataset. rewrite process_loop_steps.
    cbn [snd].
    rewrite (steps_adds process_step
               (fun st => ExtractorMain.stat "total_processed"
                            (AgeExtractor.stats st))
               (fun nl => length (filter eligible (records [snd nl])))).
    + rewrite eligible_count. reflexivity.
    + intros; apply process_step_processed.
Qed.
End ExtractorEntries.

Section ExtractorEntriesRuns.
#[local] Existing Instance Ref.ref_json.
#[local] Existing Instance Ref.ref_re.
#[local] Existing Instance Ref.ref_date.

(** C7, witness: in the sample dataset the facts of the eligible records
    are texts, and there is one entry for each of them. *)
Lemma one_entry_per_eligible_record_witness :
  Forall2 entry_of (filter eligible (records sample_dataset))
    (AgeExtractor.results
       (snd (AgeExtractor.process_dataset sample_dataset))).
Proof.
  apply (proj1 (proj2 (proj2 (proj2 (proj2
           (one_entry_per_eligible_record sample_dataset)))))).
  intros line v [<-|[<-|[<-|[<-|[]]]]] Hv He;
    vm_compute in Hv; try discriminate;
    injection Hv as <-; vm_compute in He; try discriminate;
    vm_compute; reflexivity.
Defined.

(** C7, counterexample: two records with gender Male or Female and
    confidence High, the first with facts [null], the second with a number
    as its first fact.  Both are counted as processed, both are logged as
    errors, and the output has no entry. *)
Lemma eligible_records_without_entry :
  let input :=
    [ Ref.js "{'case_id': 'A', 'case_no': '1', 'classification': {'gender': 'Male', 'confidence': 'High'}, 'facts': null, 'judgment_date': '2010-05-04'}";
      Ref.js "{'case_id': 'B', 'case_no': '2', 'classification': {'gender': 'Female', 'confidence': 'High'}, 'facts': [1975, 'The applicant was born in 1975.'], 'judgment_date': '2010-05-04'}" ] in
  let run := AgeExtractor.process_dataset input in
  map eligible (records input) = [true; true]
  /\ fst run = Ok tt
  /\ AgeExtractor.results (snd run) = []
  /\ AgeExtractor.extract_log (snd run)
     = [AgeExtractor.ExtractError 1; AgeExtractor.ExtractError 2]
  /\ ExtractorMain.stat "total_processed" (AgeExtractor.stats (snd run)) = 2.
Proof. cbv zeta. vm_compute. repeat split. Qed.

End ExtractorEntriesRuns.

(* ================================================================== *)
(** ** Age Extractor: [main] *)

Lemma truediv_ok a b : b <> 0%Z -> truediv a b = Ok (a, b).
Proof.
  intros Hne. unfold truediv. destruct (Z.eqb_spec b 0); [contradiction|].
  reflexivity.
Qed.

Lemma returns_share label count total :
  total <> 0 -> returns (ExtractorMain.share label count total).
Proof.
  intros Hne. unfold ExtractorMain.share.
  rewrite truediv_ok by lia.
  apply returns_bind; [apply returns_lift|intros ?; apply returns_emit].
Qed.

Lemma print_statistics_returns st out :
  ExtractorMain.stat "total_processed" (AgeExtractor.stats st) <> 0 ->
  fst (ExtractorMain.print_statistics st out) = Ok tt.
Proof.
  intros Hne.
  assert (Hret : returns (ExtractorMain.print_statistics st)).
  { unfold ExtractorMain.print_statistics. cbv zeta.
    repeat first
      [ apply returns_emit | apply returns_share; assumption
      | apply returns_for_each; intros ?
      | apply returns_bind; [|intros ?]
      | rewrite percent_ok by assumption; apply returns_lift ]. }
  destruct (Hret out) as [[] E]. exact E.
Qed.

Lemma print_statistics_stops st :
  ExtractorMain.stat "total_processed" (AgeExtractor.stats st) = 0 ->
  ExtractorMain.print_statistics st []
  = (Raise ZeroDivisionError, [ExtractorMain.Processed 0]).
Proof.
  intros Hzero. unfold ExtractorMain.print_statistics. cbv zeta.
  rewrite Hzero. reflexivity.
Qed.

Lemma summary_report_returns st out :
  ExtractorMain.stat "total_processed" (AgeExtractor.stats st) <> 0 ->
  fst (ExtractorMain.generate_summary_report st out) = Ok tt.
Proof.
  intros Hne.
  assert (Hret : returns (ExtractorMain.generate_summary_report st)).
  { unfold ExtractorMain.generate_summary_report. cbv zeta.
    repeat first
      [ apply returns_emit
      | apply returns_for_each; intros ?
      | apply returns_bind; [|intros ?]
      | rewrite percent_ok by assumption; apply returns_lift
      | rewrite truediv_ok by lia; apply returns_lift ]. }
  destruct (Hret out) as [[] E]. exact E.
Qed.

Lemma closing_lines_returns st out :
  AgeExtractor.results st <> [] ->
  fst (ExtractorMain.closing_lines st out) = Ok tt.
Proof.
  intros Hne.
  assert (Hlen : length (AgeExtractor.results st) <> 0)
    by (destruct (AgeExtractor.results st); [congruence|discriminate]).
  assert (Hret : returns (ExtractorMain.closing_lines st)).
  { unfold ExtractorMain.closing_lines. cbv zeta.
    repeat first
      [ apply returns_emit
      | apply returns_for_each; intros ?
      | apply returns_bind; [|intros ?]
      | rewrite percent_ok by assumption; apply returns_lift ]. }
  destruct (Hret out) as [[] E]. exact E.
Qed.

Lemma closing_lines_stops st :
  AgeExtractor.results st = [] ->
  ExtractorMain.closing_lines st []
  = (Raise ZeroDivisionError, [ExtractorMain.TotalEntries 0]).
Proof.
  intros Hnil. unfold ExtractorMain.closing_lines. cbv zeta.
  rewrite Hnil. reflexivity.
Qed.

Section ExtractorMainContract.
Context `{JsonLib} `{ReLib} `{DateLib}.

(** [main], phase by phase: the extraction loop always ends normally. *)
Lemma extractor_main_phases input :
  let st := snd (AgeExtractor.process_dataset input) in
  let shown := ExtractorMain.print_statistics st [] in
  let report := ExtractorMain.generate_summary_report st [] in
  let last := ExtractorMain.closing_lines st [] in
  ExtractorMain.main input
  = match fst shown with
    | Raise e =>
        (Raise e,
         {| ExtractorMain.processed := st;
            ExtractorMain.printed := snd shown;
            ExtractorMain.report_file := None;
            ExtractorMain.closing := [] |})
    | Ok _ =>
        match fst report with
        | Raise e =>
            (Raise e,
             {| ExtractorMain.processed := st;
                ExtractorMain.printed := snd shown;
                ExtractorMain.report_file := Some (snd report);
                ExtractorMain.closing := [] |})
        | Ok _ =>
            (fst last,
             {| ExtractorMain.processed := st;
                ExtractorMain.printed := snd shown;
                ExtractorMain.report_file := Some (snd report);
                ExtractorMain.closing := snd last |})
        end
    end.
Proof.
  cbv zeta. unfold ExtractorMain.main, AgeExtractor.process_dataset.
  rewrite process_loop_steps. cbn [snd].
  destruct (ExtractorMain.print_statistics _ _) as [[[]|e] shown];
    cbn [fst snd]; [|reflexivity].
  destruct (ExtractorMain.generate_summary_report _ _) as [[[]|e] report];
    cbn [fst snd]; [|reflexivity].
  now destruct (ExtractorMain.closing_lines _ _).
Qed.

(** X12: [main] of the Age Extractor ends normally exactly when at least
    one entry was written, and otherwise ends with [ZeroDivisionError].
    When no case was processed, the statistics stop after their first line
    and no report file is written; when cases were processed but every one
    of them raised, the statistics and the report are written and the run
    stops at the closing share of entries with an age. *)
Theorem extractor_main_outcome (input : list string) :
  let run := ExtractorMain.main input in
  let st := ExtractorMain.processed (snd run) in
  let processed := ExtractorMain.stat "total_processed" (AgeExtractor.stats st) in
  st = snd (AgeExtractor.process_dataset input)
  /\ (fst run = Ok tt <-> AgeExtractor.results st <> [])
  /\ (fst run <> Ok tt -> fst run = Raise ZeroDivisionError)
  /\ (processed = 0 ->
      ExtractorMain.printed (snd run) = [ExtractorMain.Processed 0]
      /\ ExtractorMain.report_file (snd run) = None)
  /\ (processed <> 0 -> AgeExtractor.results st = [] ->
      ExtractorMain.report_file (snd run) <> None
      /\ ExtractorMain.closing (snd run) = [ExtractorMain.TotalEntries 0]).
Proof.
  cbv zeta. rewrite extractor_main_phases. cbv zeta.
  set (st := snd (AgeExtractor.process_dataset input)).
  pose proof (process_tally input) as HT. fold st in HT.
  destruct HT as (_ & _ & Hle & _).
  destruct (Nat.eq_dec
              (ExtractorMain.stat "total_processed" (AgeExtractor.stats st)) 0)
    as [Hzero|Hpos].
  - rewrite (print_statistics_stops st Hzero).
    cbn [fst snd ExtractorMain.processed ExtractorMain.printed
         ExtractorMain.report_file ExtractorMain.closing].
    assert (Hnil : AgeExtractor.results st = []).
    { destruct (AgeExtractor.results st); [reflexivity|simpl in Hle; lia]. }
    rewrite Hnil.
    split; [reflexivity|]. split; [split; [discriminate|congruence]|].
    split; [reflexivity|]. split; [now split|contradiction].
  - rewrite (print_statistics_returns st [] Hpos).
    rewrite (summary_report_returns st [] Hpos).
    cbn [fst snd ExtractorMain.processed ExtractorMain.printed
         ExtractorMain.report_file ExtractorMain.closing].
    split; [reflexivity|].
    destruct (AgeExtractor.results st) as [|r more] eqn:Er.
    + rewrite (closing_lines_stops st Er). cbn [fst snd].
      split; [split; [discriminate|congruence]|].
      split; [reflexivity|]. split; [contradiction|].
      intros _ _. split; [discriminate|reflexivity].
    + rewrite closing_lines_returns by (rewrite Er; discriminate).
      split; [split; [discriminate|reflexivity]|].
      split; [congruence|]. split; [contradiction|]. discriminate.
Qed.

End ExtractorMainContract.

(* ================================================================== *)
(** ** Age Extractor: the names of the statistics *)

Lemma bump_str_keys k stats :
  map fst (AgeExtractor.bump_str k stats)
  = if existsb (fun k' => (k' =? k)) (map fst stats) then map fst stats
    else map fst stats ++ [k].
Proof.
  induction stats as [|[k' n] rest IH]; simpl; [reflexivity|].
  destruct (k' =? k); simpl; [reflexivity|].
  rewrite IH. now destruct (existsb _ (map fst rest)).
Qed.

Section ExtractorNames.
Context `{JsonLib} `{ReLib} `{DateLib}.

Lemma process_line_names n line st :
  map fst (AgeExtractor.stats st) = map fst AgeExtractor.stats_init ->
  map fst (AgeExtractor.stats (snd (AgeExtractor.process_line n line st)))
  = map fst AgeExtractor.stats_init.
Proof.
  intros HK.
  unfold AgeExtractor.process_line, loads.
  eff_unfold; cbn [fst snd].
  destruct (json_loads line) as [[ | | | | |fields]|]; simpl; try exact HK.
  name_fields.
  match goal with
  | |- context [get ?c "gender"] =>
      destruct c as [ | | | | |cfields]; simpl; try exact HK
  end.
  name_fields.
  repeat match goal with
  | |- context [is_str ?a ?s] => destruct (is_str a s); simpl; try exact HK
  end.
  all: match goal with
       | |- context [AgeExtractor.extract_birth_year ?f] =>
           destruct (AgeExtractor.extract_birth_year f) as [birth|e1]; simpl;
           [destruct (AgeExtractor.extract_direct_age f) as [direct|e2];
            simpl|]
       end.
  all: rewrite ?bump_if_state; cbn [fst snd];
    rewrite ?bump_if_state; cbn [fst snd];
    rewrite ?bump_if_state; cbn [fst snd];
    rewrite ?count_decade_state; cbn [fst snd].
  all: unfold AgeExtractor.append_result, modify, bump_when;
    cbn [fst snd AgeExtractor.stats].
  all: repeat match goal with
       | |- context [AgeExtractor.truthy_int ?x] =>
           destruct (AgeExtractor.truthy_int x)
       end.
  all: rewrite ?bump_str_keys, HK; reflexivity.
Qed.

(** The dictionary of statistics keeps the names it starts with, so
    reading a statistic by its name never fails. *)
Lemma stats_names_kept input :
  map fst (AgeExtractor.stats (snd (AgeExtractor.process_dataset input)))
  = map fst AgeExtractor.stats_init.
Proof.
  unfold AgeExtractor.process_dataset. rewrite process_loop_steps.
  cbn [snd].
  apply (steps_keeps process_step
           (fun st => map fst (AgeExtractor.stats st)
                      = map fst AgeExtractor.stats_init));
    [|reflexivity].
  intros n line st HK. unfold process_step, try_except.
  pose proof (process_line_names n line st HK) as Hbody.
  destruct (AgeExtractor.process_line n line st) as [[a|e] st'];
    [exact Hbody|].
  destruct e; exact Hbody.
Qed.

End ExtractorNames.

Section ExtractorMainRuns.
#[local] Existing Instance Ref.ref_json.
#[local] Existing Instance Ref.ref_re.
#[local] Existing Instance Ref.ref_date.

(** X12, witness: the sample dataset has two entries, and [main] ends
    normally on it. *)
Lemma extractor_main_outcome_witness :
  fst (ExtractorMain.main sample_dataset) = Ok tt.
Proof.
  apply (proj2 (proj1 (proj2 (extractor_main_outcome sample_dataset)))).
  vm_compute. discriminate.
Defined.

End ExtractorMainRuns.

(* ================================================================== *)
(** ** Classification statistics: the counters *)

Lemma incr_keys name d : map fst (Analyzer.incr name d) = map fst d.
Proof.
  induction d as [|[k n] rest IH]; simpl; [reflexivity|].
  destruct (k =? name); simpl; [reflexivity|now rewrite IH].
Qed.

Lemma incr_cell_keys c k t : map fst (Analyzer.incr_cell c k t) = map fst t.
Proof.
  induction t as [|[c' d] rest IH]; simpl; [reflexivity|].
  destruct (c' =? c); simpl; [reflexivity|now rewrite IH].
Qed.

Lemma incr_cell_shape c k t : well_shaped t -> well_shaped (Analyzer.incr_cell c k t).
Proof.
  intros [Hkeys Hall]. split; [now rewrite incr_cell_keys|].
  clear Hkeys. induction t as [|[c' d] rest IH]; simpl; [intros e []|].
  destruct (c' =? c); intros e [<-|He].
  - simpl. rewrite incr_keys. apply (Hall (c', d)). now left.
  - apply Hall. now right.
  - apply (Hall (c', d)). now left.
  - apply IH; [|exact He]. intros e' He'. apply Hall. now right.
Qed.

Lemma counters_of_incr c' c k t :
  Analyzer.counters_of c' (Analyzer.incr_cell c k t)
  = if (c =? c') then Analyzer.incr k (Analyzer.counters_of c' t)
    else Analyzer.counters_of c' t.
Proof.
  unfold Analyzer.counters_of.
  induction t as [|[c0 d] rest IH]; simpl.
  - now destruct (c =? c').
  - destruct (String.eqb_spec c0 c) as [E0|Hne]; simpl.
    + subst c0. destruct (String.eqb_spec c c') as [E|Hne']; reflexivity.
    + destruct (String.eqb_spec c0 c') as [E|Hne']; simpl.
      * subst c0. destruct (String.eqb_spec c c') as [E|]; [|reflexivity].
        subst c. contradiction.
      * exact IH.
Qed.

Lemma value_incr n k d :
  match find (fun p => (fst p =? n)) (Analyzer.incr k d) with
  | Some p => snd p
  | None => 0
  end
  = match find (fun p => (fst p =? n)) d with
    | Some p => snd p
    | None => 0
    end
    + (if (k =? n) && existsb (fun p => (fst p =? k)) d then 1 else 0).
Proof.
  induction d as [|[k0 m] rest IH]; simpl.
  - rewrite andb_false_r. reflexivity.
  - destruct (String.eqb_spec k0 k) as [->|Hne]; simpl.
    + rewrite orb_true_r || idtac.
      destruct (String.eqb_spec k n) as [->|Hne']; simpl; lia.
    + destruct (String.eqb_spec k0 n) as [->|Hne']; simpl.
      * destruct (String.eqb_spec k n) as [->|]; [contradiction|].
        simpl. lia.
      * exact IH.
Qed.

(** Reading a counter after an increment. *)
Lemma cell_incr c' n c k t :
  Analyzer.cell c' n (Analyzer.incr_cell c k t)
  = Analyzer.cell c' n t
    + (if (c =? c') && ((k =? n)
                        && existsb (fun p => (fst p =? k))
                             (Analyzer.counters_of c' t))
       then 1 else 0).
Proof.
  unfold Analyzer.cell. rewrite counters_of_incr.
  destruct (c =? c'); simpl; [apply value_incr|lia].
Qed.

(** The counters of a category of a well-shaped table. *)
Lemma shaped_counters c t :
  well_shaped t -> In c Analyzer.categories ->
  map fst (Analyzer.counters_of c t) = level_names.
Proof.
  intros [Hkeys Hall] Hc. unfold Analyzer.counters_of.
  destruct (find (fun p => (fst p =? c)) t) as [e|] eqn:E.
  - apply find_some in E as [He _]. now apply Hall.
  - exfalso. rewrite <- Hkeys in Hc. apply in_map_iff in Hc as (e & <- & He).
    pose proof (find_none _ _ E e He) as Hn. simpl in Hn.
    now rewrite String.eqb_refl in Hn.
Qed.

Lemma has_key_names k d :
  existsb (fun p : string * nat => (fst p =? k)) d
  = existsb (fun k' => (k' =? k)) (map fst d).
Proof.
  induction d as [|[k0 m] rest IH]; simpl; [reflexivity|]. now rewrite IH.
Qed.

(** How many of the four levels a name is. *)
Lemma level_weight k :
  (if (k =? "High") then 1 else 0) + (if (k =? "Medium") then 1 else 0)
  + (if (k =? "Low") then 1 else 0) + (if (k =? "N/A") then 1 else 0)
  + (if (k =? "total") then 1 else 0)
  = if existsb (fun k' => (k' =? k)) level_names then 1 else 0.
Proof.
  unfold level_names. cbn [existsb].
  rewrite !(String.eqb_sym _ k).
  destruct (String.eqb_spec k "total") as [->|]; [reflexivity|].
  destruct (String.eqb_spec k "High") as [->|]; [reflexivity|].
  destruct (String.eqb_spec k "Medium") as [->|]; [reflexivity|].
  destruct (String.eqb_spec k "Low") as [->|]; [reflexivity|].
  destruct (String.eqb_spec k "N/A") as [->|]; reflexivity.
Qed.

(** One increment in a category of a well-shaped table: the total of the
    category and the sum of its levels. *)
Lemma total_incr c' c k t :
  well_shaped t -> In c' Analyzer.categories ->
  Analyzer.cell c' "total" (Analyzer.incr_cell c k t)
  = Analyzer.cell c' "total" t
    + (if (c =? c') && (k =? "total") then 1 else 0).
Proof.
  intros Hs Hc. rewrite cell_incr, has_key_names, (shaped_counters c' t Hs Hc).
  destruct (c =? c'); cbn [andb]; [|reflexivity].
  destruct (String.eqb_spec k "total") as [->|]; reflexivity.
Qed.

Lemma levels_incr c' c k t :
  well_shaped t -> In c' Analyzer.categories ->
  levels_sum c' (Analyzer.incr_cell c k t)
  = levels_sum c' t
    + (if (c =? c')
          && (existsb (fun k' => (k' =? k)) level_names
              && negb (k =? "total"))
       then 1 else 0).
Proof.
  intros Hs Hc. unfold levels_sum.
  rewrite !cell_incr, !has_key_names, (shaped_counters c' t Hs Hc).
  pose proof (level_weight k) as Hw.
  set (listed := existsb (fun k' => (k' =? k)) level_names) in *.
  destruct (c =? c'); cbn [andb]; [|lia].
  destruct listed, (k =? "High"), (k =? "Medium"), (k =? "Low"),
    (k =? "N/A"), (k =? "total"); cbn [andb negb] in *; lia.
Qed.

Lemma levels_incr_other c' c k t :
  ~ In c' Analyzer.categories -> well_shaped t ->
  levels_sum c' (Analyzer.incr_cell c k t) = levels_sum c' t
  /\ Analyzer.cell c' "total" (Analyzer.incr_cell c k t)
     = Analyzer.cell c' "total" t.
Proof.
  intros Hc [Hkeys _].
  assert (Hnone : Analyzer.counters_of c' t = []).
  { unfold Analyzer.counters_of.
    destruct (find (fun p => (fst p =? c')) t) as [e|] eqn:E; [|reflexivity].
    apply find_some in E as [He Hk]. simpl in Hk.
    apply String.eqb_eq in Hk. exfalso. apply Hc. rewrite <- Hkeys, <- Hk.
    now apply in_map. }
  unfold levels_sum. rewrite !cell_incr, Hnone. simpl.
  rewrite !andb_false_r. lia.
Qed.

(** The sum over the categories grows by what the one category gains. *)
Lemma sum_one_category (f g : string -> nat) c w :
  In c Analyzer.categories ->
  (forall c', In c' Analyzer.categories ->
     g c' = f c' + (if (c =? c') then w else 0)) ->
  list_sum (map g Analyzer.categories)
  = list_sum (map f Analyzer.categories) + w.
Proof.
  intros Hc Hg.
  assert (Heach : forall c', In c' Analyzer.categories ->
            g c' = f c' + (if (c =? c') then w else 0)) by exact Hg.
  unfold Analyzer.categories in *. simpl.
  rewrite !Heach by (simpl; tauto).
  simpl in Hc.
  destruct Hc as [<-|[<-|[<-|[<-|[<-|[]]]]]]; simpl; lia.
Qed.

(** One increment in a category of a well-shaped table, for every
    category at once. *)
Lemma incr_cell_gains t c k :
  well_shaped t -> In c Analyzer.categories ->
  well_shaped (Analyzer.incr_cell c k t)
  /\ (forall c', levels_sum c' (Analyzer.incr_cell c k t)
                 = levels_sum c' t + (if (c =? c') then level_gain k else 0))
  /\ (forall c', Analyzer.cell c' "total" (Analyzer.incr_cell c k t)
                 = Analyzer.cell c' "total" t
                   + (if (c =? c') then total_gain k else 0)).
Proof.
  intros Hs Hc. split; [now apply incr_cell_shape|].
  assert (Hother : forall c', ~ In c' Analyzer.categories -> (c =? c') = false).
  { intros c' Hc'. apply String.eqb_neq. intros <-. contradiction. }
  split; intros c'.
  - destruct (in_dec string_dec c' Analyzer.categories) as [Hin|Hout].
    + rewrite (levels_incr c' c k t Hs Hin). unfold level_gain.
      destruct (c =? c'); cbn [andb]; reflexivity.
    + rewrite (proj1 (levels_incr_other c' c k t Hout Hs)).
      rewrite (Hother c' Hout). lia.
  - destruct (in_dec string_dec c' Analyzer.categories) as [Hin|Hout].
    + rewrite (total_incr c' c k t Hs Hin). unfold total_gain.
      destruct (c =? c'); cbn [andb]; reflexivity.
    + rewrite (proj2 (levels_incr_other c' c k t Hout Hs)).
      rewrite (Hother c' Hout). lia.
Qed.

Lemma level_gain_bound k : level_gain k + total_gain k <= 1.
Proof.
  unfold level_gain, total_gain.
  destruct (existsb _ level_names), (k =? "total"); cbn [andb negb]; lia.
Qed.

Lemma level_gain_total : level_gain "total" = 0 /\ total_gain "total" = 1.
Proof. split; reflexivity. Qed.

(** [key in d] names a key of [d]. *)
Lemma dict_key_found {A} (d : list (string * A)) key s :
  Analyzer.dict_key d key = Ok (Some s) -> In s (map fst d).
Proof.
  unfold Analyzer.dict_key. destruct (hashable key); [|discriminate].
  destruct key as [ | | |x| | ]; try discriminate.
  destruct (existsb (fun p => (fst p =? x)) d) eqn:E; [|discriminate].
  intros [= <-]. apply existsb_exists in E as (p & Hp & Hk).
  apply String.eqb_eq in Hk. rewrite <- Hk. now apply in_map.
Qed.

Section AnalyzerCounters.
Context `{JsonLib}.

(** What the body of the analysis loop does to the table and to the
    number of cases: nothing, or one more case with the table as it is, or
    one increment of a total without a case counted, or a total and a
    counter incremented and one more case. *)
Lemma analyze_line_effect n line st :
  let st' := snd (Analyzer.analyze_line n line st) in
  let t := Analyzer.classifications st in
  (Analyzer.classifications st' = t
   /\ (Analyzer.total_cases st' = Analyzer.total_cases st
       \/ Analyzer.total_cases st' = S (Analyzer.total_cases st)))
  \/ (exists c, In c (map fst t)
        /\ ((Analyzer.classifications st' = Analyzer.incr_cell c "total" t
             /\ Analyzer.total_cases st' = Analyzer.total_cases st)
            \/ (exists k,
                  Analyzer.classifications st'
                  = Analyzer.incr_cell c k (Analyzer.incr_cell c "total" t)
                  /\ Analyzer.total_cases st' = S (Analyzer.total_cases st)))).
Proof.
  cbv zeta.
  unfold Analyzer.analyze_line, loads, Analyzer.known_category,
    Analyzer.known_level, Analyzer.count_cell, Analyzer.count_case.
  eff_unfold; cbn [fst snd].
  destruct (json_loads line) as [[ | | | | |fields]|]; simpl; auto.
  name_fields.
  match goal with
  | |- context [get_default ?c "gender"] =>
      destruct c as [ | | | | |cfields]; simpl; auto
  end.
  name_fields.
  match goal with
  | |- context [Analyzer.dict_key (Analyzer.classifications st) ?g] =>
      destruct (Analyzer.dict_key (Analyzer.classifications st) g)
        as [[c|]|e] eqn:Ec; simpl; auto
  end.
  right. exists c. split; [exact (dict_key_found _ _ _ Ec)|].
  match goal with
  | |- context [Analyzer.dict_key ?d ?g] =>
      destruct (Analyzer.dict_key d g) as [[l|]|e] eqn:El; simpl; auto
  end.
  - right. now exists l.
  - right. now exists "N/A".
Qed.

Lemma analyze_line_counted n line st :
  counted st -> counted (snd (Analyzer.analyze_line n line st)).
Proof.
  intros (Hs & Hle & Hsum).
  destruct (analyze_line_effect n line st)
    as [(Ht & Hn)|(c & Hc & [(Ht & Hn)|(k & Ht & Hn)])];
    unfold counted; cbv zeta; rewrite Ht.
  - split; [exact Hs|]. split; [exact Hle|]. destruct Hn as [->| ->]; lia.
  - rewrite (proj1 Hs) in Hc.
    destruct (incr_cell_gains _ c "total" Hs Hc) as (Hs1 & Hl1 & Ht1).
    split; [exact Hs1|]. split.
    + intros c'. rewrite Hl1, Ht1. specialize (Hle c').
      destruct (c =? c'); [|lia]. destruct level_gain_total as [-> ->]. lia.
    + rewrite (sum_one_category (fun c' => levels_sum c' _) _ c
                 (level_gain "total") Hc (fun c' _ => Hl1 c')).
      rewrite Hn. destruct level_gain_total as [-> _]. lia.
  - rewrite (proj1 Hs) in Hc.
    destruct (incr_cell_gains _ c "total" Hs Hc) as (Hs1 & Hl1 & Ht1).
    destruct (incr_cell_gains _ c k Hs1 Hc) as (Hs2 & Hl2 & Ht2).
    pose proof (level_gain_bound k) as Hk.
    split; [exact Hs2|]. split.
    + intros c'. rewrite Hl2, Ht2, Hl1, Ht1. specialize (Hle c').
      destruct (c =? c'); [|lia]. destruct level_gain_total as [-> ->]. lia.
    + rewrite (sum_one_category (fun c' => levels_sum c' _) _ c
                 (level_gain k) Hc (fun c' _ => Hl2 c')).
      rewrite (sum_one_category (fun c' => levels_sum c' _) _ c
                 (level_gain "total") Hc (fun c' _ => Hl1 c')).
      rewrite Hn. destruct level_gain_total as [-> _]. lia.
Qed.

Lemma analyze_line_contained n line st :
  fst (try_except (Analyzer.analyze_line n line)
                  (Analyzer.analyze_handler n) st) = Ok tt.
Proof.
  unfold try_except.
  destruct (Analyzer.analyze_line n line st) as [[[]|e] st'];
    [reflexivity|].
  now destruct e.
Qed.

Lemma analyze_step_counted n line st :
  counted st -> counted (analyze_step n line st).
Proof.
  intros HC. unfold analyze_step, try_except.
  pose proof (analyze_line_counted n line st HC) as Hbody.
  destruct (Analyzer.analyze_line n line st) as [[a|e] st'];
    [exact Hbody|].
  destruct e; exact Hbody.
Qed.

(** The loop over the result files always ends normally, in a state whose
    counters agree. *)
Lemma analyze_files_counted files st :
  counted st ->
  exists st', for_each files Analyzer.analyze_file st = (Ok tt, st')
              /\ counted st'.
Proof.
  revert st; induction files as [|f rest IH]; intros st HC.
  - exists st. now split.
  - simpl. unfold bind. unfold Analyzer.analyze_file at 1.
    rewrite (for_lines_steps
               (fun line_num line =>
                  try_except (Analyzer.analyze_line line_num line)
                             (Analyzer.analyze_handler line_num)))
      by (intros; apply analyze_line_contained).
    apply IH.
    apply (steps_keeps analyze_step counted); [|exact HC].
    intros; now apply analyze_step_counted.
Qed.

Lemma counted_init : counted Analyzer.analyze_init.
Proof.
  unfold counted. cbv zeta. split; [|split].
  - split; [reflexivity|].
    intros e He. simpl in He.
    destruct He as [<-|[<-|[<-|[<-|[<-|[]]]]]]; reflexivity.
  - intros c. unfold levels_sum, Analyzer.cell, Analyzer.counters_of.
    simpl.
    repeat match goal with
    | |- context [if ?b then _ else _] => destruct b; simpl; try lia
    end.
  - vm_compute. lia.
Qed.

End AnalyzerCounters.

(* ================================================================== *)
(** ** Classification statistics: the cases counted and the printing *)

Lemma dict_key_names {A B} (d : list (string * A)) (d' : list (string * B))
    key :
  map fst d = map fst d' -> Analyzer.dict_key d key = Analyzer.dict_key d' key.
Proof.
  intros Hk. unfold Analyzer.dict_key.
  destruct (hashable key); [|reflexivity].
  destruct key as [ | | |s| | ]; try reflexivity.
  assert (E : existsb (fun p => (fst p =? s)) d
              = existsb (fun p => (fst p =? s)) d').
  { transitivity (existsb (fun k => (k =? s)) (map fst d)).
    - clear. induction d as [|[k a] rest IH]; simpl; [reflexivity|].
      now rewrite IH.
    - rewrite Hk. clear. induction d' as [|[k a] rest IH]; simpl;
        [reflexivity|]. now rewrite IH. }
  now rewrite E.
Qed.

Lemma dict_key_raises {A} (d : list (string * A)) key :
  (exists r, Analyzer.dict_key d key = Ok r) <-> hashable key = true.
Proof.
  unfold Analyzer.dict_key. destruct (hashable key).
  - split; [reflexivity|]. intros _. eexists. reflexivity.
  - split; [intros [r Hr]; discriminate|discriminate].
Qed.

Section AnalyzerCases.
Context `{JsonLib}.

(** The body counts a case exactly for a countable line. *)
Lemma analyze_line_counts n line st :
  well_shaped (Analyzer.classifications st) ->
  Analyzer.total_cases (snd (Analyzer.analyze_line n line st))
  = Analyzer.total_cases st + (if countable line then 1 else 0).
Proof.
  intros [Hkeys _].
  assert (Hinit : map fst (Analyzer.classifications st)
                  = map fst Analyzer.classifications_init) by exact Hkeys.
  unfold countable, Analyzer.analyze_line, loads, Analyzer.known_category,
    Analyzer.known_level, Analyzer.count_cell, Analyzer.count_case.
  eff_unfold; cbn [fst snd].
  destruct (json_loads line) as [[ | | | | |fields]|]; simpl; try lia.
  name_fields.
  match goal with
  | |- context [get_default ?c "gender"] =>
      destruct c as [ | | | | |cfields]; simpl; try lia
  end.
  name_fields.
  match goal with
  | |- context [Analyzer.dict_key (Analyzer.classifications st) ?g] =>
      rewrite (dict_key_names (Analyzer.classifications st)
                 Analyzer.classifications_init g Hinit);
      destruct (Analyzer.dict_key Analyzer.classifications_init g)
        as [[c|]|e]; simpl; try lia
  end.
  match goal with
  | |- context [Analyzer.dict_key ?d ?g] =>
      pose proof (dict_key_raises d g) as Hh;
      destruct (Analyzer.dict_key d g) as [[l|]|e]; simpl
  end.
  - rewrite (proj1 Hh) by (eexists; reflexivity). lia.
  - rewrite (proj1 Hh) by (eexists; reflexivity). lia.
  - destruct (hashable _); [|lia].
    destruct (proj2 Hh eq_refl) as [r Hr]. discriminate.
Qed.

Lemma analyze_step_counts n line st :
  counted st ->
  Analyzer.total_cases (analyze_step n line st)
  = Analyzer.total_cases st + (if countable line then 1 else 0).
Proof.
  intros (Hs & _). unfold analyze_step, try_except.
  pose proof (analyze_line_counts n line st Hs) as Hbody.
  destruct (Analyzer.analyze_line n line st) as [[a|e] st'];
    [exact Hbody|].
  destruct e; exact Hbody.
Qed.

Lemma analyze_steps_count lines n st :
  counted st ->
  Analyzer.total_cases (steps analyze_step n lines st)
  = Analyzer.total_cases st + length (filter countable lines).
Proof.
  revert n st; induction lines as [|line rest IH]; intros n st HC; simpl.
  - lia.
  - rewrite IH by now apply analyze_step_counted.
    rewrite analyze_step_counts by assumption.
    destruct (countable line); simpl; lia.
Qed.

Lemma analyze_files_count files st :
  counted st ->
  exists st', for_each files Analyzer.analyze_file st = (Ok tt, st')
              /\ counted st'
              /\ Analyzer.total_cases st'
                 = Analyzer.total_cases st
                   + length (filter countable (flat_map snd files)).
Proof.
  revert st; induction files as [|f rest IH]; intros st HC.
  - exists st. simpl. split; [reflexivity|]. split; [assumption|lia].
  - simpl. unfold bind. unfold Analyzer.analyze_file at 1.
    rewrite (for_lines_steps
               (fun line_num line =>
                  try_except (Analyzer.analyze_line line_num line)
                             (Analyzer.analyze_handler line_num)))
      by (intros; apply analyze_line_contained).
    fold analyze_step.
    assert (HC' : counted (steps analyze_step 1 (snd f) st)).
    { apply (steps_keeps analyze_step counted); [|exact HC].
      intros; now apply analyze_step_counted. }
    destruct (IH _ HC') as (st' & Hrun & Hc' & Hn).
    exists st'. split; [exact Hrun|]. split; [exact Hc'|].
    rewrite Hn, (analyze_steps_count (snd f) 1 st HC).
    rewrite filter_app, length_app. lia.
Qed.

End AnalyzerCases.

Lemma returns_ret {L A} (a : A) : returns (ret (St := list L) a).
Proof. intros out. now exists a. Qed.

Lemma for_each_raises {St A} (body : A -> M St unit) (P : exn -> Prop) :
  (forall x st e, fst (body x st) = Raise e -> P e) ->
  forall items st e, fst (for_each items body st) = Raise e -> P e.
Proof.
  intros Hbody items; induction items as [|x rest IH]; intros st e; simpl.
  - discriminate.
  - unfold bind. pose proof (Hbody x st) as Hx.
    destruct (body x st) as [[a|e'] st']; simpl in *.
    + apply IH.
    + intros [= <-]. now apply Hx.
Qed.

(** With cases counted, everything after the loop is printed. *)
Lemma analyzer_print_returns t total_cases out :
  total_cases <> 0 ->
  fst (Analyzer.print_statistics t total_cases out) = Ok tt.
Proof.
  intros Hne.
  assert (Hshare : forall c l,
            Analyzer.cell c "total" t <> 0 ->
            returns (Analyzer.level_share c l t)).
  { intros c l Hc. unfold Analyzer.level_share.
    destruct (0 <? Analyzer.cell c l t)%nat; [|apply returns_ret].
    rewrite percent_ok by assumption.
    apply returns_bind; [apply returns_lift|intros ?; apply returns_emit]. }
  assert (Hinsight : forall label count,
            returns (Analyzer.insight label count total_cases)).
  { intros label count. unfold Analyzer.insight.
    rewrite percent_ok by assumption.
    apply returns_bind; [apply returns_lift|intros ?; apply returns_emit]. }
  assert (Hret : returns (Analyzer.print_statistics t total_cases)).
  { unfold Analyzer.print_statistics.
    apply returns_bind; [apply returns_emit|intros _].
    apply returns_bind.
    { apply returns_for_each. intros c. unfold Analyzer.category_details.
      cbv zeta. destruct (Nat.eqb_spec (Analyzer.cell c "total" t) 0);
        [apply returns_ret|].
      rewrite percent_ok by assumption.
      repeat first
        [ apply returns_emit | apply returns_lift | apply Hshare; assumption
        | apply returns_bind; [|intros ?] ]. }
    intros _. apply returns_bind.
    { apply returns_for_each. intros c. unfold Analyzer.table_row.
      cbv zeta. destruct (0 <? total_cases)%nat.
      - rewrite percent_ok by assumption.
        repeat first
          [ apply returns_emit | apply returns_lift | apply returns_ret
          | apply returns_bind; [|intros ?] ].
      - apply returns_bind; [apply returns_ret|intros ?; apply returns_emit]. }
    intros _. apply returns_bind; [apply returns_emit|intros _].
    apply returns_bind.
    { apply returns_for_each. intros c. unfold Analyzer.level_row.
      cbv zeta. destruct (Nat.ltb_spec 0 (Analyzer.cell c "total" t));
        [|apply returns_ret].
      rewrite !percent_ok by lia.
      repeat first
        [ apply returns_emit | apply returns_lift
        | apply returns_bind; [|intros ?] ]. }
    intros _. unfold Analyzer.key_insights. cbv zeta.
    repeat first
      [ apply returns_emit | apply returns_lift | apply Hinsight
      | apply returns_bind; [|intros ?]
      | match goal with
        | |- returns (if (0 <? ?x)%nat then _ else _) =>
            destruct (Nat.ltb_spec 0 x);
            [first [rewrite percent_ok by lia | rewrite truediv_ok by lia]|]
        end ]. }
  destruct (Hret out) as [[] E]. exact E.
Qed.

(** With no case counted, the printing ends with [ZeroDivisionError]: in
    the details of a category whose total is not 0, or at the first of the
    key insights. *)
Lemma analyzer_print_stops t out :
  fst (Analyzer.print_statistics t 0 out) = Raise ZeroDivisionError.
Proof.
  unfold Analyzer.print_statistics. rewrite bind_emit.
  unfold bind at 1.
  pose proof (for_each_raises (Analyzer.category_details t 0)
                (fun e => e = ZeroDivisionError)) as Hloop.
  destruct (for_each Analyzer.categories (Analyzer.category_details t 0) _)
    as [[[]|e] out1] eqn:E1.
  - unfold bind at 1.
    assert (Hrows : returns (for_each Analyzer.categories
                               (Analyzer.table_row t 0))).
    { apply returns_for_each. intros c. unfold Analyzer.table_row.
      cbv zeta. cbn [Nat.ltb Nat.leb].
      apply returns_bind; [apply returns_ret|intros ?; apply returns_emit]. }
    destruct (Hrows out1) as [[] Er].
    destruct (for_each Analyzer.categories (Analyzer.table_row t 0) out1)
      as [r2 out2]. simpl in Er. subst r2.
    rewrite bind_emit. unfold bind at 1.
    assert (Hlevels : returns (for_each Analyzer.categories
                                 (Analyzer.level_row t))).
    { apply returns_for_each. intros c. unfold Analyzer.level_row.
      cbv zeta. destruct (Nat.ltb_spec 0 (Analyzer.cell c "total" t));
        [|apply returns_ret].
      rewrite !percent_ok by lia.
      repeat first
        [ apply returns_emit | apply returns_lift
        | apply returns_bind; [|intros ?] ]. }
    destruct (Hlevels (out2 ++ [Analyzer.TableTotal 0])) as [[] El].
    destruct (for_each Analyzer.categories (Analyzer.level_row t) _)
      as [r3 out3]. simpl in El. subst r3.
    reflexivity.
  - simpl. f_equal.
    apply (Hloop) with (items := Analyzer.categories) (st := out ++ [Analyzer.Processed 0]);
      [|now rewrite E1].
    intros c st e'. unfold Analyzer.category_details. cbv zeta.
    destruct (Analyzer.cell c "total" t =? 0)%nat; [discriminate|].
    rewrite bind_emit. unfold bind, lift. rewrite percent_zero. simpl.
    congruence.
Qed.

Section AnalyzerContract.
Context `{JsonLib}.

(** The analysis, phase by phase. *)
Lemma analyze_phases dir :
  exists st,
    for_each (Analyzer.result_files dir) Analyzer.analyze_file
      Analyzer.analyze_init = (Ok tt, st)
    /\ counted st
    /\ Analyzer.total_cases st
       = length (filter countable
                   (flat_map snd (Analyzer.result_files dir)))
    /\ Analyzer.analyze_classification_files dir
       = match fst (Analyzer.print_statistics (Analyzer.classifications st)
                      (Analyzer.total_cases st) []) with
         | Raise e =>
             (Raise e,
              (st, snd (Analyzer.print_statistics
                          (Analyzer.classifications st)
                          (Analyzer.total_cases st) [])))
         | Ok _ =>
             (Ok (Analyzer.classifications st, Analyzer.total_cases st),
              (st, snd (Analyzer.print_statistics
                          (Analyzer.classifications st)
                          (Analyzer.total_cases st) [])))
         end.
Proof.
  destruct (analyze_files_count (Analyzer.result_files dir)
              Analyzer.analyze_init counted_init)
    as (st & Hrun & HC & Hn).
  exists st. split; [exact Hrun|]. split; [exact HC|]. split; [exact Hn|].
  unfold Analyzer.analyze_classification_files. rewrite Hrun.
  now destruct (Analyzer.print_statistics _ _ _) as [[[]|e] out].
Qed.

(** X13: the counters the analysis returns agree with each other, for
    every results directory.  The table keeps its five categories and their
    five counters; in every category the cases counted under the four
    confidence levels are at most its total; and the cases counted under a
    level, over all categories, are at most [total_cases], which is the
    number of countable lines of the result files. *)
Theorem analyzer_counters_agree (dir : list (string * list string)) :
  let st := fst (snd (Analyzer.analyze_classification_files dir)) in
  let t := Analyzer.classifications st in
  map fst t = Analyzer.categories
  /\ (forall e, In e t -> map fst (snd e) = level_names)
  /\ (forall c, levels_sum c t <= Analyzer.cell c "total" t)
  /\ list_sum (map (fun c => levels_sum c t) Analyzer.categories)
     <= Analyzer.total_cases st
  /\ Analyzer.total_cases st
     = length (filter countable (flat_map snd (Analyzer.result_files dir))).
Proof.
  cbv zeta. destruct (analyze_phases dir) as (st & _ & HC & Hn & ->).
  assert (Hst : fst (snd
            match fst (Analyzer.print_statistics (Analyzer.classifications st)
                         (Analyzer.total_cases st) []) with
            | Ok _ =>
                (Ok (Analyzer.classifications st, Analyzer.total_cases st),
                 (st, snd (Analyzer.print_statistics
                             (Analyzer.classifications st)
                             (Analyzer.total_cases st) [])))
            | Raise e =>
                (Raise e,
                 (st, snd (Analyzer.print_statistics
                             (Analyzer.classifications st)
                             (Analyzer.total_cases st) [])))
            end) = st)
    by (now destruct (fst (Analyzer.print_statistics _ _ _))).
  rewrite Hst. destruct HC as ((Hkeys & Hall) & Hle & Hsum).
  repeat split; assumption.
Qed.

(** X14: the analysis returns its table and its count exactly when it
    counted a case.  On a results directory without a countable line (an
    empty one, for instance) it ends with [ZeroDivisionError] while
    printing, because the shares of all cases are computed without a
    guard. *)
Theorem analyzer_outcome (dir : list (string * list string)) :
  let run := Analyzer.analyze_classification_files dir in
  let st := fst (snd run) in
  let countable_lines :=
    filter countable (flat_map snd (Analyzer.result_files dir)) in
  (countable_lines <> [] ->
   fst run = Ok (Analyzer.classifications st, Analyzer.total_cases st)
   /\ Analyzer.total_cases st = length countable_lines)
  /\ (countable_lines = [] -> fst run = Raise ZeroDivisionError).
Proof.
  cbv zeta. destruct (analyze_phases dir) as (st & _ & HC & Hn & ->).
  split.
  - intros Hne.
    assert (Hpos : Analyzer.total_cases st <> 0).
    { rewrite Hn. intros Hz. apply length_zero_iff_nil in Hz. contradiction. }
    rewrite (analyzer_print_returns _ _ [] Hpos). cbn [fst snd].
    split; [reflexivity|exact Hn].
  - intros Hnil. rewrite Hnil in Hn. simpl in Hn. rewrite Hn.
    now rewrite analyzer_print_stops.
Qed.

End AnalyzerContract.

Section AnalyzerRuns.
#[local] Existing Instance Ref.ref_json.

(** X14, witness: the two result files hold three countable lines. *)
Lemma analyzer_outcome_witness :
  let run := Analyzer.analyze_classification_files two_result_files in
  fst run
  = Ok (Analyzer.classifications (fst (snd run)),
        Analyzer.total_cases (fst (snd run)))
  /\ Analyzer.total_cases (fst (snd run)) = 3.
Proof.
  cbv zeta.
  destruct (proj1 (analyzer_outcome two_result_files)) as [Hok Hn].
  - vm_compute. discriminate.
  - split; [exact Hok|]. rewrite Hn. vm_compute. reflexivity.
Defined.

End AnalyzerRuns.

(* ================================================================== *)
(** ** Age Extractor: the entries written *)

Section ExtractorEntries.
Context `{JsonLib} `{ReLib} `{DateLib}.

(** The age information of an entry, from the values it is made of. *)
Lemma make_age_info_consistent birth direct judgment_date :
  let info := AgeExtractor.make_age_info birth direct judgment_date in
  let set_age :=
    AgeExtractor.truthy_int (AgeExtractor.age_at_judgment info) in
  (AgeExtractor.age_source info = None
   \/ AgeExtractor.age_source info = Some "calculated"
   \/ AgeExtractor.age_source info = Some "direct")
  /\ (set_age = true -> AgeExtractor.age_source info <> None)
  /\ (AgeExtractor.age_source info = Some "calculated" ->
      AgeExtractor.birth_year info <> None /\ set_age = true)
  /\ (AgeExtractor.age_source info = Some "direct" ->
      AgeExtractor.age_at_judgment info <> None)
  /\ (AgeExtractor.age_source info = None -> set_age = false).
Proof.
  cbv zeta. unfold AgeExtractor.make_age_info, AgeExtractor.age_source_of,
    AgeExtractor.final_age_of.
  cbn [AgeExtractor.age_source AgeExtractor.age_at_judgment
       AgeExtractor.birth_year].
  assert (Hbirth : forall a,
            AgeExtractor.calculate_age_at_judgment birth judgment_date
            = Some a -> birth <> None).
  { intros a. destruct birth; [discriminate|]. simpl. discriminate. }
  destruct (AgeExtractor.calculate_age_at_judgment birth judgment_date)
    as [c|] eqn:Ec.
  - specialize (Hbirth c eq_refl). simpl.
    destruct (c =? 0)%Z; simpl.
    + destruct direct as [d|]; simpl; [destruct (d =? 0)%Z; simpl|].
      all: repeat split; auto; try discriminate; try congruence.
    + repeat split; auto; try discriminate; try congruence.
  - simpl. destruct direct as [d|]; simpl; [destruct (d =? 0)%Z eqn:Ed; simpl|].
    all: rewrite ?Ed; repeat split; auto; try discriminate; try congruence.
Qed.

(** X15: the age information of every entry written is consistent.  The
    source of the age is absent, "calculated" or "direct"; an age that is
    set and not 0 has a source; a "calculated" age comes with a birth year
    and is not 0; a "direct" source comes with an age; and an entry without
    a source has no age, or the age 0. *)
Theorem extractor_entries_consistent (input : list string)
    (e : AgeExtractor.entry) :
  In e (AgeExtractor.results (snd (AgeExtractor.process_dataset input))) ->
  let info := AgeExtractor.entry_age_info e in
  (AgeExtractor.age_source info = None
   \/ AgeExtractor.age_source info = Some "calculated"
   \/ AgeExtractor.age_source info = Some "direct")
  /\ (aged e = true -> AgeExtractor.age_source info <> None)
  /\ (AgeExtractor.age_source info = Some "calculated" ->
      AgeExtractor.birth_year info <> None /\ aged e = true)
  /\ (AgeExtractor.age_source info = Some "direct" ->
      AgeExtractor.age_at_judgment info <> None)
  /\ (AgeExtractor.age_source info = None -> aged e = false).
Proof.
  intros Hin. cbv zeta. rewrite process_results in Hin.
  apply in_flat_map in Hin as (line & _ & He).
  unfold entries_for in He.
  destruct (json_loads line) as [v|]; [|contradiction].
  destruct (eligible v); [|contradiction].
  destruct (key_fields v) as [[a b]|]; [|contradiction].
  destruct (AgeExtractor.extract_birth_year (facts_of v)) as [birth|];
    [|contradiction].
  destruct (AgeExtractor.extract_direct_age (facts_of v)) as [direct|];
    [|contradiction].
  destruct He as [<-|[]]. unfold aged.
  cbn [AgeExtractor.entry_age_info].
  exact (make_age_info_consistent birth direct (judgment_date_of v)).
Qed.

End ExtractorEntries.

Section ExtractorEntryRuns.
#[local] Existing Instance Ref.ref_json.
#[local] Existing Instance Ref.ref_re.
#[local] Existing Instance Ref.ref_date.

(** X15, witness: the first entry of the sample dataset, a man born in
    1975 and judged in 2010. *)
Lemma extractor_entries_consistent_witness :
  let e :=
    {| AgeExtractor.entry_case_id := JStr "A";
       AgeExtractor.entry_case_no := JStr "1";
       AgeExtractor.entry_age_info :=
         {| AgeExtractor.birth_year := Some 1975%Z;
            AgeExtractor.age_at_judgment := Some 35%Z;
            AgeExtractor.age_source := Some "calculated" |} |} in
  aged e = true.
Proof.
  cbv zeta.
  refine (proj2 (proj1 (proj2 (proj2
            (extractor_entries_consistent sample_dataset _ _))) _)).
  - vm_compute. left. reflexivity.
  - reflexivity.
Defined.

End ExtractorEntryRuns.

(* ================================================================== *)
(** ** Classification statistics: ordinary confidences *)

Lemma dict_key_str {A} (d : list (string * A)) key s :
  Analyzer.dict_key d key = Ok (Some s) -> key = JStr s.
Proof.
  unfold Analyzer.dict_key. destruct (hashable key); [|discriminate].
  destruct key as [ | | |x| | ]; try discriminate.
  destruct (existsb (fun p => (fst p =? x)) d); [|discriminate].
  now intros [= <-].
Qed.

Lemma level_gain_listed k :
  In k level_names -> k <> "total" -> level_gain k = 1.
Proof.
  intros Hin Hne. unfold level_gain.
  assert (E : existsb (fun k' => (k' =? k)) level_names = true).
  { apply existsb_exists. exists k. split; [exact Hin|apply String.eqb_refl]. }
  rewrite E. destruct (String.eqb_spec k "total"); [contradiction|reflexivity].
Qed.

Section AnalyzerPlain.
Context `{JsonLib}.

(** On a line with an ordinary confidence the body leaves the table as it
    is, or increments the total of one category and one of its levels. *)
Lemma analyze_line_plain n line st :
  plain_confidence line = true ->
  well_shaped (Analyzer.classifications st) ->
  let t := Analyzer.classifications st in
  let t' := Analyzer.classifications (snd (Analyzer.analyze_line n line st)) in
  t' = t
  \/ exists c k,
       In c Analyzer.categories /\ level_gain k = 1
       /\ t' = Analyzer.incr_cell c k (Analyzer.incr_cell c "total" t).
Proof.
  intros Hplain Hs. cbv zeta.
  unfold plain_confidence, confidence_of in Hplain.
  unfold Analyzer.analyze_line, loads, Analyzer.known_category,
    Analyzer.known_level, Analyzer.count_cell, Analyzer.count_case.
  eff_unfold; cbn [fst snd].
  destruct (json_loads line) as [[ | | | | |fields]|]; simpl; auto.
  simpl in Hplain. name_fields.
  match goal with
  | |- context [get_default ?c "gender"] =>
      destruct c as [ | | | | |cfields]; simpl; auto
  end.
  simpl in Hplain. name_fields.
  match goal with
  | |- context [Analyzer.dict_key (Analyzer.classifications st) ?g] =>
      destruct (Analyzer.dict_key (Analyzer.classifications st) g)
        as [[c|]|e] eqn:Ec; simpl; auto
  end.
  assert (Hc : In c Analyzer.categories).
  { rewrite <- (proj1 Hs). exact (dict_key_found _ _ _ Ec). }
  apply andb_prop in Hplain as [Hhash Hnot].
  match goal with
  | |- context [Analyzer.dict_key ?d ?g] =>
      pose proof (dict_key_raises d g) as Hh;
      destruct (Analyzer.dict_key d g) as [[l|]|e] eqn:El; simpl
  end.
  - right. exists c, l. split; [exact Hc|]. split; [|reflexivity].
    pose proof (dict_key_str _ _ _ El) as Hstr.
    pose proof (dict_key_found _ _ _ El) as Hl.
    rewrite (shaped_counters c _ (incr_cell_shape c "total" _ Hs) Hc) in Hl.
    apply level_gain_listed; [exact Hl|].
    intros ->. rewrite Hstr in Hnot. discriminate.
  - right. exists c, "N/A". repeat split; assumption.
  - destruct (proj2 Hh Hhash) as [r Hr]. discriminate.
Qed.

Lemma analyze_step_exact n line st :
  plain_confidence line = true ->
  counted st /\ exact_totals st ->
  counted (analyze_step n line st) /\ exact_totals (analyze_step n line st).
Proof.
  intros Hplain [HC HE]. split; [now apply analyze_step_counted|].
  assert (Hbody : exact_totals (snd (Analyzer.analyze_line n line st))).
  { destruct HC as (Hs & _).
    destruct (analyze_line_plain n line st Hplain Hs)
      as [Ht|(c & k & Hc & Hk & Ht)]; unfold exact_totals; rewrite Ht.
    - exact HE.
    - destruct (incr_cell_gains _ c "total" Hs Hc) as (Hs1 & Hl1 & Ht1).
      destruct (incr_cell_gains _ c k Hs1 Hc) as (_ & Hl2 & Ht2).
      pose proof (level_gain_bound k) as Hb.
      intros c'. rewrite Hl2, Ht2, Hl1, Ht1, (HE c').
      destruct (c =? c'); [|lia].
      destruct level_gain_total as [-> ->]. lia. }
  unfold analyze_step, try_except.
  destruct (Analyzer.analyze_line n line st) as [[a|e] st'];
    [exact Hbody|].
  destruct e; exact Hbody.
Qed.

Lemma analyze_steps_exact lines n st :
  (forall line, In line lines -> plain_confidence line = true) ->
  counted st /\ exact_totals st ->
  counted (steps analyze_step n lines st)
  /\ exact_totals (steps analyze_step n lines st).
Proof.
  revert n st; induction lines as [|line rest IH]; intros n st Hall Hst.
  - exact Hst.
  - simpl. apply IH; [intros l Hl; apply Hall; now right|].
    apply analyze_step_exact; [apply Hall; now left|exact Hst].
Qed.

Lemma analyze_files_exact files st :
  (forall line, In line (flat_map snd files) ->
     plain_confidence line = true) ->
  counted st /\ exact_totals st ->
  exists st', for_each files Analyzer.analyze_file st = (Ok tt, st')
              /\ counted st' /\ exact_totals st'.
Proof.
  revert st; induction files as [|f rest IH]; intros st Hall Hst.
  - exists st. split; [reflexivity|exact Hst].
  - simpl. unfold bind. unfold Analyzer.analyze_file at 1.
    rewrite (for_lines_steps
               (fun line_num line =>
                  try_except (Analyzer.analyze_line line_num line)
                             (Analyzer.analyze_handler line_num)))
      by (intros; apply analyze_line_contained).
    fold analyze_step. apply IH.
    + intros line Hl. apply Hall. simpl. apply in_or_app. now right.
    + apply analyze_steps_exact; [|exact Hst].
      intros line Hl. apply Hall. simpl. apply in_or_app. now left.
Qed.

(** X16: on result files whose confidences are ordinary ones (each can be
    hashed and none is "total"), every category's total is exactly the sum
    of its High, Medium, Low and N/A counts, and the totals of the five
    categories add up to at most [total_cases]. *)
Theorem analyzer_totals_exact (dir : list (string * list string)) :
  (forall line, In line (flat_map snd (Analyzer.result_files dir)) ->
     plain_confidence line = true) ->
  let st := fst (snd (Analyzer.analyze_classification_files dir)) in
  let t := Analyzer.classifications st in
  (forall c, Analyzer.cell c "total" t = levels_sum c t)
  /\ list_sum (map (fun c => Analyzer.cell c "total" t) Analyzer.categories)
     <= Analyzer.total_cases st.
Proof.
  intros Hall. cbv zeta.
  assert (Hinit : exact_totals Analyzer.analyze_init).
  { intros c. unfold levels_sum, Analyzer.cell, Analyzer.counters_of. simpl.
    repeat match goal with
    | |- context [if ?b then _ else _] => destruct b; simpl; try reflexivity
    end. }
  destruct (analyze_files_exact (Analyzer.result_files dir)
              Analyzer.analyze_init Hall (conj counted_init Hinit))
    as (st & Hrun & HC & HE).
  unfold Analyzer.analyze_classification_files. rewrite Hrun.
  assert (Hst : fst (snd
            (let (shown, out) :=
               Analyzer.print_statistics (Analyzer.classifications st)
                 (Analyzer.total_cases st) [] in
             match shown with
             | Ok _ =>
                 (Ok (Analyzer.classifications st, Analyzer.total_cases st),
                  (st, out))
             | Raise e => (Raise e, (st, out))
             end)) = st)
    by (now destruct (Analyzer.print_statistics _ _ _) as [[[]|e] out]).
  rewrite Hst. split; [exact HE|].
  destruct HC as (_ & _ & Hsum).
  rewrite (map_ext (fun c => Analyzer.cell c "total" (Analyzer.classifications st))
             (fun c => levels_sum c (Analyzer.classifications st)) HE).
  exact Hsum.
Qed.

End AnalyzerPlain.

Section AnalyzerPlainRuns.
#[local] Existing Instance Ref.ref_json.

(** X16, witness: the two result files, whose confidences are High, Low
    and N/A. *)
Lemma analyzer_totals_exact_witness :
  let st := fst (snd (Analyzer.analyze_classification_files two_result_files)) in
  let t := Analyzer.classifications st in
  (forall c, Analyzer.cell c "total" t = levels_sum c t)
  /\ list_sum (map (fun c => Analyzer.cell c "total" t) Analyzer.categories)
     <= Analyzer.total_cases st.
Proof.
  apply (analyzer_totals_exact two_result_files).
  intros line Hin. vm_compute in Hin.
  destruct Hin as [<-|[<-|[<-|[<-|[]]]]]; vm_compute; reflexivity.
Defined.

End AnalyzerPlainRuns.
